(** * caikit-embeddings: the [TextEmbedding] module

    A shallow embedding of
    [caikit_embeddings/modules/embedding_retrieval/embedding.py].

    The module is glue around three external libraries
    (sentence-transformers, torch, caikit.core).  Their entry points are
    parameters of the development; what the module itself does — argument
    validation, the truncation guard, request/response shaping, the
    load/save plumbing — is transcribed statement by statement into a
    state-and-exception monad over an explicit world (object store, file
    system, warning log, trace of encoder calls). *)

From Stdlib Require Import ZArith Ascii String.
From stdpp Require Import base gmap list strings pretty sorting.

Local Open Scope string_scope.
Local Open Scope Z_scope.

Set Warnings "-clear-no-such-hyp".

(** ** Python values and the object store *)

(** Object identities.  Lists and dicts are mutable objects that live in
    the store and are passed around by reference. *)
Definition loc := positive.

(** The Python values the module handles: JSON scalars and references to
    list/dict objects.  The float type is a parameter. *)
Inductive pyval (float : Type) : Type :=
| PNone
| PBool (b : bool)
| PInt (z : Z)
| PFloat (f : float)
| PStr (s : string)
| PRef (l : loc).

Arguments PNone {float}.
Arguments PBool {float} b.
Arguments PInt {float} z.
Arguments PFloat {float} f.
Arguments PStr {float} s.
Arguments PRef {float} l.

(** A store object: a [dict] with string keys or a [list]. *)
Inductive obj (float : Type) : Type :=
| ODict (d : gmap string (pyval float))
| OList (vs : list (pyval float)).

Arguments ODict {float} d.
Arguments OList {float} vs.

(** ** Exceptions *)

(** The exceptions that occur.  Where [caikit.core]'s error handler is the
    one raising, the exception carries the log code and the message or path
    the module hands to it.  [KeyboardInterrupt] and [SystemExit] stand for
    the [BaseException]s that are not [Exception]s. *)
Inductive exn : Type :=
| TypeError (log_code : string)
| ValueError (log_code : string) (msg : string)
| FileNotFoundError (log_code : string) (path : string)
| NotADirectoryError (log_code : string) (path : string)
| FileExistsError (path : string)
| KeyError (key : string)
| IndexError
| AttributeError (attr : string)
| RuntimeError (msg : string)
| KeyboardInterrupt
| SystemExit.

(** [isinstance(e, Exception)]: what an [except Exception] clause catches. *)
Definition is_Exception (e : exn) : bool :=
  match e with
  | KeyboardInterrupt | SystemExit => false
  | _ => true
  end.

(** [str(e)] as used in the warning messages. *)
Definition exn_str (e : exn) : string :=
  match e with
  | TypeError c => c
  | ValueError _ m => m
  | FileNotFoundError _ p => p
  | NotADirectoryError _ p => p
  | FileExistsError p => p
  | KeyError k => k
  | IndexError => "list index out of range"
  | AttributeError a => a
  | RuntimeError m => m
  | KeyboardInterrupt => ""
  | SystemExit => ""
  end.

Inductive result (A : Type) : Type :=
| Ok (a : A)
| Raise (e : exn).

Arguments Ok {A} a.
Arguments Raise {A} e.

(** ** The file system *)

Inductive node : Type :=
| Dir
| File (content : string).

(** ** The world *)

(** One call to [SentenceTransformer.encode]: on a single text or on a
    batch. *)
Inductive encode_call (float : Type) : Type :=
| EncodeOne (text : pyval float)
| EncodeBatch (texts : list (pyval float)).

Arguments EncodeOne {float} text.
Arguments EncodeBatch {float} texts.

Record World (float : Type) : Type := mkWorld {
  heap : gmap loc (obj float);          (* the Python object store *)
  fs : gmap string node;                (* the file system, by absolute path *)
  log : list string;                    (* warnings sent to the log channel *)
  encode_calls : list (encode_call float) (* calls to the encoder, oldest first *)
}.

Arguments mkWorld {float} heap fs log encode_calls.
Arguments heap {float} w.
Arguments fs {float} w.
Arguments log {float} w.
Arguments encode_calls {float} w.

(** ** The state-and-exception monad *)

Definition M (float : Type) (A : Type) : Type :=
  World float → result A * World float.

Definition ret {float A} (a : A) : M float A := λ w, (Ok a, w).

Definition bind {float A B} (c : M float A) (f : A → M float B) : M float B :=
  λ w, match c w with
       | (Ok a, w') => f a w'
       | (Raise e, w') => (Raise e, w')
       end.

Notation "x <- c ;; k" := (bind c (λ x, k))
  (at level 100, c at next level, k at level 200, right associativity).
Notation "c ;; k" := (bind c (λ _, k))
  (at level 100, k at level 200, right associativity).

(** [raise e]. *)
Definition raise {float A} (e : exn) : M float A := λ w, (Raise e, w).

(** [try: c  except Exception as e: h e]. *)
Definition try_except {float A} (c : M float A) (h : exn → M float A) : M float A :=
  λ w, match c w with
       | (Ok a, w') => (Ok a, w')
       | (Raise e, w') => if is_Exception e then h e w' else (Raise e, w')
       end.

(** Lift a result that was computed without touching the world. *)
Definition lift {float A} (r : result A) : M float A := λ w, (r, w).

(** [for x in xs: body x]. *)
Fixpoint for_each {float A} (body : A → M float unit) (xs : list A) : M float unit :=
  match xs with
  | [] => ret ()
  | x :: xs' => body x ;; for_each body xs'
  end.

(** [[body x for x in xs]]. *)
Fixpoint list_comp {float A B} (body : A → M float B) (xs : list A) : M float (list B) :=
  match xs with
  | [] => ret []
  | x :: xs' => y <- body x ;; ys <- list_comp body xs' ;; ret (y :: ys)
  end.

(** ** The data model *)

(** Modelled from the spec: the response records of
    [caikit_embeddings.data_model], which the module imports and which are
    plain value records (spec section 3): a vector is an ordered sequence of
    floats, a batch an ordered sequence of vectors, a score list an ordered
    sequence of floats, a rerank result an ordered sequence of (index,
    score, optional original document, optional text). *)
Record Vector1D (float : Type) : Type := mkVector1D {
  Vector1D_data : list float
}.

Arguments mkVector1D {float} _.
Arguments Vector1D_data {float} _.

Record ListOfVector1D (float : Type) : Type := mkListOfVector1D {
  ListOfVector1D_results : list (Vector1D float)
}.

Arguments mkListOfVector1D {float} _.
Arguments ListOfVector1D_results {float} _.

Record SentenceScores (float : Type) : Type := mkSentenceScores {
  SentenceScores_scores : list float
}.

Arguments mkSentenceScores {float} _.
Arguments SentenceScores_scores {float} _.

Record SentenceListScores (float : Type) : Type := mkSentenceListScores {
  SentenceListScores_results : list (SentenceScores float)
}.

Arguments mkSentenceListScores {float} _.
Arguments SentenceListScores_results {float} _.

Record RerankScore (float : Type) : Type := mkRerankScore {
  RerankScore_document : option (pyval float);
  RerankScore_index : Z;
  RerankScore_score : float;
  RerankScore_text : option (pyval float)
}.

Arguments mkRerankScore {float} _ _ _ _.
Arguments RerankScore_document {float} _.
Arguments RerankScore_index {float} _.
Arguments RerankScore_score {float} _.
Arguments RerankScore_text {float} _.

Record RerankQueryResult (float : Type) : Type := mkRerankQueryResult {
  RerankQueryResult_query : option (pyval float);
  RerankQueryResult_scores : list (RerankScore float)
}.

Arguments mkRerankQueryResult {float} _ _.
Arguments RerankQueryResult_query {float} _.
Arguments RerankQueryResult_scores {float} _.

Record RerankPrediction (float : Type) : Type := mkRerankPrediction {
  RerankPrediction_results : list (RerankQueryResult float)
}.

Arguments mkRerankPrediction {float} _.
Arguments RerankPrediction_results {float} _.

(** The arrays handed to [cos_sim]: [encode] returns a 1-D array for a
    single text and a 2-D array (one row per text) for a batch. *)
Inductive tensor (float : Type) : Type :=
| T1 (v : list float)
| T2 (rows : list (list float)).

Arguments T1 {float} v.
Arguments T2 {float} rows.

(** The config record [ModuleConfig.load] returns: the entries of
    [config.yml] and the [model_path] attribute it adds. *)
Record ModuleConfig (float : Type) : Type := mkModuleConfig {
  config_model_path : string;
  config_entries : gmap string (pyval float)
}.

Arguments mkModuleConfig {float} _ _.
Arguments config_model_path {float} _.
Arguments config_entries {float} _.

(** The [backend] handed to [torch.compile]. *)
Inductive backend : Type :=
| backend_ipex
| backend_mps
| backend_inductor.

(** ** [os.path] and [str] helpers *)

(** Python text is held as its UTF-8 encoding, one [ascii] per byte. *)

(** The UTF-8 encoding of the code point [cp]. *)
Definition utf8_encode (cp : N) : string :=
  let byte (n : N) : ascii := ascii_of_N n in
  if N.ltb cp 0x80 then
    String (byte cp) EmptyString
  else if N.ltb cp 0x800 then
    String (byte (0xC0 + cp / 0x40)%N)
      (String (byte (0x80 + cp mod 0x40)%N) EmptyString)
  else if N.ltb cp 0x10000 then
    String (byte (0xE0 + cp / 0x1000)%N)
      (String (byte (0x80 + (cp / 0x40) mod 0x40)%N)
         (String (byte (0x80 + cp mod 0x40)%N) EmptyString))
  else
    String (byte (0xF0 + cp / 0x40000)%N)
      (String (byte (0x80 + (cp / 0x1000) mod 0x40)%N)
         (String (byte (0x80 + (cp / 0x40) mod 0x40)%N)
            (String (byte (0x80 + cp mod 0x40)%N) EmptyString))).

(** A continuation byte, [10xxxxxx]. *)
Definition is_continuation (c : ascii) : bool :=
  let n := N_of_ascii c in N.leb 0x80 n && N.ltb n 0xC0.

(** The characters of a text, each as its encoding: a byte and the
    continuation bytes that follow it. *)
Fixpoint characters (s : string) : list string :=
  match s with
  | EmptyString => []
  | String c s' =>
      match characters s' with
      | String c' ch :: chs =>
          if is_continuation c' then String c (String c' ch) :: chs
          else String c EmptyString :: String c' ch :: chs
      | chs => String c EmptyString :: chs
      end
  end.

(** The code points on which [str.isspace] holds, which are the ones
    [str.strip()] removes: the ASCII controls [\t \n \v \f \r] and
    [0x1c..0x1f], the space, and the Unicode line, paragraph and space
    separators. *)
Definition whitespace : list N :=
  [0x9; 0xA; 0xB; 0xC; 0xD; 0x1C; 0x1D; 0x1E; 0x1F; 0x20; 0x85; 0xA0; 0x1680;
   0x2000; 0x2001; 0x2002; 0x2003; 0x2004; 0x2005; 0x2006; 0x2007; 0x2008;
   0x2009; 0x200A; 0x2028; 0x2029; 0x202F; 0x205F; 0x3000]%N.

Definition isspace (ch : string) : bool :=
  bool_decide (ch ∈ utf8_encode <$> whitespace).

(** [lstrip] on the characters of a text. *)
Fixpoint lstrip (chs : list string) : list string :=
  match chs with
  | ch :: chs' => if isspace ch then lstrip chs' else chs
  | [] => []
  end.

(** [rstrip] on the characters of a text. *)
Definition rstrip (chs : list string) : list string :=
  reverse (lstrip (reverse chs)).

(** [str.strip()]. *)
Definition strip (s : string) : string :=
  foldr append EmptyString (rstrip (lstrip (characters s))).

Definition startswith_slash (s : string) : bool :=
  match s with
  | String "/" _ => true
  | _ => false
  end.

Fixpoint endswith_slash (s : string) : bool :=
  match s with
  | String c EmptyString => bool_decide (c = "/"%char)
  | String _ s' => endswith_slash s'
  | EmptyString => false
  end.

(** [posixpath.join(a, b)]. *)
Definition os_path_join (a b : string) : string :=
  if startswith_slash b then b
  else if bool_decide (a = "") || endswith_slash a then a +:+ b
  else a +:+ "/" +:+ b.


(** ** The flags set when the module is imported

    The module-level code of [embedding.py]: it sets
    [TOKENIZERS_PARALLELISM] when the environment has none, and reads the
    flags [IPEX_OPTIMIZE], [USE_XPU], [USE_MPS] and [PT2_COMPILE] once. *)

(** For testing env vars. *)
Definition FALSY : list string := ["no"; "n"; "false"; "0"; "f"; "off"].

(** [str.lower()] as far as membership in [FALSY] goes: the ASCII letters
    are lowered and every other byte is kept.  The only characters outside
    ASCII that [str.lower()] turns into ASCII letters are U+0130 and U+212A,
    which give i and k, letters of no [FALSY] word. *)
Definition lower_char (c : ascii) : ascii :=
  let n := nat_of_ascii c in
  if (65 <=? n)%nat && (n <=? 90)%nat then ascii_of_nat (n + 32) else c.

Fixpoint lower (s : string) : string :=
  match s with
  | String c s' => String (lower_char c) (lower s')
  | EmptyString => EmptyString
  end.

(** [getenv(name, "false").lower() not in FALSY]. *)
Definition env_flag (environ : gmap string string) (name : string) : bool :=
  negb (bool_decide (lower (default "false" (environ !! name)) ∈ FALSY)).

Record Flags : Type := mkFlags {
  flag_IPEX_OPTIMIZE : bool;
  flag_USE_XPU : bool;
  flag_USE_MPS : bool;
  flag_PT2_COMPILE : bool
}.

(** What importing the module leaves behind: the environment, the flags and
    the warnings it logged. *)
Record Imported : Type := mkImported {
  imported_environ : gmap string string;
  imported_flags : Flags;
  imported_warnings : list string
}.

Definition tokenizers_parallelism : string := "TOKENIZERS_PARALLELISM".

Definition ipex_import_warning (ie : exn) : string :=
  "IPEX_OPTIMIZE enabled in env, but skipping ipex.optimize() because "
  +:+ "import intel_extension_for_pytorch failed with exception: " +:+ exn_str ie.

(** The environment after the module has made sure
    [TOKENIZERS_PARALLELISM] is set. *)
Definition environ_after_import (environ : gmap string string) : gmap string string :=
  match environ !! tokenizers_parallelism with
  | None => <[tokenizers_parallelism := "true"]> environ
  | Some _ => environ
  end.

(** The module-level statements, in order.  [import_ipex] is the outcome
    of [importlib.import_module("intel_extension_for_pytorch")], consulted
    only when [IPEX_OPTIMIZE] is on; [mps_is_built] and [mps_is_available]
    are torch's answers. *)
Definition import_module (environ : gmap string string) (import_ipex : result unit)
    (mps_is_built mps_is_available : bool) : result Imported :=
  (* Avoid a warning by explicitly setting TOKENIZERS_PARALLELISM if not already set. *)
  let environ := environ_after_import environ in
  (* When IPEX_OPTIMIZE is not false, attempt to import the library and use it. *)
  let IPEX_OPTIMIZE := env_flag environ "IPEX_OPTIMIZE" in
  let imported : result (bool * list string) :=
    if IPEX_OPTIMIZE then
      match import_ipex with
      | Ok _ => Ok (IPEX_OPTIMIZE, [])
      | Raise ie =>
          (* We don't require the module so catch, disable, log, proceed. *)
          if is_Exception ie then Ok (false, [ipex_import_warning ie]) else Raise ie
      end
    else Ok (IPEX_OPTIMIZE, []) in
  match imported with
  | Raise e => Raise e
  | Ok (IPEX_OPTIMIZE, warnings) =>
      let USE_XPU :=
        if IPEX_OPTIMIZE
        then env_flag environ "USE_XPU"  (* "xpu" (IPEX on GPU instead of IPEX on CPU) *)
        else false  (* We don't USE_XPU when we don't IPEX_OPTIMIZE *) in
      let USE_MPS :=
        if IPEX_OPTIMIZE
        then false  (* Don't use "mps" with IPEX. *)
        else env_flag environ "USE_MPS" && mps_is_built && mps_is_available in
      (* torch.compile won't work everywhere, but when set to try we'll try it *)
      let PT2_COMPILE := env_flag environ "PT2_COMPILE" in
      Ok (mkImported environ (mkFlags IPEX_OPTIMIZE USE_XPU USE_MPS PT2_COMPILE) warnings)
  end.

(** ** The libraries

    What the module calls into, as an interface: the float type of Python
    and torch; sentence-transformers ([SentenceTransformer], its tokenizer,
    [encode], [cos_sim], [dot_score], [normalize_embeddings]); torch and
    ipex; caikit.core's config reader and writers; [os.path.abspath]; and
    the process-wide flags the module sets once when it is imported. *)
Class Libraries : Type := {
  float : Type;
  (** [x == 0.0] and [x <= y] on floats. *)
  float_is_zero : float → bool;
  float_leb : float → float → bool;

  (** A [SentenceTransformer]. *)
  Model : Type;
  (** [model[0].tokenizer(text, ...).input_ids]; the tokenizer may raise. *)
  tokenizer : Model → pyval float → result (list Z);
  (** [model.max_seq_length]. *)
  max_seq_length : Model → Z;
  (** The embedding function, text to vector, that [model.encode] applies
      to a single text or to every text of a batch. *)
  embed : Model → pyval float → list float;
  (** Cosine similarity and dot product of two vectors, and the L2
      normalisation of a vector: the entries of [cos_sim], [dot_score] and
      the rows of [normalize_embeddings]. *)
  cos : list float → list float → float;
  dot : list float → list float → float;
  normalize : list float → list float;

  (** The process-wide flags and [torch.cuda.is_available()]. *)
  IPEX_OPTIMIZE : bool;
  USE_XPU : bool;
  USE_MPS : bool;
  PT2_COMPILE : bool;
  cuda_is_available : bool;

  (** [ModuleConfig.load(model_path)] of caikit.core, reading the file
      system. *)
  ModuleConfig_load : string → gmap string node → result (ModuleConfig float);
  (** [SentenceTransformer(model_name_or_path=..., device=...)]. *)
  SentenceTransformer_new : string → option string → gmap string node → result Model;
  (** [model.to(device(gpu))] and [model.eval()]. *)
  model_to : Model → string → result Model;
  model_eval : Model → Model;
  (** [ipex.optimize(model)] and [torch.compile(model, backend=..., mode=...)]. *)
  ipex_optimize : Model → result Model;
  torch_compile : Model → backend → string → result Model;
  (** [ModuleSaver(module=self, model_path=...).config], [model.save(path,
      create_model_card=True)] and [ModuleConfig(config).save(path)]; the
      two writers return the file system they leave behind. *)
  ModuleSaver_config : string → gmap string (pyval float);
  model_save : Model → string → gmap string node → result unit * gmap string node;
  ModuleConfig_save :
    gmap string (pyval float) → string → gmap string node → result unit * gmap string node;
  (** [os.path.abspath] under the current working directory. *)
  abspath : string → string
}.

(** The handle: [self.model]. *)
Record TextEmbedding {L : Libraries} : Type := mkTextEmbedding {
  model : Model
}.

Arguments mkTextEmbedding {L} model.

(** ** A small instance of the libraries

    Used to run the module on concrete requests: floats are integers, the
    tokenizer produces one token per character of a string and rejects
    anything else, the model accepts four tokens, the embedding of a string
    is its length, the config record of a directory is kept in its
    [config.yml] as the artifacts path itself, and paths are absolute
    already.  [ipex] and [pt2] are the flags [IPEX_OPTIMIZE] and
    [PT2_COMPILE]; [optimizers_work] tells whether [ipex.optimize] and
    [torch.compile] succeed. *)
Module Sample.

Definition chars (s : string) : list Z :=
  (λ c, Z.of_nat (nat_of_ascii c)) <$> list_ascii_of_string s.

Definition char_tokenizer (m : unit) (v : pyval Z) : result (list Z) :=
  match v with
  | PStr s => Ok (chars s)
  | _ => Raise (ValueError "" "text input must be of type str")
  end.

Definition length_embed (m : unit) (v : pyval Z) : list Z :=
  match v with
  | PStr s => [Z.of_nat (String.length s)]
  | _ => [0]
  end.

Definition dot_product (a b : list Z) : Z := foldr Z.add 0 (zip_with Z.mul a b).

Definition read_config (model_path : string) (f : gmap string node)
    : result (ModuleConfig Z) :=
  match f !! (model_path +:+ "/config.yml") with
  | Some (File "") => Ok (mkModuleConfig model_path ∅)
  | Some (File a) => Ok (mkModuleConfig model_path {["artifacts_path" := PStr a]})
  | _ => Raise (FileNotFoundError "" model_path)
  end.

Definition optimizer (works : bool) (name : string) (m : unit) : result unit :=
  if works then Ok m else Raise (RuntimeError name).

Definition libraries (ipex pt2 optimizers_work : bool) : Libraries := {|
  float := Z;
  float_is_zero := Z.eqb 0;
  float_leb := Z.leb;
  Model := unit;
  tokenizer := char_tokenizer;
  max_seq_length := λ _, 4;
  embed := length_embed;
  cos := dot_product;
  dot := dot_product;
  normalize := λ v, v;
  IPEX_OPTIMIZE := ipex;
  USE_XPU := false;
  USE_MPS := false;
  PT2_COMPILE := pt2;
  cuda_is_available := false;
  ModuleConfig_load := read_config;
  SentenceTransformer_new := λ _ _ _, Ok ();
  model_to := λ m _, Ok m;
  model_eval := λ m, m;
  ipex_optimize := optimizer optimizers_work "ipex.optimize";
  torch_compile := λ m _ _, optimizer optimizers_work "torch.compile" m;
  ModuleSaver_config := λ _, ∅;
  model_save := λ _ p f, (Ok (), <[p := Dir]> f);
  ModuleConfig_save := λ _ p f, (Ok (), <[p +:+ "/config.yml" := File "artifacts"]> f);
  abspath := λ p, p
|}.

(** An instance with [PT2_COMPILE] on whose compiler is interrupted and
    whose model writer fails without writing. *)
Definition faulty : Libraries := {|
  float := Z;
  float_is_zero := Z.eqb 0;
  float_leb := Z.leb;
  Model := unit;
  tokenizer := char_tokenizer;
  max_seq_length := λ _, 4;
  embed := length_embed;
  cos := dot_product;
  dot := dot_product;
  normalize := λ v, v;
  IPEX_OPTIMIZE := false;
  USE_XPU := false;
  USE_MPS := false;
  PT2_COMPILE := true;
  cuda_is_available := false;
  ModuleConfig_load := read_config;
  SentenceTransformer_new := λ _ _ _, Ok ();
  model_to := λ m _, Ok m;
  model_eval := λ m, m;
  ipex_optimize := λ m, Ok m;
  torch_compile := λ _ _ _, Raise KeyboardInterrupt;
  ModuleSaver_config := λ _, ∅;
  model_save := λ _ _ f, (Raise (RuntimeError "model.save"), f);
  ModuleConfig_save := λ _ p f, (Ok (), <[p +:+ "/config.yml" := File "artifacts"]> f);
  abspath := λ p, p
|}.

(** An instance whose scores are IEEE floats in miniature: an integer or
    NaN ([None]), with [<=] false whenever a side is NaN.  Its embeddings
    are NaN, and so are its scores. *)
Definition nan_leb (x y : option Z) : bool :=
  match x, y with
  | Some a, Some b => a <=? b
  | _, _ => false
  end.

Definition nan_scores : Libraries := {|
  float := option Z;
  float_is_zero := λ x, bool_decide (x = Some 0);
  float_leb := nan_leb;
  Model := unit;
  tokenizer := λ _ v, match v with
                      | PStr s => Ok (chars s)
                      | _ => Raise (ValueError "" "text input must be of type str")
                      end;
  max_seq_length := λ _, 4;
  embed := λ _ _, [None];
  cos := λ _ _, None;
  dot := λ _ _, None;
  normalize := λ v, v;
  IPEX_OPTIMIZE := false;
  USE_XPU := false;
  USE_MPS := false;
  PT2_COMPILE := false;
  cuda_is_available := false;
  ModuleConfig_load := λ p _, Raise (FileNotFoundError "" p);
  SentenceTransformer_new := λ _ _ _, Ok ();
  model_to := λ m _, Ok m;
  model_eval := λ m, m;
  ipex_optimize := λ m, Ok m;
  torch_compile := λ m _ _, Ok m;
  ModuleSaver_config := λ _, ∅;
  model_save := λ _ p f, (Ok (), <[p := Dir]> f);
  ModuleConfig_save := λ _ p f, (Ok (), <[p +:+ "/config.yml" := File "artifacts"]> f);
  abspath := λ p, p
|}.

Definition nan_self : @TextEmbedding nan_scores := @mkTextEmbedding nan_scores tt.

(** A store for that instance: the query [["ab"]] at 1 and the documents
    [[{"text": "abc"}; {"_text": "a"}]] at 2. *)
Definition nan_world : World (option Z) :=
  mkWorld
    (<[1%positive := OList [PStr "ab"]]>
     (<[2%positive := OList [PRef 3%positive; PRef 4%positive]]>
      (<[3%positive := ODict {["text" := PStr "abc"]}]>
       (<[4%positive := ODict {["_text" := PStr "a"]}]> ∅))))
    ∅ [] [].


(** An environment that asks for ipex on xpu, and for mps. *)
Definition environ : gmap string string :=
  <["IPEX_OPTIMIZE" := "TRUE"]> (<["USE_XPU" := "1"]> (<["USE_MPS" := "yes"]> ∅)).

(** The instance with both optimizations off, and a handle on its model. *)
Definition base : Libraries := libraries false false true.

Definition self : @TextEmbedding base := @mkTextEmbedding base tt.

(** A store with the queries [["ab"; "abcdefgh"]] at 1, the documents
    [[{"text": "abc"}; {"_text": "a"}]] at 2, an empty list at 5, and a file
    system with a model directory [/m] whose artifacts are missing, and a
    complete one [/ok]. *)
Definition world : World Z :=
  mkWorld
    (<[1%positive := OList [PStr "ab"; PStr "abcdefgh"]]>
     (<[2%positive := OList [PRef 3%positive; PRef 4%positive]]>
      (<[3%positive := ODict {["text" := PStr "abc"]}]>
       (<[4%positive := ODict {["_text" := PStr "a"]}]>
        (<[5%positive := OList []]>
         (<[6%positive := OList [PStr "ab"; PStr "a"]]> ∅))))))
    (<["/m" := Dir]>
     (<["/m/config.yml" := File "artifacts"]>
      (<["/none" := Dir]>
       (<["/none/config.yml" := File ""]>
        (<["/ok" := Dir]>
         (<["/ok/config.yml" := File "artifacts"]>
          (<["/ok/artifacts" := Dir]> ∅)))))))
    [] [].

(** The sample world with three more objects, the one-query list [["ab"]]
    at 7, a documents list whose second entry is a string at 8 and a queries
    list that ends in a number at 9, and with a model directory [/file]
    whose artifacts path is a regular file. *)
Definition world_more : World Z :=
  mkWorld
    (<[7%positive := OList [PStr "ab"]]>
     (<[8%positive := OList [PRef 3%positive; PStr "abc"]]>
      (<[9%positive := OList [PStr "ab"; PInt 5]]> (heap world))))
    (<["/file" := Dir]>
     (<["/file/config.yml" := File "artifacts"]>
      (<["/file/artifacts" := File "weights"]> (fs world))))
    [] [].

End Sample.

(** ** The module *)

Section TextEmbedding.

Context {L : Libraries}.

Abbreviation val := (pyval float).
Abbreviation Vec := (list float).
Abbreviation World := (World float).
Abbreviation M := (M float).

(** *** Object store primitives *)

(** The world with another object store. *)
Definition with_heap (h : gmap loc (obj float)) (w : World) : World :=
  mkWorld h (fs w) (log w) (encode_calls w).

(** [bool(v)]. *)
Definition truthy_in (h : gmap loc (obj float)) (v : val) : bool :=
  match v with
  | PNone => false
  | PBool b => b
  | PInt z => negb (z =? 0)
  | PFloat f => negb (float_is_zero f)
  | PStr s => negb (bool_decide (s = ""))
  | PRef l =>
      match h !! l with
      | Some (ODict d) => negb (bool_decide (d = ∅))
      | Some (OList vs) => negb (bool_decide (vs = []))
      | None => true
      end
  end.

Definition truthy (v : val) : M bool := λ w, (Ok (truthy_in (heap w) v), w).

(** A new object. *)
Definition alloc (o : obj float) : M val :=
  λ w, let l := fresh (dom (heap w)) in
       (Ok (PRef l), with_heap (<[l := o]> (heap w)) w).

(** Overwrite the object at [l]. *)
Definition store (l : loc) (o : obj float) : M unit :=
  λ w, (Ok (), with_heap (<[l := o]> (heap w)) w).

(** [isinstance(v, list)] and [isinstance(v, str)]. *)
Definition is_list (v : val) : M bool :=
  λ w, (Ok match v with
           | PRef l => match heap w !! l with Some (OList _) => true | _ => false end
           | _ => false
           end, w).

Definition is_str (v : val) : bool :=
  match v with
  | PStr _ => true
  | _ => false
  end.

(** The elements of a list object. *)
Definition list_elems (v : val) : M (list val) :=
  λ w, (match v with
        | PRef l => match heap w !! l with
                    | Some (OList vs) => Ok vs
                    | _ => Raise (TypeError "object is not a list")
                    end
        | _ => Raise (TypeError "object is not a list")
        end, w).

(** The entries of a dict object. *)
Definition dict_entries (v : val) (attr : string) : M (gmap string val) :=
  λ w, (match v with
        | PRef l => match heap w !! l with
                    | Some (ODict d) => Ok d
                    | _ => Raise (AttributeError attr)
                    end
        | _ => Raise (AttributeError attr)
        end, w).

(** [srd.get(key, dflt)]. *)
Definition dict_get (srd : val) (key : string) (dflt : val) : M val :=
  d <- dict_entries srd "get" ;; ret (default dflt (d !! key)).

(** [x[key] = v]. *)
Definition dict_setitem (x : val) (key : string) (v : val) : M unit :=
  d <- dict_entries x "__setitem__" ;;
  match x with
  | PRef l => store l (ODict (<[key := v]> d))
  | _ => raise (AttributeError "__setitem__")
  end.

(** [x.pop(key)]. *)
Definition dict_pop (x : val) (key : string) : M val :=
  d <- dict_entries x "pop" ;;
  match d !! key, x with
  | Some v, PRef l => store l (ODict (delete key d)) ;; ret v
  | Some _, _ => raise (AttributeError "pop")
  | None, _ => raise (KeyError key)
  end.

(** [xs[i]], with Python's negative indices. *)
Definition list_getitem (xs : list val) (i : val) : M val :=
  match i with
  | PInt z =>
      let n := Z.of_nat (length xs) in
      let k := if z <? 0 then z + n else z in
      if (0 <=? k) && (k <? n) then
        match xs !! Z.to_nat k with
        | Some v => ret v
        | None => raise IndexError
        end
      else raise IndexError
  | _ => raise (TypeError "list indices must be integers")
  end.

(** [enumerate(xs)]. *)
Definition enumerate {A} (xs : list A) : list (nat * A) :=
  zip (seq 0 (length xs)) xs.

(** *** [caikit.core]'s error handler

    [error.type_check] raises [TypeError] when the variable is not of the
    expected type, [error.value_check] raises [ValueError] when the
    condition is falsy, [error.dir_check] raises [FileNotFoundError] when
    the path does not exist and [NotADirectoryError] when it is not a
    directory. *)
Definition type_check (log_code : string) (ok : bool) : M unit :=
  if ok then ret () else raise (TypeError log_code).

Definition value_check (log_code : string) (condition : bool) (msg : string) : M unit :=
  if condition then ret () else raise (ValueError log_code msg).

Definition dir_check (log_code : string) (dir_path : string) : M unit :=
  λ w, match fs w !! dir_path with
       | None => (Raise (FileNotFoundError log_code dir_path), w)
       | Some (File _) => (Raise (NotADirectoryError log_code dir_path), w)
       | Some Dir => (Ok (), w)
       end.

(** [logger.warn(msg)]. *)
Definition logger_warn (msg : string) : M unit :=
  λ w, (Ok (), mkWorld (heap w) (fs w) (log w ++ [msg]) (encode_calls w)).

(** *** [model.encode], [cos_sim], [semantic_search] *)

(** [self.model.encode(text)] on one text: a 1-D array. *)
Definition encode_one (self : TextEmbedding) (text : val) : M Vec :=
  λ w, (Ok (embed (model self) text),
        mkWorld (heap w) (fs w) (log w) (encode_calls w ++ [EncodeOne text])).

(** [self.model.encode(texts)] on a batch: one row per text, in order. *)
Definition encode_batch (self : TextEmbedding) (texts : list val) : M (list Vec) :=
  λ w, (Ok (embed (model self) <$> texts),
        mkWorld (heap w) (fs w) (log w) (encode_calls w ++ [EncodeBatch texts])).

(** The rows of a tensor; a 1-D tensor is unsqueezed to one row. *)
Definition rows (t : tensor float) : list Vec :=
  match t with
  | T1 v => [v]
  | T2 r => r
  end.

(** [cos_sim(a, b).tolist()]: [res[i][j] = cos(a[i], b[j])]. *)
Definition cos_sim (a b : tensor float) : list (list float) :=
  (λ x, cos x <$> rows b) <$> rows a.

(** [normalize_embeddings(t)], row by row. *)
Definition normalize_embeddings (t : list Vec) : list Vec :=
  normalize <$> t.

(** Insert a hit in a list sorted by decreasing score. *)
Fixpoint insert_desc (x : nat * float) (l : list (nat * float)) : list (nat * float) :=
  match l with
  | [] => [x]
  | y :: l' => if float_leb x.2 y.2 then y :: insert_desc x l' else x :: l
  end.

Definition sort_desc (l : list (nat * float)) : list (nat * float) :=
  foldr insert_desc [] l.

(** The [top_k] best corpus entries for one query, by decreasing score. *)
Definition top_hits (q : Vec) (corpus : list Vec) (top_k : Z) : list (nat * float) :=
  take (Z.to_nat top_k) (sort_desc (imap (λ i d, (i, dot q d)) corpus)).

(** The dict [{"corpus_id": i, "score": s}] of a hit. *)
Definition hit_dict (hit : nat * float) : gmap string val :=
  <["corpus_id" := PInt (Z.of_nat hit.1)]> (<["score" := PFloat hit.2]> ∅).

(** [semantic_search(query_embeddings, corpus_embeddings, top_k=top_k,
    score_function=dot_score)], by its documented contract: for every query
    a list of new dicts [{"corpus_id": i, "score": s}], the [top_k] best
    corpus entries by decreasing score. *)
Definition semantic_search (query_embeddings corpus_embeddings : list Vec)
    (top_k : Z) : M (list (list val)) :=
  list_comp (λ q,
    list_comp (λ hit, alloc (ODict (hit_dict hit)))
              (top_hits q corpus_embeddings top_k))
    query_embeddings.

(** The keyword arguments [RerankScore] accepts. *)
Definition RerankScore_fields : gset string :=
  {["index"; "score"; "document"; "text"]}.

(** Modelled from the spec: the constructor [RerankScore] of
    [caikit_embeddings.data_model] called with the entries of the dict [x]
    as keyword arguments: the index, the score and the optional document and
    text. *)
Definition RerankScore_of_dict (x : val) : M (RerankScore float) :=
  d <- dict_entries x "keys" ;;
  match d !! "index", d !! "score" with
  | Some (PInt i), Some (PFloat s) =>
      if bool_decide (dom d ⊆ RerankScore_fields)
      then ret (mkRerankScore (d !! "document") i s (d !! "text"))
      else raise (TypeError "unexpected keyword argument")
  | _, _ => raise (TypeError "missing or ill-typed field")
  end.

(** *** The truncation guard *)

Definition truncation_msg (tokens max_tokens : Z) : string :=
  "Token sequence length is longer than the specified maximum sequence length"
  +:+ " for this model (" +:+ pretty tokens +:+ " > " +:+ pretty max_tokens +:+ ").".

Definition _prevent_truncation (self : TextEmbedding) (text : val) : M unit :=
  input_ids <- lift (tokenizer (model self) text) ;;
  let tokens := Z.of_nat (length input_ids) in
  let max_tokens := max_seq_length (model self) in
  value_check "<NLP08391926E>" (tokens <=? max_tokens)
              (truncation_msg tokens max_tokens).

(** *** Embeddings *)

(** Modelled from the spec: [Vector1D.from_embeddings] of
    [caikit_embeddings.data_model], which wraps the floats of a 1-D array
    in a vector record. *)
Definition Vector1D_from_embeddings (e : Vec) : Vector1D float := mkVector1D e.

Definition run_embedding (self : TextEmbedding) (text : val) : M (Vector1D float) :=
  type_check "<NLP27491611E>" (is_str text) ;;
  _prevent_truncation self text ;;
  e <- encode_one self text ;;
  ret (Vector1D_from_embeddings e).

(** The argument of [run_embeddings]: a bare string or a list of strings. *)
Inductive texts_arg : Type :=
| OneText (s : string)
| Texts (l : list string).

Definition run_embeddings (self : TextEmbedding) (texts : texts_arg)
    : M (ListOfVector1D float) :=
  let texts := match texts with
               | OneText s => [s]   (* encode allows str, but the result would lack a dimension *)
               | Texts l => l
               end in
  for_each (λ text, _prevent_truncation self (PStr text)) texts ;;
  embeddings <- encode_batch self (PStr <$> texts) ;;
  let results := Vector1D_from_embeddings <$> embeddings in
  ret (mkListOfVector1D results).

(** *** Sentence similarity *)

(** [res.tolist()[0]]. *)
Definition first_row (res : list (list float)) : M (list float) :=
  match res with
  | r :: _ => ret r
  | [] => raise IndexError
  end.

Definition run_sentence_similarity (self : TextEmbedding)
    (source_sentence : string) (sentences : list string) : M (SentenceScores float) :=
  _prevent_truncation self (PStr source_sentence) ;;
  for_each (λ s, _prevent_truncation self (PStr s)) sentences ;;
  source_embedding <- encode_one self (PStr source_sentence) ;;
  embeddings <- encode_batch self (PStr <$> sentences) ;;
  let res := cos_sim (T1 source_embedding) (T2 embeddings) in
  r <- first_row res ;;
  ret (mkSentenceScores r).

Definition run_sentence_similarities (self : TextEmbedding)
    (source_sentences sentences : list string) : M (SentenceListScores float) :=
  for_each (λ s, _prevent_truncation self (PStr s)) source_sentences ;;
  for_each (λ s, _prevent_truncation self (PStr s)) sentences ;;
  source_embedding <- encode_batch self (PStr <$> source_sentences) ;;
  embeddings <- encode_batch self (PStr <$> sentences) ;;
  let res := cos_sim (T2 source_embedding) (T2 embeddings) in
  let float_list_list := res in
  ret (mkSentenceListScores (mkSentenceScores <$> float_list_list)).

(** *** Rerank *)

(** Using input document dicts so get "text" else "_text" else default
    to "": [srd.get("text") or srd.get("_text", "")]. *)
Definition get_text (srd : val) : M val :=
  t <- dict_get srd "text" PNone ;;
  b <- truthy t ;;
  if b then ret t else dict_get srd "_text" (PStr "").

(** The body of the fix-up loop for one result dict [x]. *)
Definition fixup (documents : list val) (return_documents return_text : bool)
    (x : val) : M unit :=
  (* Renaming corpus_id to index *)
  corpus_id <- dict_pop x "corpus_id" ;;
  dict_setitem x "index" corpus_id ;;
  (* Optionally adding the original document and/or just the text that was used *)
  (if return_documents
   then d <- list_getitem documents corpus_id ;; dict_setitem x "document" d
   else ret ()) ;;
  (if return_text
   then d <- list_getitem documents corpus_id ;; t <- get_text d ;; dict_setitem x "text" t
   else ret ()).

Definition add_query (queries : list val) (return_queries : bool) (q : nat)
    : M (option val) :=
  if return_queries
  then v <- list_getitem queries (PInt (Z.of_nat q)) ;; ret (Some v)
  else ret None.

Definition run_rerank_queries (self : TextEmbedding) (queries documents : val)
    (top_n : option Z) (return_documents return_queries return_text : bool)
    : M (RerankPrediction float) :=
  ql <- is_list queries ;;
  dl <- is_list documents ;;
  type_check "<NLP09038249E>" (ql && dl) ;;
  qs <- list_elems queries ;;
  ds <- list_elems documents ;;
  if (Z.of_nat (length qs) <? 1) || (Z.of_nat (length ds) <? 1)
  then ret (mkRerankPrediction [])
  else
    let top_n := match top_n with
                 | None => Z.of_nat (length ds)
                 | Some n => if n <? 1 then Z.of_nat (length ds) else n
                 end in
    doc_texts <- list_comp get_text ds ;;
    for_each (_prevent_truncation self) doc_texts ;;
    for_each (_prevent_truncation self) qs ;;
    doc_embeddings <- encode_batch self doc_texts ;;
    let doc_embeddings := normalize_embeddings doc_embeddings in
    query_embeddings <- encode_batch self qs ;;
    let query_embeddings := normalize_embeddings query_embeddings in
    res <- semantic_search query_embeddings doc_embeddings top_n ;;
    (* Fixup result dicts *)
    for_each (λ r, for_each (fixup ds return_documents return_text) r) res ;;
    results <- list_comp (λ qr : nat * list val,
                 query <- add_query qs return_queries qr.1 ;;
                 scores <- list_comp RerankScore_of_dict qr.2 ;;
                 ret (mkRerankQueryResult query scores))
               (enumerate res) ;;
    ret (mkRerankPrediction results).

Definition run_rerank_query (self : TextEmbedding) (query documents : val)
    (top_n : option Z) (return_documents return_query return_text : bool)
    : M (RerankQueryResult float) :=
  type_check "<NLP05323654E>" (is_str query) ;;
  queries <- alloc (OList [query]) ;;
  prediction <- run_rerank_queries self queries documents top_n
                 return_documents return_query return_text ;;
  let results := RerankPrediction_results prediction in
  match results with
  | r :: _ => ret r
  | [] => ret (mkRerankQueryResult (if return_query then Some query else None) [])
  end.

(** *** Load, optimize, save *)

Definition _ARTIFACTS_PATH_KEY : string := "artifacts_path".
Definition _ARTIFACTS_PATH_DEFAULT : string := "artifacts".

(** Run a file-system reader or writer of the libraries. *)
Definition fs_read {A} (f : gmap string node → result A) : M A :=
  λ w, (f (fs w), w).

Definition fs_write (f : gmap string node → result unit * gmap string node) : M unit :=
  λ w, let '(r, fs') := f (fs w) in
       (r, mkWorld (heap w) fs' (log w) (encode_calls w)).

(** The proper ancestors of an absolute path, outermost first. *)
Fixpoint dir_prefixes (acc s : string) : list string :=
  match s with
  | String c s' =>
      (if bool_decide (c = "/"%char) && negb (bool_decide (acc = ""))
       then [acc] else [])
      ++ dir_prefixes (acc +:+ String c EmptyString) s'
  | EmptyString => []
  end.

Definition is_file (n : option node) : bool :=
  match n with
  | Some (File _) => true
  | _ => false
  end.

Definition mkdir_missing (p : string) (f : gmap string node) : gmap string node :=
  match f !! p with
  | None => <[p := Dir]> f
  | Some _ => f
  end.

(** [os.makedirs(name, exist_ok=False)]: fails when [name] exists, else
    creates it with its missing ancestors. *)
Definition os_makedirs (name : string) : M unit :=
  λ w, match fs w !! name with
       | Some _ => (Raise (FileExistsError name), w)
       | None =>
           match filter (λ a, is_file (fs w !! a) = true) (dir_prefixes "" name) with
           | a :: _ => (Raise (NotADirectoryError "" a), w)
           | [] =>
               (Ok (),
                mkWorld (heap w)
                        (foldr mkdir_missing (fs w) (dir_prefixes "" name ++ [name]))
                        (log w) (encode_calls w))
           end
       end.

Definition compile_warning (e : exn) : string :=
  "PT2_COMPILE enabled in env, but continuing without torch.compile() "
  +:+ "because it failed with exception: " +:+ exn_str e.

Definition _optimize (model : Model) : M Model :=
  mb <- (if IPEX_OPTIMIZE
         then model <- lift (ipex_optimize model) ;; ret (model, backend_ipex)
         else if USE_MPS
         then ret (model, backend_mps)
         else ret (model, backend_inductor)  (* default backend *)) ;;
  let model := mb.1 in
  let backend := mb.2 in
  if PT2_COMPILE
  then try_except (lift (torch_compile model backend "max-autotune"))
         (* Not always supported (e.g. in a python version) so catch, log, proceed. *)
         (λ e, logger_warn (compile_warning e) ;; ret model)
  else ret model.

(** [cls(model)]: [__init__] stores the model and puts it in eval mode. *)
Definition cls (model : Model) : TextEmbedding :=
  mkTextEmbedding (model_eval model).

(** The part of [load] that resolves the artifacts and builds the model. *)
Definition load_model (model_path : string) : M Model :=
  config <- fs_read (ModuleConfig_load model_path) ;;
  let artifacts_path := default PNone (config_entries config !! _ARTIFACTS_PATH_KEY) in
  present <- truthy artifacts_path ;;
  value_check "<NLP07391618E>" present
              ("Model config missing '" +:+ _ARTIFACTS_PATH_KEY +:+ "'") ;;
  artifacts_path <- match artifacts_path with
                    | PStr a => ret (os_path_join (config_model_path config) a)
                    | _ => raise (TypeError "expected str, bytes or os.PathLike object")
                    end ;;
  dir_check "<NLP34197772E>" artifacts_path ;;
  let gpu := if USE_XPU then Some "xpu"
             else if USE_MPS then Some "mps"
             else if cuda_is_available then Some "cuda"
             else None in
  model <- fs_read (SentenceTransformer_new artifacts_path gpu) ;;
  match gpu with
  | Some d => lift (model_to model d)
  | None => ret model
  end.

Definition load (model_path : string) : M TextEmbedding :=
  model <- load_model model_path ;;
  model <- _optimize model ;;
  ret (cls model).

(** [bootstrap(model_name_or_path)]. *)
Definition bootstrap (model_name_or_path : string) : M TextEmbedding :=
  model <- fs_read (SentenceTransformer_new model_name_or_path None) ;;
  ret (cls model).

Definition save (self : TextEmbedding) (model_path : val) : M unit :=
  let model_config_path := model_path in  (* because the param name is misleading *)
  type_check "<NLP82314992E>" (is_str model_config_path) ;;
  match model_config_path with
  | PStr p =>
      value_check "<NLP40145207E>" (negb (bool_decide (strip p = "")))
                  ("model_path '" +:+ p +:+ "' is invalid") ;;
      (* No leading/trailing spaces sneaky weirdness *)
      let model_config_path := abspath (strip p) in
      os_makedirs model_config_path ;;
      let saver_config := ModuleSaver_config model_config_path in
      (* Get and update config (artifacts_path) *)
      let artifacts_path := default PNone (saver_config !! _ARTIFACTS_PATH_KEY) in
      configured <- truthy artifacts_path ;;
      let artifacts_path :=
        if configured then artifacts_path else PStr _ARTIFACTS_PATH_DEFAULT in
      let saver_config :=
        if configured then saver_config
        else <[_ARTIFACTS_PATH_KEY := PStr _ARTIFACTS_PATH_DEFAULT]> saver_config in
      (* Save the model *)
      artifacts_path <- match artifacts_path with
                        | PStr a => ret (abspath (os_path_join model_config_path a))
                        | _ => raise (TypeError "expected str, bytes or os.PathLike object")
                        end ;;
      fs_write (model_save (model self) artifacts_path) ;;
      (* Save the config *)
      fs_write (ModuleConfig_save saver_config model_config_path)
  | _ => raise (TypeError "<NLP82314992E>")
  end.

(** *** Vocabulary of the properties *)

(** The token count of a text, when the tokenizer accepts it. *)
Definition token_count (self : TextEmbedding) (text : val) : option Z :=
  match tokenizer (model self) text with
  | Ok input_ids => Some (Z.of_nat (length input_ids))
  | Raise _ => None
  end.

Definition tokenizable (self : TextEmbedding) (text : val) : bool :=
  bool_decide (is_Some (token_count self text)).

(** The text has a token count and it is at most / more than
    [max_seq_length]. *)
Definition within_limit (self : TextEmbedding) (text : val) : bool :=
  match token_count self text with
  | Some tokens => tokens <=? max_seq_length (model self)
  | None => false
  end.

Definition exceeds_limit (self : TextEmbedding) (text : val) : bool :=
  match token_count self text with
  | Some tokens => max_seq_length (model self) <? tokens
  | None => false
  end.

(** The outcome is the truncation guard's value-validation error. *)
Definition is_truncation_error {A} (r : result A) : Prop :=
  match r with
  | Raise (ValueError "<NLP08391926E>" _) => True
  | _ => False
  end.

(** The computation [c], run in [w], is rejected by the truncation guard
    before any call to the encoder. *)
Definition rejected {A} (c : M A) (w : World) : Prop :=
  is_truncation_error (c w).1 ∧ encode_calls (c w).2 = encode_calls w.

(** References to the objects at [locs]. *)
Definition refs (locs : list loc) : list val := PRef <$> locs.

(** [v] is a reference to a dict of the store [h]. *)
Definition is_dict (h : gmap loc (obj float)) (v : val) : Prop :=
  ∃ l d, v = PRef l ∧ h !! l = Some (ODict d).

(** The comparison text of the document [srd] in the store [h]. *)
Definition doc_text (h : gmap loc (obj float)) (srd : val) : val :=
  match srd with
  | PRef l =>
      match h !! l with
      | Some (ODict d) =>
          if truthy_in h (default PNone (d !! "text"))
          then default PNone (d !! "text")
          else default (PStr "") (d !! "_text")
      | _ => PNone
      end
  | _ => PNone
  end.

(** The hits [semantic_search] computes for the query [q] against the
    documents whose comparison texts are [doc_texts]. *)
Definition query_hits (self : TextEmbedding) (doc_texts : list val) (top_k : Z)
    (q : val) : list (nat * float) :=
  top_hits (normalize (embed (model self) q))
           (normalize <$> (embed (model self) <$> doc_texts)) top_k.

(** The value [top_n] takes after the defaulting at the head of
    [run_rerank_queries]. *)
Definition effective_top_n (top_n : option Z) (documents : list val) : Z :=
  match top_n with
  | None => Z.of_nat (length documents)
  | Some n => if n <? 1 then Z.of_nat (length documents) else n
  end.

(** The result dict [d] after the fix-up for the hit [hit]. *)
Definition fixed_dict (documents : list val) (return_documents return_text : bool)
    (d : gmap string val) (hit : nat * float) : Prop :=
  d !! "index" = Some (PInt (Z.of_nat hit.1))
  ∧ d !! "score" = Some (PFloat hit.2)
  ∧ d !! "document" = (if return_documents then documents !! hit.1 else None)
  ∧ (is_Some (d !! "text") ↔ return_text = true)
  ∧ dom d ⊆ RerankScore_fields.

(** The result record [sc] reports the hit [hit] on [documents]. *)
Definition score_matches (documents : list val) (return_documents return_text : bool)
    (sc : RerankScore float) (hit : nat * float) : Prop :=
  RerankScore_index sc = Z.of_nat hit.1
  ∧ RerankScore_score sc = hit.2
  ∧ RerankScore_document sc = (if return_documents then documents !! hit.1 else None)
  ∧ (is_Some (RerankScore_text sc) ↔ return_text = true).

(** The response for the query [q]: the query echoed or not, and one score
    record per hit, in the order of the hits. *)
Definition query_result_matches (self : TextEmbedding) (documents doc_texts : list val)
    (top_k : Z) (return_documents return_queries return_text : bool)
    (r : RerankQueryResult float) (q : val) : Prop :=
  RerankQueryResult_query r = (if return_queries then Some q else None)
  ∧ Forall2 (score_matches documents return_documents return_text)
            (RerankQueryResult_scores r) (query_hits self doc_texts top_k q).

(** The score of the query [q] against the document text [t]. *)
Definition score_of (self : TextEmbedding) (q t : val) : float :=
  dot (normalize (embed (model self) q)) (normalize (embed (model self) t)).

(** No score of the queries against the document texts is NaN: any two
    scores of a query, and so each score and itself, are comparable by
    [<=]. *)
Definition comparable_scores (self : TextEmbedding) (queries doc_texts : list val)
    : Prop :=
  ∀ q t t', q ∈ queries → t ∈ doc_texts → t' ∈ doc_texts →
    float_leb (score_of self q t) (score_of self q t') = true
    ∨ float_leb (score_of self q t') (score_of self q t) = true.

(** The order in which [sort_desc] leaves two consecutive hits. *)
Definition by_score_desc (a b : nat * float) : Prop := float_leb b.2 a.2 = true.

(** A score list in non-increasing order: every score is at least the
    next one. *)
Definition non_increasing (scores : list float) : Prop :=
  Sorted (λ a b, float_leb b a = true) scores.

(** The world in which [run_rerank_query] calls [run_rerank_queries]: the
    one-element list [[query]] is a new object. *)
Definition with_query_list (query : val) (w : World) : World :=
  with_heap (<[fresh (dom (heap w)) := OList [query]]> (heap w)) w.

(** A request: one of the six operations that take text, with its
    arguments. *)
Inductive request : Type :=
| Embedding (text : string)
| Embeddings (texts : texts_arg)
| SentenceSimilarity (source_sentence : string) (sentences : list string)
| SentenceSimilarities (source_sentences sentences : list string)
| RerankQueries (queries documents : val) (top_n : option Z)
                (return_documents return_queries return_text : bool)
| RerankQuery (query : string) (documents : val) (top_n : option Z)
              (return_documents return_query return_text : bool).

Inductive response : Type :=
| EmbeddingResponse (v : Vector1D float)
| EmbeddingsResponse (vs : ListOfVector1D float)
| SentenceSimilarityResponse (scores : SentenceScores float)
| SentenceSimilaritiesResponse (scores : SentenceListScores float)
| RerankQueriesResponse (prediction : RerankPrediction float)
| RerankQueryResponse (result : RerankQueryResult float).

(** The operation a request is routed to. *)
Definition dispatch (self : TextEmbedding) (req : request) : M response :=
  match req with
  | Embedding text =>
      r <- run_embedding self (PStr text) ;; ret (EmbeddingResponse r)
  | Embeddings texts =>
      r <- run_embeddings self texts ;; ret (EmbeddingsResponse r)
  | SentenceSimilarity source_sentence sentences =>
      r <- run_sentence_similarity self source_sentence sentences ;;
      ret (SentenceSimilarityResponse r)
  | SentenceSimilarities source_sentences sentences =>
      r <- run_sentence_similarities self source_sentences sentences ;;
      ret (SentenceSimilaritiesResponse r)
  | RerankQueries queries documents top_n return_documents return_queries return_text =>
      r <- run_rerank_queries self queries documents top_n
             return_documents return_queries return_text ;;
      ret (RerankQueriesResponse r)
  | RerankQuery query documents top_n return_documents return_query return_text =>
      r <- run_rerank_query self (PStr query) documents top_n
             return_documents return_query return_text ;;
      ret (RerankQueryResponse r)
  end.

(** The elements of the list [v] refers to in the store [h]. *)
Definition list_of (h : gmap loc (obj float)) (v : val) : list val :=
  match v with
  | PRef l => match h !! l with Some (OList vs) => vs | _ => [] end
  | _ => []
  end.

Definition is_list_in (h : gmap loc (obj float)) (v : val) : Prop :=
  ∃ l vs, v = PRef l ∧ h !! l = Some (OList vs).

(** The text arguments of a request, in the order the operation submits
    them to the truncation guard. *)
Definition text_arguments (h : gmap loc (obj float)) (req : request) : list val :=
  match req with
  | Embedding text => [PStr text]
  | Embeddings (OneText s) => [PStr s]
  | Embeddings (Texts l) => PStr <$> l
  | SentenceSimilarity source_sentence sentences =>
      PStr source_sentence :: (PStr <$> sentences)
  | SentenceSimilarities source_sentences sentences =>
      (PStr <$> source_sentences) ++ (PStr <$> sentences)
  | RerankQueries queries documents _ _ _ _ =>
      (doc_text h <$> list_of h documents) ++ list_of h queries
  | RerankQuery query documents _ _ _ _ =>
      (doc_text h <$> list_of h documents) ++ [PStr query]
  end.

(** The arguments of a rerank request are lists, the documents dict
    records. *)
Definition well_formed (h : gmap loc (obj float)) (req : request) : Prop :=
  match req with
  | RerankQueries queries documents _ _ _ _ =>
      is_list_in h queries ∧ is_list_in h documents
      ∧ Forall (is_dict h) (list_of h documents)
  | RerankQuery _ documents _ _ _ _ =>
      is_list_in h documents ∧ Forall (is_dict h) (list_of h documents)
  | _ => True
  end.

(** Neither list of a rerank request is empty. *)
Definition nonempty_lists (h : gmap loc (obj float)) (req : request) : Prop :=
  match req with
  | RerankQueries queries documents _ _ _ _ =>
      list_of h queries ≠ [] ∧ list_of h documents ≠ []
  | RerankQuery _ documents _ _ _ _ => list_of h documents ≠ []
  | _ => True
  end.

(** The backend [_optimize] selects for [torch.compile]. *)
Definition selected_backend : backend :=
  if IPEX_OPTIMIZE then backend_ipex
  else if USE_MPS then backend_mps
  else backend_inductor.

(** The world after one more warning on the log channel. *)
Definition warned (msg : string) (w : World) : World :=
  mkWorld (heap w) (fs w) (log w ++ [msg]) (encode_calls w).

(** The world after more calls to the encoder. *)
Definition encoded (calls : list (encode_call float)) (w : World) : World :=
  mkWorld (heap w) (fs w) (log w) (encode_calls w ++ calls).


(** The store [h] is [h0] with more objects, all of them non-empty dicts:
    what [h0] becomes while [run_rerank_queries] creates and fixes up its
    result dicts. *)
Definition extends_by_results (h0 h : gmap loc (obj float)) : Prop :=
  (∀ l, l ∈ dom h0 → h !! l = h0 !! l)
  ∧ (∀ l o, h0 !! l = None → h !! l = Some o → ∃ d, o = ODict d ∧ d ≠ ∅).

Definition opt_insert (key : string) (o : option val) (d : gmap string val)
    : gmap string val :=
  match o with
  | Some v => <[key := v]> d
  | None => d
  end.

(** The entries of the result dict of a hit after the fix-up. *)
Definition fixed_entries (documents doc_texts : list val)
    (return_documents return_text : bool) (hit : nat * float) : gmap string val :=
  opt_insert "text" (if return_text then doc_texts !! hit.1 else None)
    (opt_insert "document" (if return_documents then documents !! hit.1 else None)
       (<["index" := PInt (Z.of_nat hit.1)]> (delete "corpus_id" (hit_dict hit)))).

(** The score record of a hit: its index, its score, the document at that
    index when asked for, and that document's comparison text when asked
    for. *)
Definition expected_score (documents doc_texts : list val)
    (return_documents return_text : bool) (hit : nat * float) : RerankScore float :=
  mkRerankScore (if return_documents then documents !! hit.1 else None)
                (Z.of_nat hit.1) hit.2
                (if return_text then doc_texts !! hit.1 else None).

(** The response of [run_rerank_queries] as a function of its inputs. *)
Definition expected_results (self : TextEmbedding) (queries documents doc_texts : list val)
    (top_k : Z) (return_documents return_queries return_text : bool)
    : list (RerankQueryResult float) :=
  (λ q, mkRerankQueryResult
          (if return_queries then Some q else None)
          (expected_score documents doc_texts return_documents return_text
             <$> query_hits self doc_texts top_k q))
    <$> queries.

(** ** Properties *)

(** *** The monad *)

Lemma bind_ok {A B} (c : M A) (f : A → M B) (w w' : World) (a : A) :
  c w = (Ok a, w') → (x <- c ;; f x) w = f a w'.
Proof. intros H. unfold bind. by rewrite H. Qed.

Lemma bind_raise {A B} (c : M A) (f : A → M B) (w w' : World) (e : exn) :
  c w = (Raise e, w') → (x <- c ;; f x) w = (Raise e, w').
Proof. intros H. unfold bind. by rewrite H. Qed.

Lemma for_each_app {A} (body : A → M unit) (xs ys : list A) (w w' : World) :
  for_each body xs w = (Ok (), w') →
  for_each body (xs ++ ys) w = for_each body ys w'.
Proof.
  revert w. induction xs as [|x xs IH]; intros w; simpl.
  - by intros [= ->].
  - unfold bind. destruct (body x w) as [[[]|e] w1]; [|done]. apply IH.
Qed.

Lemma for_each_app_raise {A} (body : A → M unit) (xs ys : list A) (w w' : World) e :
  for_each body xs w = (Raise e, w') →
  for_each body (xs ++ ys) w = (Raise e, w').
Proof.
  revert w. induction xs as [|x xs IH]; intros w; simpl; [done|].
  unfold bind. destruct (body x w) as [[[]|e'] w1]; [apply IH|done].
Qed.

(** *** The truncation guard *)

Lemma prevent_truncation_within (self : TextEmbedding) (text : val) (w : World) :
  within_limit self text = true →
  _prevent_truncation self text w = (Ok (), w).
Proof.
  unfold within_limit, token_count, _prevent_truncation, bind, lift, value_check.
  destruct (tokenizer (model self) text) as [ids|e]; [|done].
  by intros ->.
Qed.

Lemma prevent_truncation_exceeds (self : TextEmbedding) (text : val) (w : World) :
  exceeds_limit self text = true →
  ∃ msg, _prevent_truncation self text w = (Raise (ValueError "<NLP08391926E>" msg), w).
Proof.
  unfold exceeds_limit, token_count, _prevent_truncation, bind, lift, value_check.
  destruct (tokenizer (model self) text) as [ids|e]; [|done].
  intros H. apply Z.ltb_lt in H.
  destruct (Z.leb_spec (Z.of_nat (length ids)) (max_seq_length (model self))); [lia|].
  by eexists.
Qed.

Lemma tokenizable_cases (self : TextEmbedding) (text : val) :
  tokenizable self text = true →
  within_limit self text = true ∨ exceeds_limit self text = true.
Proof.
  unfold tokenizable, within_limit, exceeds_limit.
  intros [n ->]%bool_decide_eq_true.
  destruct (Z.leb_spec n (max_seq_length (model self))); [by left|right].
  by apply Z.ltb_lt.
Qed.

Lemma guard_all_within (self : TextEmbedding) (texts : list val) (w : World) :
  Forall (λ t, within_limit self t = true) texts →
  for_each (_prevent_truncation self) texts w = (Ok (), w).
Proof.
  induction 1 as [|t ts Ht _ IH]; simpl; [done|].
  by rewrite (bind_ok _ _ _ _ _ (prevent_truncation_within _ _ _ Ht)).
Qed.

Lemma guard_some_exceeds (self : TextEmbedding) (texts : list val) (w : World) :
  Forall (λ t, tokenizable self t = true) texts →
  Exists (λ t, exceeds_limit self t = true) texts →
  ∃ msg, for_each (_prevent_truncation self) texts w
         = (Raise (ValueError "<NLP08391926E>" msg), w).
Proof.
  induction 1 as [|t ts Ht _ IH]; intros Hex; [by apply Exists_nil in Hex|].
  simpl. destruct (tokenizable_cases _ _ Ht) as [Hin|Hout].
  - rewrite (bind_ok _ _ _ _ _ (prevent_truncation_within _ _ _ Hin)).
    apply IH. apply Exists_cons in Hex as [Hex|Hex]; [|done].
    unfold within_limit, exceeds_limit in *.
    destruct (token_count self t); [|done].
    apply Z.leb_le in Hin. apply Z.ltb_lt in Hex. lia.
  - destruct (prevent_truncation_exceeds _ _ w Hout) as [msg Hmsg].
    exists msg. by rewrite (bind_raise _ _ _ _ _ Hmsg).
Qed.

(** *** Extracting the comparison text *)

Lemma dict_get_ok (w : World) (l : loc) (d : gmap string val) (key : string) (dflt : val) :
  heap w !! l = Some (ODict d) →
  dict_get (PRef l) key dflt w = (Ok (default dflt (d !! key)), w).
Proof. intros H. unfold dict_get, dict_entries, bind, ret. by rewrite H. Qed.

Lemma get_text_ok (w : World) (l : loc) (d : gmap string val) :
  heap w !! l = Some (ODict d) →
  get_text (PRef l) w =
    (Ok (if truthy_in (heap w) (default PNone (d !! "text"))
         then default PNone (d !! "text")
         else default (PStr "") (d !! "_text")), w).
Proof.
  intros H. unfold get_text.
  rewrite (bind_ok _ _ _ _ _ (dict_get_ok _ _ _ "text" PNone H)).
  unfold bind, truthy, ret.
  destruct (truthy_in _ _); [done|].
  by rewrite (dict_get_ok _ _ _ "_text" (PStr "") H).
Qed.

(** C5. The comparison text of a document record is the value of its
    "text" field when that field is present and non-empty (truthy: not
    None, False, 0, 0.0, the empty string or an empty list or dict; for a
    string, not ""), else the value of its "_text" field when present,
    else the empty string.  In particular {"text": "hello"} yields
    "hello", {"_text": "fallback"} yields "fallback" and a record with
    neither key yields "". *)
Theorem get_text_fallback (w : World) (l : loc) (d : gmap string val) :
  heap w !! l = Some (ODict d) →
  (∀ t, d !! "text" = Some t → truthy_in (heap w) t = true →
        get_text (PRef l) w = (Ok t, w))
  ∧ (∀ s, d !! "text" = Some (PStr s) → s ≠ "" →
          get_text (PRef l) w = (Ok (PStr s), w))
  ∧ ((d !! "text" = None
      ∨ ∃ t, d !! "text" = Some t ∧ truthy_in (heap w) t = false) →
     (∀ u, d !! "_text" = Some u → get_text (PRef l) w = (Ok u, w))
     ∧ (d !! "_text" = None → get_text (PRef l) w = (Ok (PStr ""), w)))
  ∧ (d = {["text" := PStr "hello"]} →
     get_text (PRef l) w = (Ok (PStr "hello"), w))
  ∧ (d = {["_text" := PStr "fallback"]} →
     get_text (PRef l) w = (Ok (PStr "fallback"), w))
  ∧ (d !! "text" = None → d !! "_text" = None →
     get_text (PRef l) w = (Ok (PStr ""), w)).
Proof.
  intros H. rewrite (get_text_ok _ _ _ H).
  split; [|split; [|split; [|split; [|split]]]].
  - intros t -> Ht. simpl. by rewrite Ht.
  - intros s -> Hs. simpl. by rewrite bool_decide_eq_false_2.
  - intros Hfalsy. split.
    + intros u Hu. destruct Hfalsy as [->|(t & -> & Ht)]; simpl.
      * by rewrite Hu.
      * by rewrite Ht, Hu.
    + intros Hu. destruct Hfalsy as [->|(t & -> & Ht)]; simpl.
      * by rewrite Hu.
      * by rewrite Ht, Hu.
  - by intros ->.
  - by intros ->.
  - by intros -> ->.
Qed.

(** *** Embeddings and sentence similarity *)

Lemma for_each_fmap {A B} (g : A → B) (body : B → M unit) (xs : list A) :
  for_each (λ x, body (g x)) xs = for_each body (g <$> xs).
Proof. induction xs as [|x xs IH]; simpl; [done|]. by rewrite IH. Qed.

Lemma run_embeddings_ok (self : TextEmbedding) (texts : list string) (w : World) :
  Forall (λ s, within_limit self (PStr s) = true) texts →
  run_embeddings self (Texts texts) w =
    (Ok (mkListOfVector1D ((λ s, mkVector1D (embed (model self) (PStr s))) <$> texts)),
     encoded [EncodeBatch (PStr <$> texts)] w).
Proof.
  intros Hin. unfold run_embeddings. rewrite (for_each_fmap PStr (_prevent_truncation self)).
  rewrite (bind_ok _ _ _ w ()); [|apply guard_all_within; by apply Forall_fmap].
  unfold bind, encode_batch, ret, Vector1D_from_embeddings, encoded.
  by rewrite <- !list_fmap_compose.
Qed.

(** C6. On an ordered sequence of N texts that are all within the model's
    maximum sequence length, [run_embeddings] returns exactly N vectors, the
    i-th being the embedding of the i-th text; and on a bare string it
    returns what it returns on the one-element sequence of that string. *)
Theorem run_embeddings_order (self : TextEmbedding) (texts : list string) (w : World) :
  Forall (λ s, within_limit self (PStr s) = true) texts →
  (∃ vectors w',
      run_embeddings self (Texts texts) w = (Ok (mkListOfVector1D vectors), w')
      ∧ length vectors = length texts
      ∧ ∀ i s, texts !! i = Some s →
               vectors !! i = Some (mkVector1D (embed (model self) (PStr s))))
  ∧ ∀ s w0, run_embeddings self (OneText s) w0 = run_embeddings self (Texts [s]) w0.
Proof.
  intros Hin. split; [|done].
  eexists _, _. split; [by apply run_embeddings_ok|].
  split; [by rewrite length_fmap|].
  intros i s Hi. by rewrite list_lookup_fmap, Hi.
Qed.

Lemma run_sentence_similarity_ok (self : TextEmbedding) (source_sentence : string)
    (sentences : list string) (w : World) :
  within_limit self (PStr source_sentence) = true →
  Forall (λ s, within_limit self (PStr s) = true) sentences →
  run_sentence_similarity self source_sentence sentences w =
    (Ok (mkSentenceScores
           ((λ c, cos (embed (model self) (PStr source_sentence))
                      (embed (model self) (PStr c))) <$> sentences)),
     encoded [EncodeOne (PStr source_sentence); EncodeBatch (PStr <$> sentences)] w).
Proof.
  intros Hsrc Hin. unfold run_sentence_similarity.
  rewrite (bind_ok _ _ _ w _ (prevent_truncation_within _ _ _ Hsrc)).
  rewrite (for_each_fmap PStr (_prevent_truncation self)).
  rewrite (bind_ok _ _ _ w ()); [|apply guard_all_within; by apply Forall_fmap].
  unfold bind, encode_one, encode_batch, ret, cos_sim, encoded; simpl.
  by rewrite <- !list_fmap_compose, <- app_assoc.
Qed.

(** C7. For a source sentence and candidates c1..cn that are all within the
    model's maximum sequence length, [run_sentence_similarity] returns
    exactly n scores, the i-th being the cosine similarity of the embedding
    of the source and the embedding of ci. *)
Theorem run_sentence_similarity_scores (self : TextEmbedding)
    (source_sentence : string) (sentences : list string) (w : World) :
  within_limit self (PStr source_sentence) = true →
  Forall (λ s, within_limit self (PStr s) = true) sentences →
  ∃ scores w',
    run_sentence_similarity self source_sentence sentences w
    = (Ok (mkSentenceScores scores), w')
    ∧ length scores = length sentences
    ∧ ∀ i c, sentences !! i = Some c →
             scores !! i = Some (cos (embed (model self) (PStr source_sentence))
                                     (embed (model self) (PStr c))).
Proof.
  intros Hsrc Hin. eexists _, _.
  split; [by apply run_sentence_similarity_ok|].
  split; [by rewrite length_fmap|].
  intros i c Hi. by rewrite list_lookup_fmap, Hi.
Qed.

(** *** The hits of [semantic_search] *)

Lemma length_insert_desc (x : nat * float) (l : list (nat * float)) :
  length (insert_desc x l) = S (length l).
Proof.
  induction l as [|y l IH]; simpl; [done|].
  destruct (float_leb x.2 y.2); simpl; by rewrite ?IH.
Qed.

Lemma length_sort_desc (l : list (nat * float)) :
  length (sort_desc l) = length l.
Proof.
  induction l as [|x l IH]; simpl; [done|].
  by rewrite length_insert_desc, IH.
Qed.

Lemma Forall_insert_desc (P : nat * float → Prop) x l :
  P x → Forall P l → Forall P (insert_desc x l).
Proof.
  intros Hx. induction 1 as [|y l Hy Hl IH]; simpl.
  - by constructor.
  - destruct (float_leb x.2 y.2); repeat constructor; done.
Qed.

Lemma Forall_sort_desc (P : nat * float → Prop) l :
  Forall P l → Forall P (sort_desc l).
Proof.
  induction 1 as [|x l Hx Hl IH]; simpl; [done|].
  by apply Forall_insert_desc.
Qed.

Lemma HdRel_insert_desc (a x : nat * float) l :
  by_score_desc a x → HdRel by_score_desc a l → HdRel by_score_desc a (insert_desc x l).
Proof.
  intros Hax Hal. destruct l as [|y l]; simpl; [by constructor|].
  destruct (float_leb x.2 y.2); constructor; [by inversion Hal|done].
Qed.

Lemma Sorted_insert_desc x l :
  Forall (λ y, float_leb x.2 y.2 = true ∨ float_leb y.2 x.2 = true) l →
  Sorted by_score_desc l → Sorted by_score_desc (insert_desc x l).
Proof.
  intros Hcmp. induction 1 as [|y l Hl IH Hy]; simpl.
  - by repeat constructor.
  - apply Forall_cons in Hcmp as [Hxy' Hcmp].
    destruct (float_leb x.2 y.2) eqn:Hxy.
    + constructor; [by apply IH|]. by apply HdRel_insert_desc.
    + constructor; [by constructor|]. constructor. unfold by_score_desc.
      destruct Hxy' as [H|H]; [congruence|done].
Qed.

Lemma Sorted_sort_desc l :
  (∀ x y, x ∈ l → y ∈ l → float_leb x.2 y.2 = true ∨ float_leb y.2 x.2 = true) →
  Sorted by_score_desc (sort_desc l).
Proof.
  induction l as [|x l IH]; intros Hcmp; simpl; [constructor|].
  apply Sorted_insert_desc.
  - apply Forall_sort_desc, Forall_forall. intros y Hy.
    apply Hcmp; [by left|by right].
  - apply IH. intros y z Hy Hz. apply Hcmp; by right.
Qed.

Lemma Sorted_take {A} (R : A → A → Prop) (n : nat) (l : list A) :
  Sorted R l → Sorted R (take n l).
Proof.
  intros Hl. revert n. induction Hl as [|x l Hl IH Hx]; intros [|n]; simpl;
    try constructor; [apply IH|].
  destruct Hx; destruct n; simpl; by constructor.
Qed.

Lemma length_top_hits (q : Vec) (corpus : list Vec) (top_k : Z) :
  length (top_hits q corpus top_k) = (Z.to_nat top_k `min` length corpus)%nat.
Proof.
  unfold top_hits. by rewrite length_take, length_sort_desc, length_imap.
Qed.

Lemma top_hits_in_range (q : Vec) (corpus : list Vec) (top_k : Z) :
  Forall (λ hit, (hit.1 < length corpus)%nat) (top_hits q corpus top_k).
Proof.
  unfold top_hits. apply Forall_take, Forall_sort_desc.
  apply Forall_forall. intros hit Hin.
  apply list_elem_of_lookup in Hin as [i Hi].
  rewrite list_lookup_imap in Hi.
  destruct (corpus !! i) eqn:Hc; simplify_eq/=.
  by apply lookup_lt_Some in Hc.
Qed.

Lemma top_hits_sorted (q : Vec) (corpus : list Vec) (top_k : Z) :
  (∀ d d', d ∈ corpus → d' ∈ corpus →
     float_leb (dot q d) (dot q d') = true ∨ float_leb (dot q d') (dot q d) = true) →
  non_increasing ((top_hits q corpus top_k).*2).
Proof.
  intros Hcmp. unfold non_increasing, top_hits.
  assert (∀ l, Sorted by_score_desc l → Sorted (λ a b, float_leb b a = true) (l.*2)) as Hmap.
  { induction 1 as [|x l Hl IH Hx]; simpl; constructor; [done|].
    destruct Hx; simpl; by constructor. }
  apply Hmap, Sorted_take, Sorted_sort_desc.
  intros x y Hx Hy.
  apply list_elem_of_lookup in Hx as [i Hi]. apply list_elem_of_lookup in Hy as [j Hj].
  rewrite list_lookup_imap in Hi, Hj.
  destruct (corpus !! i) as [d|] eqn:Hd; destruct (corpus !! j) as [d'|] eqn:Hd';
    simplify_eq/=.
  apply Hcmp; by eapply list_elem_of_lookup_2.
Qed.

(** *** Loops *)

Lemma list_comp_fmap {A B C} (g : A → B) (body : B → M C) (xs : list A) :
  list_comp (λ x, body (g x)) xs = list_comp body (g <$> xs).
Proof. induction xs as [|x xs IH]; simpl; [done|]. by rewrite IH. Qed.

Lemma for_each_concat {A} (body : A → M unit) (xss : list (list A)) (w : World) :
  for_each (λ xs, for_each body xs) xss w = for_each body (concat xss) w.
Proof.
  revert w. induction xss as [|xs xss IH]; intros w; simpl; [done|].
  destruct (for_each body xs w) as [[[]|e] w1] eqn:Hxs.
  - rewrite (for_each_app _ _ _ _ _ Hxs), (bind_ok _ _ _ _ _ Hxs). apply IH.
  - by rewrite (for_each_app_raise _ _ _ _ _ _ Hxs), (bind_raise _ _ _ _ _ Hxs).
Qed.

(** A comprehension whose body only reads the world. *)
Lemma list_comp_reads {A B} (body : A → M B) (P : nat → B → Prop) (xs : list A)
    (w : World) :
  (∀ i x, xs !! i = Some x → ∃ y, body x w = (Ok y, w) ∧ P i y) →
  ∃ ys, list_comp body xs w = (Ok ys, w)
        ∧ length ys = length xs
        ∧ ∀ i y, ys !! i = Some y → P i y.
Proof.
  revert P. induction xs as [|x xs IH]; intros P Hbody; simpl.
  - exists []. by repeat split.
  - destruct (Hbody 0%nat x eq_refl) as (y & Hy & HP).
    destruct (IH (λ i, P (S i))) as (ys & Hys & Hlen & HPs).
    { intros i x' Hi. by apply (Hbody (S i)). }
    exists (y :: ys). rewrite (bind_ok _ _ _ _ _ Hy), (bind_ok _ _ _ _ _ Hys).
    repeat split; [simpl; by rewrite Hlen|].
    intros [|i] y' Hi; simplify_eq/=; [done|by apply HPs].
Qed.

Lemma enumerate_lookup {A} (xs : list A) (i : nat) (x : A) :
  xs !! i = Some x → enumerate xs !! i = Some (i, x).
Proof.
  intros Hi. unfold enumerate. apply lookup_zip_with_Some.
  exists i, x. repeat split; [|done].
  apply lookup_seq. split; [done|]. by apply lookup_lt_Some in Hi.
Qed.

Lemma enumerate_lookup_inv {A} (xs : list A) (i j : nat) (x : A) :
  enumerate xs !! i = Some (j, x) → j = i ∧ xs !! i = Some x.
Proof.
  unfold enumerate. intros (j' & x' & [= -> ->] & Hj & Hx)%lookup_zip_with_Some.
  apply lookup_seq in Hj as [-> _]. done.
Qed.

(** *** Reading the request lists *)

Lemma is_list_ok (w : World) (l : loc) (vs : list val) :
  heap w !! l = Some (OList vs) → is_list (PRef l) w = (Ok true, w).
Proof. intros H. unfold is_list. by rewrite H. Qed.

Lemma list_elems_ok (w : World) (l : loc) (vs : list val) :
  heap w !! l = Some (OList vs) → list_elems (PRef l) w = (Ok vs, w).
Proof. intros H. unfold list_elems. by rewrite H. Qed.

Lemma get_text_doc_text (w : World) (srd : val) :
  is_dict (heap w) srd → get_text srd w = (Ok (doc_text (heap w) srd), w).
Proof.
  intros (l & d & -> & Hl). rewrite (get_text_ok _ _ _ Hl).
  unfold doc_text. by rewrite Hl.
Qed.

Lemma doc_texts_ok (w : World) (documents : list val) :
  Forall (is_dict (heap w)) documents →
  list_comp get_text documents w = (Ok (doc_text (heap w) <$> documents), w).
Proof.
  induction 1 as [|d ds Hd _ IH]; simpl; [done|].
  by rewrite (bind_ok _ _ _ _ _ (get_text_doc_text _ _ Hd)), (bind_ok _ _ _ _ _ IH).
Qed.

(** *** The result dicts of [semantic_search] *)

Lemma with_heap_id (w : World) : with_heap (heap w) w = w.
Proof. by destruct w. Qed.

Lemma alloc_hits_ok (hits : list (nat * float)) (w : World) :
  ∃ (locs : list loc) h',
    list_comp (λ hit, alloc (ODict (hit_dict hit))) hits w
    = (Ok (refs locs), with_heap h' w)
    ∧ NoDup locs
    ∧ Forall (λ l, l ∉ dom (heap w)) locs
    ∧ Forall2 (λ l hit, h' !! l = Some (ODict (hit_dict hit))) locs hits
    ∧ ∀ l, l ∈ dom (heap w) → h' !! l = heap w !! l.
Proof.
  revert w. induction hits as [|hit hits IH]; intros w.
  - exists [], (heap w). rewrite with_heap_id. repeat split; by constructor.
  - set (l := fresh (dom (heap w))).
    set (w1 := with_heap (<[l := ODict (hit_dict hit)]> (heap w)) w).
    destruct (IH w1) as (locs & h' & Hrun & Hnd & Hfresh & Hraw & Hframe).
    assert (l ∉ dom (heap w)) as Hl by apply is_fresh.
    assert (l ∈ dom (heap w1)) as Hl1.
    { unfold w1. simpl. rewrite dom_insert. set_solver. }
    exists (l :: locs), h'. repeat split.
    + simpl. unfold bind at 1. unfold alloc at 1. fold l. fold w1.
      by rewrite (bind_ok _ _ _ _ _ Hrun).
    + constructor; [|done]. intros Hin.
      by eapply Forall_forall in Hfresh; [|done].
    + constructor; [done|]. eapply Forall_impl; [done|].
      intros l' Hl'. simpl in *. contradict Hl'. rewrite dom_insert. set_solver.
    + constructor; [|done]. rewrite Hframe by done. unfold w1. simpl.
      by rewrite lookup_insert_eq.
    + intros l' Hl'. rewrite Hframe.
      * unfold w1. simpl. rewrite lookup_insert_ne; [done|]. by intros ->.
      * unfold w1. simpl. rewrite dom_insert. set_solver.
Qed.

Lemma alloc_hitss_ok (hitss : list (list (nat * float))) (w : World) :
  ∃ (locss : list (list loc)) h',
    list_comp (list_comp (λ hit, alloc (ODict (hit_dict hit)))) hitss w
    = (Ok (refs <$> locss), with_heap h' w)
    ∧ NoDup (concat locss)
    ∧ Forall (λ l, l ∉ dom (heap w)) (concat locss)
    ∧ Forall2 (Forall2 (λ l hit, h' !! l = Some (ODict (hit_dict hit)))) locss hitss
    ∧ ∀ l, l ∈ dom (heap w) → h' !! l = heap w !! l.
Proof.
  revert w. induction hitss as [|hits hitss IH]; intros w.
  - exists [], (heap w). rewrite with_heap_id. repeat split; by constructor.
  - destruct (alloc_hits_ok hits w) as (locs & h1 & Hrun1 & Hnd1 & Hfresh1 & Hraw1 & Hframe1).
    destruct (IH (with_heap h1 w)) as (locss & h' & Hrun & Hnd & Hfresh & Hraw & Hframe).
    simpl in Hfresh, Hframe.
    assert (Forall (λ l, l ∈ dom h1) locs) as Hin1.
    { apply Forall_forall. intros l Hl.
      apply list_elem_of_lookup in Hl as [i Hi].
      destruct (Forall2_lookup_l _ _ _ _ _ Hraw1 Hi) as (hit & _ & Hh).
      by apply elem_of_dom. }
    assert (∀ l, l ∈ dom (heap w) → l ∈ dom h1) as Hsub.
    { intros l Hl. apply elem_of_dom. rewrite Hframe1 by done. by apply elem_of_dom. }
    exists (locs :: locss), h'. repeat split.
    + simpl. by rewrite (bind_ok _ _ _ _ _ Hrun1), (bind_ok _ _ _ _ _ Hrun).
    + simpl. apply NoDup_app. repeat split; [done| |done].
      intros l Hl Hl'. eapply Forall_forall in Hfresh; [|done].
      eapply Forall_forall in Hin1; done.
    + simpl. apply Forall_app. split; [done|].
      eapply Forall_impl; [exact Hfresh|]. intros l Hl Hw. by apply Hl, Hsub.
    + constructor; [|done].
      eapply Forall2_impl; [exact Hraw1|].
      simpl. intros l hit Hd. rewrite Hframe; [done|]. by apply elem_of_dom.
    + intros l Hl. rewrite Hframe by by apply Hsub. by apply Hframe1.
Qed.

(** *** The fix-up of the result dicts *)

Lemma dict_setitem_ok (w : World) (l : loc) (d : gmap string val) (key : string) (v : val) :
  heap w !! l = Some (ODict d) →
  dict_setitem (PRef l) key v w
  = (Ok (), with_heap (<[l := ODict (<[key := v]> d)]> (heap w)) w).
Proof. intros H. unfold dict_setitem, dict_entries, bind, store. by rewrite H. Qed.

Lemma dict_pop_ok (w : World) (l : loc) (d : gmap string val) (key : string) (v : val) :
  heap w !! l = Some (ODict d) → d !! key = Some v →
  dict_pop (PRef l) key w
  = (Ok v, with_heap (<[l := ODict (delete key d)]> (heap w)) w).
Proof.
  intros H Hk. unfold dict_pop, dict_entries, bind, store, ret. by rewrite H, Hk.
Qed.

Lemma list_getitem_ok (xs : list val) (i : nat) (v : val) (w : World) :
  xs !! i = Some v → list_getitem xs (PInt (Z.of_nat i)) w = (Ok v, w).
Proof.
  intros Hi. unfold list_getitem.
  pose proof (lookup_lt_Some _ _ _ Hi) as Hlt.
  destruct (Z.ltb_spec (Z.of_nat i) 0); [lia|].
  rewrite (proj2 (Z.leb_le _ _)) by lia. rewrite (proj2 (Z.ltb_lt _ _)) by lia.
  simpl. by rewrite Nat2Z.id, Hi.
Qed.

Lemma is_dict_insert (h : gmap loc (obj float)) (l : loc) (d : gmap string val) (v : val) :
  is_dict h v → is_dict (<[l := ODict d]> h) v.
Proof.
  intros (l' & d' & -> & Hl'). destruct (decide (l = l')) as [->|Hne].
  - exists l', d. by rewrite lookup_insert_eq.
  - exists l', d'. by rewrite lookup_insert_ne.
Qed.

Lemma fixup_ok (documents : list val) (return_documents return_text : bool)
    (w : World) (l : loc) (hit : nat * float) (doc : val) :
  heap w !! l = Some (ODict (hit_dict hit)) →
  documents !! hit.1 = Some doc →
  is_dict (heap w) doc →
  ∃ d', fixup documents return_documents return_text (PRef l) w
        = (Ok (), with_heap (<[l := ODict d']> (heap w)) w)
        ∧ fixed_dict documents return_documents return_text d' hit.
Proof.
  intros Hl Hdoc Hdict. unfold fixup.
  rewrite (bind_ok _ _ _ _ _
             (dict_pop_ok w l _ "corpus_id" (PInt (Z.of_nat hit.1)) Hl eq_refl)).
  set (d1 := delete "corpus_id" (hit_dict hit)).
  set (w1 := with_heap (<[l := ODict d1]> (heap w)) w).
  assert (heap w1 !! l = Some (ODict d1)) as Hl1 by apply lookup_insert_eq.
  rewrite (bind_ok _ _ _ _ _ (dict_setitem_ok w1 l _ "index" _ Hl1)).
  set (d2 := <["index" := PInt (Z.of_nat hit.1)]> d1).
  set (w2 := with_heap (<[l := ODict d2]> (heap w1)) w1).
  assert (heap w2 !! l = Some (ODict d2)) as Hl2 by apply lookup_insert_eq.
  assert (∃ d3, (if return_documents
                 then d <- list_getitem documents (PInt (Z.of_nat hit.1)) ;;
                      dict_setitem (PRef l) "document" d
                 else ret ()) w2
                = (Ok (), with_heap (<[l := ODict d3]> (heap w)) w)
                ∧ d3 = (if return_documents then <["document" := doc]> d2 else d2))
    as (d3 & Hrun3 & Hd3).
  { destruct return_documents.
    - exists (<["document" := doc]> d2). split; [|done].
      rewrite (bind_ok _ _ _ _ _ (list_getitem_ok _ _ _ w2 Hdoc)).
      rewrite (dict_setitem_ok w2 l _ "document" _ Hl2).
      unfold w2, w1, with_heap; simpl. by rewrite !insert_insert_eq.
    - exists d2. split; [|done].
      unfold ret, w2, w1, with_heap; simpl. by rewrite !insert_insert_eq. }
  rewrite (bind_ok _ _ _ _ _ Hrun3).
  set (w3 := with_heap (<[l := ODict d3]> (heap w)) w).
  assert (heap w3 !! l = Some (ODict d3)) as Hl3 by apply lookup_insert_eq.
  assert (is_dict (heap w3) doc) as Hdict3 by by apply is_dict_insert.
  assert (∃ d4, (if return_text
                 then d <- list_getitem documents (PInt (Z.of_nat hit.1)) ;;
                      t <- get_text d ;; dict_setitem (PRef l) "text" t
                 else ret ()) w3
                = (Ok (), with_heap (<[l := ODict d4]> (heap w)) w)
                ∧ ∃ t, d4 = (if return_text then <["text" := t]> d3 else d3))
    as (d4 & Hrun4 & t & Hd4).
  { destruct return_text.
    - exists (<["text" := doc_text (heap w3) doc]> d3). split; [|by eexists].
      rewrite (bind_ok _ _ _ _ _ (list_getitem_ok _ _ _ w3 Hdoc)).
      rewrite (bind_ok _ _ _ _ _ (get_text_doc_text _ _ Hdict3)).
      rewrite (dict_setitem_ok w3 l _ "text" _ Hl3).
      unfold w3, with_heap; simpl. by rewrite !insert_insert_eq.
    - exists d3. split; [|by exists PNone].
      unfold ret, w3, with_heap; simpl. by rewrite ?insert_insert_eq. }
  exists d4. split; [done|].
  subst d4 d3 d2 d1. unfold fixed_dict, hit_dict, RerankScore_fields.
  destruct return_documents, return_text; rewrite ?Hdoc;
    repeat split; try done; try (by intros [? [=]]); try (by eexists);
    rewrite ?dom_insert_L, ?dom_delete_L, ?dom_insert_L, ?dom_empty_L; set_solver.
Qed.

Lemma fixup_all_ok (documents : list val) (return_documents return_text : bool)
    (locs : list loc) (hits : list (nat * float)) (w : World) :
  NoDup locs →
  Forall2 (λ l hit, heap w !! l = Some (ODict (hit_dict hit))) locs hits →
  Forall (λ hit, (hit.1 < length documents)%nat) hits →
  Forall (is_dict (heap w)) documents →
  ∃ h', for_each (fixup documents return_documents return_text) (refs locs) w
        = (Ok (), with_heap h' w)
        ∧ Forall2 (λ l hit, ∃ d, h' !! l = Some (ODict d)
                                 ∧ fixed_dict documents return_documents return_text d hit)
                  locs hits
        ∧ ∀ l, l ∉ locs → h' !! l = heap w !! l.
Proof.
  revert locs w.
  induction hits as [|hit hits IH]; intros locs w Hnd Hraw Hrange Hdocs;
    inversion Hraw as [|l ? locs' ? Hl Hraw' Heq1 Heq2]; simplify_eq/=.
  - exists (heap w). rewrite with_heap_id. by repeat split.
  - apply NoDup_cons in Hnd as [Hnotin Hnd].
    apply Forall_cons in Hrange as [Hhit Hrange].
    destruct (lookup_lt_is_Some_2 documents hit.1 Hhit) as [doc Hdoc].
    assert (is_dict (heap w) doc) as Hdict.
    { eapply Forall_forall; [exact Hdocs|]. by eapply list_elem_of_lookup_2. }
    destruct (fixup_ok documents return_documents return_text w l hit doc Hl Hdoc Hdict)
      as (d & Hrun & Hfixed).
    set (w1 := with_heap (<[l := ODict d]> (heap w)) w) in *.
    destruct (IH locs' w1) as (h' & Hrun' & Hfixed' & Hframe'); [done| |done| |].
    { apply Forall2_same_length_lookup. split; [by eapply Forall2_length|].
      intros i l' hit' Hi Hj. simpl.
      rewrite lookup_insert_ne.
      - exact (Forall2_lookup_lr _ _ _ _ _ _ Hraw' Hi Hj).
      - intros ->. apply Hnotin. by eapply list_elem_of_lookup_2. }
    { eapply Forall_impl; [exact Hdocs|]. intros v. apply is_dict_insert. }
    exists h'. repeat split.
    + by rewrite (bind_ok _ _ _ _ _ Hrun).
    + constructor; [|done]. exists d. split; [|done].
      rewrite Hframe' by done. apply lookup_insert_eq.
    + intros l' Hl'. apply not_elem_of_cons in Hl' as [Hne Hl'].
      rewrite Hframe' by done. simpl. by rewrite lookup_insert_ne.
Qed.

(** *** Building the response *)

Lemma RerankScore_of_dict_ok (documents : list val) (return_documents return_text : bool)
    (w : World) (l : loc) (d : gmap string val) (hit : nat * float) :
  heap w !! l = Some (ODict d) →
  fixed_dict documents return_documents return_text d hit →
  ∃ sc, RerankScore_of_dict (PRef l) w = (Ok sc, w)
        ∧ score_matches documents return_documents return_text sc hit.
Proof.
  intros Hl (Hindex & Hscore & Hdoc & Htext & Hdom).
  exists (mkRerankScore (d !! "document") (Z.of_nat hit.1) hit.2 (d !! "text")).
  split; [|done].
  unfold RerankScore_of_dict, dict_entries, bind. rewrite Hl, Hindex, Hscore.
  by rewrite bool_decide_eq_true_2.
Qed.

(** A comprehension whose body only reads the world, element by element. *)
Lemma list_comp_reads_Forall2 {A B C} (body : A → M B) (R : B → C → Prop)
    (xs : list A) (zs : list C) (w : World) :
  Forall2 (λ x z, ∃ y, body x w = (Ok y, w) ∧ R y z) xs zs →
  ∃ ys, list_comp body xs w = (Ok ys, w) ∧ Forall2 R ys zs.
Proof.
  induction 1 as [|x z xs zs (y & Hy & HR) _ (ys & Hys & HRs)]; simpl.
  - by exists [].
  - exists (y :: ys). rewrite (bind_ok _ _ _ _ _ Hy), (bind_ok _ _ _ _ _ Hys).
    split; [done|by constructor].
Qed.

Lemma Forall_concat_2 {A} (P : A → Prop) (xss : list (list A)) :
  Forall (Forall P) xss → Forall P (concat xss).
Proof. induction 1; simpl; [constructor|by apply Forall_app]. Qed.

Lemma Forall2_concat_2 {A B} (P : A → B → Prop) (xss : list (list A)) (yss : list (list B)) :
  Forall2 (Forall2 P) xss yss → Forall2 P (concat xss) (concat yss).
Proof. induction 1; simpl; [constructor|by apply Forall2_app]. Qed.

Lemma Forall2_unconcat {A B} (P Q : A → B → Prop) (xss : list (list A))
    (yss : list (list B)) :
  Forall2 (Forall2 P) xss yss →
  Forall2 Q (concat xss) (concat yss) →
  Forall2 (Forall2 Q) xss yss.
Proof.
  induction 1 as [|xs ys xss yss Hxy _ IH]; simpl; intros HQ; [constructor|].
  apply Forall2_app_inv in HQ as [HQ1 HQ2]; [|by eapply Forall2_length].
  constructor; [done|by apply IH].
Qed.

Lemma refs_concat (locss : list (list loc)) :
  concat (refs <$> locss) = refs (concat locss).
Proof.
  induction locss as [|locs locss IH]; [done|].
  rewrite fmap_cons, !concat_cons, IH. unfold refs. by rewrite fmap_app.
Qed.

(** *** [run_rerank_queries] on non-empty lists *)

Lemma run_rerank_queries_ok (self : TextEmbedding) (lq ld : loc) (qs ds : list val)
    (top_n : option Z) (return_documents return_queries return_text : bool)
    (w : World) :
  heap w !! lq = Some (OList qs) →
  heap w !! ld = Some (OList ds) →
  qs ≠ [] → ds ≠ [] →
  Forall (is_dict (heap w)) ds →
  Forall (λ t, within_limit self t = true) (doc_text (heap w) <$> ds) →
  Forall (λ q, within_limit self q = true) qs →
  ∃ results h',
    run_rerank_queries self (PRef lq) (PRef ld) top_n
                       return_documents return_queries return_text w
    = (Ok (mkRerankPrediction results),
       encoded [EncodeBatch (doc_text (heap w) <$> ds); EncodeBatch qs] (with_heap h' w))
    ∧ (∀ l, l ∈ dom (heap w) → h' !! l = heap w !! l)
    ∧ Forall2 (query_result_matches self ds (doc_text (heap w) <$> ds)
                 (effective_top_n top_n ds) return_documents return_queries return_text)
              results qs.
Proof.
  intros Hlq Hld Hqs Hds Hdicts Hdocs_in Hqs_in.
  unfold run_rerank_queries.
  rewrite (bind_ok _ _ _ _ _ (is_list_ok _ _ _ Hlq)).
  rewrite (bind_ok _ _ _ _ _ (is_list_ok _ _ _ Hld)).
  simpl type_check. rewrite (bind_ok _ _ _ w () eq_refl).
  rewrite (bind_ok _ _ _ _ _ (list_elems_ok _ _ _ Hlq)).
  rewrite (bind_ok _ _ _ _ _ (list_elems_ok _ _ _ Hld)).
  assert ((Z.of_nat (length qs) <? 1) || (Z.of_nat (length ds) <? 1) = false) as ->.
  { destruct qs, ds; try done. simpl length.
    apply orb_false_intro; apply Z.ltb_ge; lia. }
  fold (effective_top_n top_n ds).
  set (top_k := effective_top_n top_n ds).
  set (doc_texts := doc_text (heap w) <$> ds) in *.
  rewrite (bind_ok _ _ _ _ _ (doc_texts_ok _ _ Hdicts)). fold doc_texts.
  rewrite (bind_ok _ _ _ w () (guard_all_within _ _ _ Hdocs_in)).
  rewrite (bind_ok _ _ _ w () (guard_all_within _ _ _ Hqs_in)).
  unfold bind at 1. unfold encode_batch at 1.
  unfold bind at 1. unfold encode_batch at 1. simpl heap. simpl fs. simpl log.
  simpl encode_calls. rewrite <- app_assoc. simpl app.
  set (w1 := mkWorld (heap w) (fs w) (log w) _).
  unfold semantic_search, normalize_embeddings. rewrite list_comp_fmap.
  set (hitss := (λ q, top_hits q _ top_k) <$> _).
  destruct (alloc_hitss_ok hitss w1) as (locss & h1 & Hrun1 & Hnd & Hfresh & Hraw & Hframe1).
  rewrite (bind_ok _ _ _ _ _ Hrun1).
  set (w2 := with_heap h1 w1).
  (* the fix-up loops *)
  assert (Forall (is_dict h1) ds) as Hdicts1.
  { eapply Forall_impl; [exact Hdicts|]. intros v (l & d & -> & Hl).
    exists l, d. split; [done|]. rewrite Hframe1; [done|]. by apply elem_of_dom. }
  assert (Forall (λ hit, (hit.1 < length ds)%nat) (concat hitss)) as Hrange.
  { apply Forall_concat_2. unfold hitss. apply Forall_fmap, Forall_forall.
    intros q _. simpl.
    eapply Forall_impl; [apply top_hits_in_range|]. simpl. intros hit.
    unfold doc_texts. by rewrite !length_fmap. }
  destruct (fixup_all_ok ds return_documents return_text (concat locss) (concat hitss) w2)
    as (h2 & Hrun2 & Hfixed & Hframe2); [done|by apply Forall2_concat_2|done|done|].
  rewrite (bind_ok _ _ w2 (with_heap h2 w2) ()).
  2:{ by rewrite for_each_concat, refs_concat. }
  set (w3 := with_heap h2 w2).
  apply (Forall2_unconcat _ _ _ _ Hraw) in Hfixed.
  (* the response *)
  destruct (list_comp_reads_Forall2
              (λ qr : nat * list val,
                 query <- add_query qs return_queries qr.1 ;;
                 scores <- list_comp RerankScore_of_dict qr.2 ;;
                 ret (mkRerankQueryResult query scores))
              (query_result_matches self ds doc_texts top_k
                 return_documents return_queries return_text)
              (enumerate (refs <$> locss)) qs w3) as (results & Hrun3 & Hresults).
  { pose proof (Forall2_length _ _ _ Hfixed) as Hlen.
    unfold hitss in Hlen. rewrite !length_fmap in Hlen.
    apply Forall2_same_length_lookup_2.
    { unfold enumerate. rewrite length_zip_with, length_seq, length_fmap. lia. }
    intros i [j x] q Hx Hq.
    apply enumerate_lookup_inv in Hx as [-> Hx].
    apply list_lookup_fmap_Some in Hx as (locs & -> & Hlocs).
    assert (hitss !! i = Some (query_hits self doc_texts top_k q)) as Hhits.
    { unfold hitss. by rewrite !list_lookup_fmap, Hq. }
    pose proof (Forall2_lookup_lr _ _ _ _ _ _ Hfixed Hlocs Hhits) as Hfix.
    destruct (list_comp_reads_Forall2 RerankScore_of_dict
                (score_matches ds return_documents return_text)
                (refs locs) (query_hits self doc_texts top_k q) w3) as (scores & Hsc & Hm).
    { apply Forall2_fmap_l. eapply Forall2_impl; [exact Hfix|].
      simpl. intros l hit (d & Hl & Hd). by eapply RerankScore_of_dict_ok. }
    exists (mkRerankQueryResult (if return_queries then Some q else None) scores).
    split; [|done]. simpl.
    assert (add_query qs return_queries i w3
            = (Ok (if return_queries then Some q else None), w3)) as Hadd.
    { unfold add_query. destruct return_queries; [|done].
      by rewrite (bind_ok _ _ _ _ _ (list_getitem_ok _ _ _ w3 Hq)). }
    by rewrite (bind_ok _ _ _ _ _ Hadd), (bind_ok _ _ _ _ _ Hsc). }
  rewrite (bind_ok _ _ _ _ _ Hrun3).
  exists results, h2. split; [done|]. split; [|done].
  intros l Hl. rewrite Hframe2.
  - by apply Hframe1.
  - intros Hin. by eapply Forall_forall in Hfresh.
Qed.

(** *** Every way through [run_rerank_queries] *)

Lemma get_text_cases (w : World) (srd : val) :
  (∃ e, get_text srd w = (Raise e, w)) ∨ is_dict (heap w) srd.
Proof.
  destruct srd as [| | | | |l]; try (left; by eexists).
  destruct (heap w !! l) as [[d|vs]|] eqn:Hl.
  - right. by exists l, d.
  - left. exists (AttributeError "get").
    unfold get_text, dict_get, dict_entries, bind. by rewrite Hl.
  - left. exists (AttributeError "get").
    unfold get_text, dict_get, dict_entries, bind. by rewrite Hl.
Qed.

Lemma doc_texts_cases (w : World) (documents : list val) :
  (∃ e, list_comp get_text documents w = (Raise e, w))
  ∨ Forall (is_dict (heap w)) documents.
Proof.
  induction documents as [|d ds IH]; [right; constructor|].
  destruct (get_text_cases w d) as [[e He]|Hd].
  { left. exists e. simpl. by rewrite (bind_raise _ _ _ _ _ He). }
  destruct IH as [[e He]|IH]; [|right; by constructor].
  left. exists e. simpl.
  by rewrite (bind_ok _ _ _ _ _ (get_text_doc_text _ _ Hd)), (bind_raise _ _ _ _ _ He).
Qed.

Lemma guard_cases (self : TextEmbedding) (texts : list val) (w : World) :
  (∃ e, for_each (_prevent_truncation self) texts w = (Raise e, w))
  ∨ Forall (λ t, within_limit self t = true) texts.
Proof.
  induction texts as [|t ts [[e He]|IH]].
  - right. constructor.
  - left. simpl.
    assert (∃ r, _prevent_truncation self t w = (r, w)) as [[[]|e'] Ht].
    { unfold _prevent_truncation, lift, value_check, bind.
      destruct (tokenizer _ _); [|by eexists].
      destruct (_ <=? _); by eexists. }
    + exists e. by rewrite (bind_ok _ _ _ _ _ Ht).
    + exists e'. by rewrite (bind_raise _ _ _ _ _ Ht).
  - destruct (within_limit self t) eqn:Hin; [right; by constructor|].
    left. simpl.
    assert (∃ e, _prevent_truncation self t w = (Raise e, w)) as [e Ht].
    { revert Hin. unfold within_limit, token_count, _prevent_truncation, lift,
        value_check, bind.
      destruct (tokenizer _ _); [|by eexists].
      intros ->. by eexists. }
    exists e. by rewrite (bind_raise _ _ _ _ _ Ht).
Qed.

(** Either the call leaves the world as it found it, or it is a call on
    two non-empty lists of dict records whose texts all pass the guard. *)
Lemma run_rerank_queries_cases (self : TextEmbedding) (queries documents : val)
    (top_n : option Z) (return_documents return_queries return_text : bool)
    (w : World) :
  (run_rerank_queries self queries documents top_n
                      return_documents return_queries return_text w).2 = w
  ∨ ∃ lq ld qs ds,
      queries = PRef lq ∧ documents = PRef ld
      ∧ heap w !! lq = Some (OList qs) ∧ heap w !! ld = Some (OList ds)
      ∧ qs ≠ [] ∧ ds ≠ []
      ∧ Forall (is_dict (heap w)) ds
      ∧ Forall (λ t, within_limit self t = true) (doc_text (heap w) <$> ds)
      ∧ Forall (λ q, within_limit self q = true) qs.
Proof.
  unfold run_rerank_queries.
  destruct queries as [| | | | |lq]; try by left.
  destruct (heap w !! lq) as [[?|qs]|] eqn:Hlq;
    try (left; unfold bind, is_list; by rewrite Hlq).
  rewrite (bind_ok _ _ _ _ _ (is_list_ok _ _ _ Hlq)).
  destruct documents as [| | | | |ld]; try by left.
  destruct (heap w !! ld) as [[?|ds]|] eqn:Hld;
    try (left; unfold bind, is_list; by rewrite Hld).
  rewrite (bind_ok _ _ _ _ _ (is_list_ok _ _ _ Hld)).
  simpl type_check. rewrite (bind_ok _ _ _ w () eq_refl).
  rewrite (bind_ok _ _ _ _ _ (list_elems_ok _ _ _ Hlq)).
  rewrite (bind_ok _ _ _ _ _ (list_elems_ok _ _ _ Hld)).
  destruct ds as [|d ds].
  { left. change (Z.of_nat (length []) <? 1) with true. by rewrite orb_true_r. }
  destruct qs as [|q qs]; [by left|].
  assert ((Z.of_nat (length (q :: qs)) <? 1)
          || (Z.of_nat (length (d :: ds)) <? 1) = false) as ->.
  { simpl length. apply orb_false_intro; apply Z.ltb_ge; lia. }
  destruct (doc_texts_cases w (d :: ds)) as [[e He]|Hdicts].
  { left. by rewrite (bind_raise _ _ _ _ _ He). }
  rewrite (bind_ok _ _ _ _ _ (doc_texts_ok _ _ Hdicts)).
  destruct (guard_cases self (doc_text (heap w) <$> d :: ds) w) as [[e He]|Hdocs].
  { left. by rewrite (bind_raise _ _ _ _ _ He). }
  rewrite (bind_ok _ _ _ w () (guard_all_within _ _ _ Hdocs)).
  destruct (guard_cases self (q :: qs) w) as [[e He]|Hqs].
  { left. by rewrite (bind_raise _ _ _ _ _ He). }
  right. by exists lq, ld, (q :: qs), (d :: ds).
Qed.

(** C10. Every object that exists when [run_rerank_queries] is called —
    the queries list, the documents list, every document record — is the
    same object with the same contents when the call ends, however it
    ends: the renaming of corpus_id to index and the attachment of document
    and text are writes to the result dicts [semantic_search] has just
    created. *)
Theorem run_rerank_queries_inputs_unmodified (self : TextEmbedding)
    (queries documents : val) (top_n : option Z)
    (return_documents return_queries return_text : bool) (w : World) (l : loc) :
  l ∈ dom (heap w) →
  heap (run_rerank_queries self queries documents top_n
          return_documents return_queries return_text w).2 !! l
  = heap w !! l.
Proof.
  intros Hl.
  destruct (run_rerank_queries_cases self queries documents top_n
              return_documents return_queries return_text w)
    as [->|(lq & ld & qs & ds & -> & -> & Hlq & Hld & Hqs & Hds & Hdicts & Hdocs & Hin)];
    [done|].
  destruct (run_rerank_queries_ok self lq ld qs ds top_n
              return_documents return_queries return_text w)
    as (results & h' & -> & Hframe & _); try done.
  by apply Hframe.
Qed.

(** *** Empty input *)

Lemma run_rerank_queries_empty (self : TextEmbedding) (lq ld : loc) (qs ds : list val)
    (top_n : option Z) (return_documents return_queries return_text : bool)
    (w : World) :
  heap w !! lq = Some (OList qs) →
  heap w !! ld = Some (OList ds) →
  qs = [] ∨ ds = [] →
  run_rerank_queries self (PRef lq) (PRef ld) top_n
                     return_documents return_queries return_text w
  = (Ok (mkRerankPrediction []), w).
Proof.
  intros Hlq Hld Hempty. unfold run_rerank_queries.
  rewrite (bind_ok _ _ _ _ _ (is_list_ok _ _ _ Hlq)).
  rewrite (bind_ok _ _ _ _ _ (is_list_ok _ _ _ Hld)).
  simpl type_check. rewrite (bind_ok _ _ _ w () eq_refl).
  rewrite (bind_ok _ _ _ _ _ (list_elems_ok _ _ _ Hlq)).
  rewrite (bind_ok _ _ _ _ _ (list_elems_ok _ _ _ Hld)).
  destruct Hempty as [->| ->]; [done|].
  change (Z.of_nat (length []) <? 1) with true. by rewrite orb_true_r.
Qed.

Lemma run_rerank_query_unfold (self : TextEmbedding) (query : string) (documents : val)
    (top_n : option Z) (return_documents return_query return_text : bool) (w : World) :
  run_rerank_query self (PStr query) documents top_n
                   return_documents return_query return_text w
  = (prediction <- run_rerank_queries self (PRef (fresh (dom (heap w)))) documents top_n
                     return_documents return_query return_text ;;
     match RerankPrediction_results prediction with
     | r :: _ => ret r
     | [] => ret (mkRerankQueryResult
                    (if return_query then Some (PStr query) else None) [])
     end) (with_query_list (PStr query) w).
Proof. done. Qed.

(** C4. With an empty queries list or an empty documents list
    [run_rerank_queries] returns the empty result set, raises nothing and
    leaves the world, the trace of encoder calls included, as it was.
    [run_rerank_query] on a string query whose call to [run_rerank_queries]
    yields no per-query result returns one result with an empty score list
    and the query echoed iff [return_query]; so it does on an empty
    documents list, without a call to the encoder. *)
Theorem rerank_empty_input (self : TextEmbedding) (lq ld : loc) (qs ds : list val)
    (top_n : option Z) (return_documents return_queries return_text : bool)
    (w : World) :
  heap w !! lq = Some (OList qs) →
  heap w !! ld = Some (OList ds) →
  qs = [] ∨ ds = [] →
  run_rerank_queries self (PRef lq) (PRef ld) top_n
                     return_documents return_queries return_text w
  = (Ok (mkRerankPrediction []), w)
  ∧ (∀ (query : string) (documents : val) (w0 w' : World),
       run_rerank_queries self (PRef (fresh (dom (heap w0)))) documents top_n
                          return_documents return_queries return_text
                          (with_query_list (PStr query) w0)
       = (Ok (mkRerankPrediction []), w') →
       run_rerank_query self (PStr query) documents top_n
                        return_documents return_queries return_text w0
       = (Ok (mkRerankQueryResult
                (if return_queries then Some (PStr query) else None) []), w'))
  ∧ (∀ query : string,
       ds = [] →
       ∃ w', run_rerank_query self (PStr query) (PRef ld) top_n
                              return_documents return_queries return_text w
             = (Ok (mkRerankQueryResult
                      (if return_queries then Some (PStr query) else None) []), w')
             ∧ encode_calls w' = encode_calls w).
Proof.
  intros Hlq Hld Hempty.
  split; [by eapply run_rerank_queries_empty|]. split.
  - intros query documents w0 w' Hrun. rewrite run_rerank_query_unfold.
    by rewrite (bind_ok _ _ _ _ _ Hrun).
  - intros query ->. exists (with_query_list (PStr query) w).
    split; [|done]. rewrite run_rerank_query_unfold.
    rewrite (bind_ok _ _ _ (with_query_list (PStr query) w) (mkRerankPrediction []));
      [done|].
    eapply run_rerank_queries_empty; [apply lookup_insert_eq| |by right].
    simpl. rewrite lookup_insert_ne; [done|].
    intros Heq. pose proof (is_fresh (dom (heap w))) as Hfresh.
    rewrite Heq in Hfresh. apply Hfresh. by apply elem_of_dom.
Qed.

(** *** Lengths and order of the rerank results *)

Lemma score_matches_scores (documents : list val) (return_documents return_text : bool)
    (scores : list (RerankScore float)) (hits : list (nat * float)) :
  Forall2 (score_matches documents return_documents return_text) scores hits →
  RerankScore_score <$> scores = hits.*2.
Proof.
  induction 1 as [|sc hit scores hits (_ & Hs & _) _ IH]; [done|].
  rewrite !fmap_cons. by rewrite Hs, IH.
Qed.

Lemma length_query_hits (self : TextEmbedding) (doc_texts : list val) (top_k : Z) (q : val) :
  length (query_hits self doc_texts top_k q) = (Z.to_nat top_k `min` length doc_texts)%nat.
Proof. unfold query_hits. by rewrite length_top_hits, !length_fmap. Qed.

Lemma query_hits_sorted (self : TextEmbedding) (qs doc_texts : list val) (top_k : Z)
    (q : val) :
  comparable_scores self qs doc_texts → q ∈ qs →
  non_increasing ((query_hits self doc_texts top_k q).*2).
Proof.
  intros Hcmp Hq. unfold query_hits. apply top_hits_sorted. intros d d' Hd Hd'.
  apply list_elem_of_fmap in Hd as (e & -> & He).
  apply list_elem_of_fmap in He as (t & -> & Ht).
  apply list_elem_of_fmap in Hd' as (e' & -> & He').
  apply list_elem_of_fmap in He' as (t' & -> & Ht').
  by apply (Hcmp q t t').
Qed.

(** C3, as the code has it. On a non-empty queries list and a non-empty
    documents list of dict records whose texts all pass the truncation
    guard, [run_rerank_queries] returns one result per query; with [top_n]
    unset or below 1 each result has one score for every document, with
    [top_n] at least 1 it has exactly min(top_n, number of documents)
    scores; in every case there are at most as many scores as documents and,
    when [top_n] is at least 1, at most [top_n].  When no score of the
    request is NaN, the scores of every result are in non-increasing
    order. *)
Theorem run_rerank_queries_top_n (self : TextEmbedding) (lq ld : loc) (qs ds : list val)
    (top_n : option Z) (return_documents return_queries return_text : bool)
    (w : World) :
  heap w !! lq = Some (OList qs) →
  heap w !! ld = Some (OList ds) →
  qs ≠ [] → ds ≠ [] →
  Forall (is_dict (heap w)) ds →
  Forall (λ t, within_limit self t = true) (doc_text (heap w) <$> ds) →
  Forall (λ q, within_limit self q = true) qs →
  ∃ results w',
    run_rerank_queries self (PRef lq) (PRef ld) top_n
                       return_documents return_queries return_text w
    = (Ok (mkRerankPrediction results), w')
    ∧ length results = length qs
    ∧ Forall (λ r,
        let n := Z.of_nat (length (RerankQueryResult_scores r)) in
        match top_n with
        | None => n = Z.of_nat (length ds)
        | Some k => if k <? 1 then n = Z.of_nat (length ds)
                    else n = Z.min k (Z.of_nat (length ds))
        end
        ∧ n ≤ Z.of_nat (length ds)
        ∧ ∀ k, top_n = Some k → 1 ≤ k → n ≤ k) results
    ∧ (comparable_scores self qs (doc_text (heap w) <$> ds) →
       Forall (λ r, non_increasing (RerankScore_score <$> RerankQueryResult_scores r))
              results).
Proof.
  intros Hlq Hld Hqs Hds Hdicts Hdocs Hin.
  destruct (run_rerank_queries_ok self lq ld qs ds top_n
              return_documents return_queries return_text w)
    as (results & h' & Hrun & _ & Hres); try done.
  exists results. eexists. split; [exact Hrun|].
  split; [by eapply Forall2_length|]. split.
  - apply Forall_forall. intros r Hr.
    apply list_elem_of_lookup in Hr as [i Hi].
    destruct (Forall2_lookup_l _ _ _ _ _ Hres Hi) as (q & _ & _ & Hscores).
    pose proof (Forall2_length _ _ _ Hscores) as Hlen.
    rewrite length_query_hits, length_fmap in Hlen.
    assert (Z.of_nat (length (RerankQueryResult_scores r))
            = Z.min (effective_top_n top_n ds) (Z.of_nat (length ds))) as Hn.
    { rewrite Hlen. unfold effective_top_n.
      destruct top_n as [k|]; [destruct (Z.ltb_spec k 1)|]; lia. }
    simpl. rewrite Hn. unfold effective_top_n. repeat split.
    + destruct top_n as [k|]; [destruct (Z.ltb_spec k 1)|]; lia.
    + lia.
    + intros k -> Hk. destruct (Z.ltb_spec k 1); lia.
  - intros Hcmp. apply Forall_forall. intros r Hr.
    apply list_elem_of_lookup in Hr as [i Hi].
    destruct (Forall2_lookup_l _ _ _ _ _ Hres Hi) as (q & Hq & _ & Hscores).
    rewrite (score_matches_scores _ _ _ _ _ Hscores).
    eapply query_hits_sorted; [exact Hcmp|]. by eapply list_elem_of_lookup_2.
Qed.

(** *** Every operation applies the guard to every text *)

Lemma for_each_app_bind {A} (body : A → M unit) (xs ys : list A) (w : World) :
  for_each body (xs ++ ys) w = (for_each body xs ;; for_each body ys) w.
Proof.
  destruct (for_each body xs w) as [[[]|e] w1] eqn:Hxs.
  - by rewrite (for_each_app _ _ _ _ _ Hxs), (bind_ok _ _ _ _ _ Hxs).
  - by rewrite (for_each_app_raise _ _ _ _ _ _ Hxs), (bind_raise _ _ _ _ _ Hxs).
Qed.

Lemma bind_raise_prefix {A B} (c1 : M A) (c2 : M unit) (k : M B) (w w' : World) (e : exn) :
  (c1 ;; c2) w = (Raise e, w') → (c1 ;; c2 ;; k) w = (Raise e, w').
Proof.
  unfold bind. destruct (c1 w) as [[a|e1] w1]; [|by intros [= -> ->]].
  destruct (c2 w1) as [[[]|e2] w2]; [done|by intros [= -> ->]].
Qed.

Lemma rejected_raise {A} (c : M A) (w w' : World) (msg : string) :
  c w = (Raise (ValueError "<NLP08391926E>" msg), w') →
  encode_calls w' = encode_calls w →
  rejected c w.
Proof. intros Hc Hcalls. unfold rejected. by rewrite Hc. Qed.

Lemma run_embedding_ok (self : TextEmbedding) (text : string) (w : World) :
  within_limit self (PStr text) = true →
  run_embedding self (PStr text) w
  = (Ok (mkVector1D (embed (model self) (PStr text))), encoded [EncodeOne (PStr text)] w).
Proof.
  intros Hin. unfold run_embedding. simpl type_check.
  rewrite (bind_ok _ _ _ w () eq_refl).
  by rewrite (bind_ok _ _ _ w () (prevent_truncation_within _ _ _ Hin)).
Qed.

Lemma run_sentence_similarities_ok (self : TextEmbedding)
    (source_sentences sentences : list string) (w : World) :
  Forall (λ s, within_limit self (PStr s) = true) source_sentences →
  Forall (λ s, within_limit self (PStr s) = true) sentences →
  run_sentence_similarities self source_sentences sentences w =
    (Ok (mkSentenceListScores
           ((λ a, mkSentenceScores
                    ((λ c, cos (embed (model self) (PStr a))
                               (embed (model self) (PStr c))) <$> sentences))
              <$> source_sentences)),
     encoded [EncodeBatch (PStr <$> source_sentences); EncodeBatch (PStr <$> sentences)] w).
Proof.
  intros Hsrc Hin. unfold run_sentence_similarities. rewrite !(for_each_fmap PStr (_prevent_truncation self)).
  rewrite (bind_ok _ _ _ w ()); [|apply guard_all_within; by apply Forall_fmap].
  rewrite (bind_ok _ _ _ w ()); [|apply guard_all_within; by apply Forall_fmap].
  unfold bind, encode_batch, ret, cos_sim, encoded; simpl.
  rewrite <- app_assoc. do 3 f_equal.
  rewrite <- !list_fmap_compose. apply list_fmap_ext. intros i a _. simpl.
  by rewrite <- !list_fmap_compose.
Qed.

Lemma run_rerank_queries_rejected (self : TextEmbedding) (lq ld : loc) (qs ds : list val)
    (top_n : option Z) (return_documents return_queries return_text : bool)
    (w : World) :
  heap w !! lq = Some (OList qs) →
  heap w !! ld = Some (OList ds) →
  qs ≠ [] → ds ≠ [] →
  Forall (is_dict (heap w)) ds →
  Forall (λ t, tokenizable self t = true) ((doc_text (heap w) <$> ds) ++ qs) →
  Exists (λ t, exceeds_limit self t = true) ((doc_text (heap w) <$> ds) ++ qs) →
  ∃ msg, run_rerank_queries self (PRef lq) (PRef ld) top_n
                            return_documents return_queries return_text w
         = (Raise (ValueError "<NLP08391926E>" msg), w).
Proof.
  intros Hlq Hld Hqs Hds Hdicts Htok Hex.
  destruct (guard_some_exceeds self _ w Htok Hex) as [msg Hguard].
  exists msg. unfold run_rerank_queries.
  rewrite (bind_ok _ _ _ _ _ (is_list_ok _ _ _ Hlq)).
  rewrite (bind_ok _ _ _ _ _ (is_list_ok _ _ _ Hld)).
  simpl type_check. rewrite (bind_ok _ _ _ w () eq_refl).
  rewrite (bind_ok _ _ _ _ _ (list_elems_ok _ _ _ Hlq)).
  rewrite (bind_ok _ _ _ _ _ (list_elems_ok _ _ _ Hld)).
  assert ((Z.of_nat (length qs) <? 1) || (Z.of_nat (length ds) <? 1) = false) as ->.
  { destruct qs, ds; try done. simpl length.
    apply orb_false_intro; apply Z.ltb_ge; lia. }
  rewrite (bind_ok _ _ _ _ _ (doc_texts_ok _ _ Hdicts)).
  apply bind_raise_prefix. by rewrite <- for_each_app_bind.
Qed.

(** The one-element list [run_rerank_query] creates changes nothing for the
    documents. *)
Lemma truthy_in_query_list (h : gmap loc (obj float)) (l0 : loc) (x v : val) :
  h !! l0 = None → truthy_in (<[l0 := OList [x]]> h) v = truthy_in h v.
Proof.
  intros Hnone. destruct v as [| | | | |l]; try done. simpl.
  destruct (decide (l0 = l)) as [->|Hne].
  - by rewrite lookup_insert_eq, Hnone.
  - by rewrite lookup_insert_ne.
Qed.

Lemma doc_text_query_list (h : gmap loc (obj float)) (l0 : loc) (x srd : val) :
  h !! l0 = None → is_dict h srd →
  doc_text (<[l0 := OList [x]]> h) srd = doc_text h srd.
Proof.
  intros Hnone (l & d & -> & Hl). unfold doc_text.
  rewrite lookup_insert_ne by (intros ->; congruence).
  by rewrite Hl, truthy_in_query_list.
Qed.

Lemma is_dict_query_list (h : gmap loc (obj float)) (l0 : loc) (x srd : val) :
  h !! l0 = None → is_dict h srd → is_dict (<[l0 := OList [x]]> h) srd.
Proof.
  intros Hnone (l & d & -> & Hl). exists l, d. split; [done|].
  rewrite lookup_insert_ne; [done|]. intros ->. congruence.
Qed.

Lemma fresh_lookup_None (h : gmap loc (obj float)) : h !! fresh (dom h) = None.
Proof. apply not_elem_of_dom, is_fresh. Qed.

Lemma doc_texts_query_list (h : gmap loc (obj float)) (x : val) (ds : list val) :
  Forall (is_dict h) ds →
  doc_text (<[fresh (dom h) := OList [x]]> h) <$> ds = doc_text h <$> ds.
Proof.
  intros Hd. apply list_fmap_ext. intros i d Hi.
  apply doc_text_query_list; [apply fresh_lookup_None|].
  eapply Forall_forall; [exact Hd|]. by eapply list_elem_of_lookup_2.
Qed.

Lemma documents_query_list (h : gmap loc (obj float)) (x : val) (ld : loc) (ds : list val) :
  h !! ld = Some (OList ds) →
  <[fresh (dom h) := OList [x]]> h !! ld = Some (OList ds).
Proof.
  intros Hld. rewrite lookup_insert_ne; [done|].
  intros Heq. pose proof (fresh_lookup_None h) as Hnone. congruence.
Qed.

Lemma run_rerank_query_rejected (self : TextEmbedding) (query : string) (ld : loc)
    (ds : list val) (top_n : option Z)
    (return_documents return_query return_text : bool) (w : World) :
  heap w !! ld = Some (OList ds) →
  ds ≠ [] →
  Forall (is_dict (heap w)) ds →
  Forall (λ t, tokenizable self t = true) ((doc_text (heap w) <$> ds) ++ [PStr query]) →
  Exists (λ t, exceeds_limit self t = true) ((doc_text (heap w) <$> ds) ++ [PStr query]) →
  ∃ msg, run_rerank_query self (PStr query) (PRef ld) top_n
                          return_documents return_query return_text w
         = (Raise (ValueError "<NLP08391926E>" msg), with_query_list (PStr query) w).
Proof.
  intros Hld Hds Hdicts Htok Hex.
  destruct (run_rerank_queries_rejected self (fresh (dom (heap w))) ld [PStr query] ds
              top_n return_documents return_query return_text
              (with_query_list (PStr query) w)) as [msg Hrun]; simpl.
  - apply lookup_insert_eq.
  - by apply documents_query_list.
  - done.
  - done.
  - eapply Forall_impl; [exact Hdicts|]. intros d.
    apply is_dict_query_list, fresh_lookup_None.
  - by rewrite doc_texts_query_list.
  - by rewrite doc_texts_query_list.
  - exists msg. rewrite run_rerank_query_unfold.
    by rewrite (bind_raise _ _ _ _ _ Hrun).
Qed.

Lemma run_rerank_query_returns (self : TextEmbedding) (query : string) (ld : loc)
    (ds : list val) (top_n : option Z)
    (return_documents return_query return_text : bool) (w : World) :
  heap w !! ld = Some (OList ds) →
  Forall (is_dict (heap w)) ds →
  Forall (λ t, within_limit self t = true) ((doc_text (heap w) <$> ds) ++ [PStr query]) →
  ∃ r w', run_rerank_query self (PStr query) (PRef ld) top_n
                           return_documents return_query return_text w
          = (Ok r, w').
Proof.
  intros Hld Hdicts Hin. rewrite run_rerank_query_unfold.
  apply Forall_app in Hin as [Hdocs Hq].
  destruct ds as [|d ds].
  - rewrite (bind_ok _ _ _ (with_query_list (PStr query) w) (mkRerankPrediction []));
      [by eexists _, _|].
    eapply run_rerank_queries_empty;
      [apply lookup_insert_eq|by apply documents_query_list|by right].
  - destruct (run_rerank_queries_ok self (fresh (dom (heap w))) ld [PStr query] (d :: ds)
                top_n return_documents return_query return_text
                (with_query_list (PStr query) w))
      as (results & h' & Hrun & _); simpl.
    + apply lookup_insert_eq.
    + by apply documents_query_list.
    + done.
    + done.
    + eapply Forall_impl; [exact Hdicts|]. intros d'.
      apply is_dict_query_list, fresh_lookup_None.
    + rewrite <- !fmap_cons. by rewrite doc_texts_query_list.
    + done.
    + rewrite (bind_ok _ _ _ _ _ Hrun). simpl.
      destruct results; by eexists _, _.
Qed.

(** C1, as the code has it. Every operation submits every one of its text
    arguments to the truncation guard, the rerank operations once they have
    found that neither the queries list nor the documents list is empty
    (with an empty list they return before any text is looked at).  When
    the tokenizer yields a token count for every text of the request and
    some count exceeds the model's maximum sequence length, the request is
    rejected with the value-validation error <NLP08391926E> and the encoder
    is not called; when every text is within the limit the guard raises
    nothing and the operation returns. *)
Theorem truncation_guard (self : TextEmbedding) (req : request) (w : World) :
  well_formed (heap w) req →
  (nonempty_lists (heap w) req →
   Forall (λ t, tokenizable self t = true) (text_arguments (heap w) req) →
   Exists (λ t, exceeds_limit self t = true) (text_arguments (heap w) req) →
   rejected (dispatch self req) w)
  ∧ (Forall (λ t, within_limit self t = true) (text_arguments (heap w) req) →
     for_each (_prevent_truncation self) (text_arguments (heap w) req) w = (Ok (), w)
     ∧ ∃ resp w', dispatch self req w = (Ok resp, w')).
Proof.
  intros Hwf. split.
  - intros Hne Htok Hex.
    destruct req as [text|[s|texts]|src sentences|srcs sentences
                    |queries documents top_n rd rq rt|query documents top_n rd rq rt];
      simpl in *.
    + destruct (guard_some_exceeds self _ w Htok Hex) as [msg Hg].
      apply (rejected_raise _ w w msg); [|done].
      apply bind_raise. unfold run_embedding. simpl type_check.
      rewrite (bind_ok _ _ _ w () eq_refl).
      apply bind_raise. simpl in Hg. revert Hg. unfold bind, ret.
      destruct (_prevent_truncation self (PStr text) w) as [[[]|e] w1]; [done|].
      by intros [= -> ->].
    + destruct (guard_some_exceeds self _ w Htok Hex) as [msg Hg].
      apply (rejected_raise _ w w msg); [|done].
      apply bind_raise. unfold run_embeddings. by apply bind_raise.
    + destruct (guard_some_exceeds self _ w Htok Hex) as [msg Hg].
      apply (rejected_raise _ w w msg); [|done].
      apply bind_raise. unfold run_embeddings. rewrite (for_each_fmap PStr (_prevent_truncation self)).
      by apply bind_raise.
    + destruct (guard_some_exceeds self _ w Htok Hex) as [msg Hg].
      apply (rejected_raise _ w w msg); [|done].
      apply bind_raise. unfold run_sentence_similarity. rewrite (for_each_fmap PStr (_prevent_truncation self)).
      by apply bind_raise_prefix.
    + destruct (guard_some_exceeds self _ w Htok Hex) as [msg Hg].
      apply (rejected_raise _ w w msg); [|done].
      apply bind_raise. unfold run_sentence_similarities. rewrite !(for_each_fmap PStr (_prevent_truncation self)).
      apply bind_raise_prefix. by rewrite <- for_each_app_bind.
    + destruct Hwf as ((lq & qs & -> & Hlq) & (ld & ds & -> & Hld) & Hdicts).
      simpl in *. rewrite Hlq, Hld in *. destruct Hne as [Hqs Hds].
      destruct (run_rerank_queries_rejected self lq ld qs ds top_n rd rq rt w)
        as [msg Hrun]; try done.
      apply (rejected_raise _ w w msg); [|done]. by apply bind_raise.
    + destruct Hwf as ((ld & ds & -> & Hld) & Hdicts).
      simpl in *. rewrite Hld in *.
      destruct (run_rerank_query_rejected self query ld ds top_n rd rq rt w)
        as [msg Hrun]; try done.
      apply (rejected_raise _ w (with_query_list (PStr query) w) msg); [|done].
      by apply bind_raise.
  - intros Hin. split; [by apply guard_all_within|].
    destruct req as [text|[s|texts]|src sentences|srcs sentences
                    |queries documents top_n rd rq rt|query documents top_n rd rq rt];
      simpl in *.
    + apply Forall_cons in Hin as [Hin _].
      eexists _, _. by rewrite (bind_ok _ _ _ _ _ (run_embedding_ok _ _ _ Hin)).
    + apply Forall_cons in Hin as [Hin _].
      assert (Forall (λ s, within_limit self (PStr s) = true) [s]) as Hs
        by by constructor.
      eexists _, _.
      by rewrite (bind_ok _ _ _ _ _ (run_embeddings_ok self [s] w Hs)).
    + apply Forall_fmap in Hin. eexists _, _.
      by rewrite (bind_ok _ _ _ _ _ (run_embeddings_ok self texts w Hin)).
    + apply Forall_cons in Hin as [Hsrc Hin]. apply Forall_fmap in Hin.
      eexists _, _.
      by rewrite (bind_ok _ _ _ _ _ (run_sentence_similarity_ok _ _ _ w Hsrc Hin)).
    + apply Forall_app in Hin as [Hsrc Hin].
      apply Forall_fmap in Hsrc. apply Forall_fmap in Hin.
      eexists _, _.
      by rewrite (bind_ok _ _ _ _ _ (run_sentence_similarities_ok _ _ _ w Hsrc Hin)).
    + destruct Hwf as ((lq & qs & -> & Hlq) & (ld & ds & -> & Hld) & Hdicts).
      simpl in *. rewrite Hlq, Hld in *.
      apply Forall_app in Hin as [Hdocs Hqs].
      destruct (decide (qs = [] ∨ ds = [])) as [Hempty|Hne].
      * eexists _, _.
        by rewrite (bind_ok _ _ _ _ _
                      (run_rerank_queries_empty self lq ld qs ds top_n rd rq rt w
                         Hlq Hld Hempty)).
      * destruct (run_rerank_queries_ok self lq ld qs ds top_n rd rq rt w)
          as (results & h' & Hrun & _); try done.
        { intros ->. apply Hne. by left. }
        { intros ->. apply Hne. by right. }
        eexists _, _. by rewrite (bind_ok _ _ _ _ _ Hrun).
    + destruct Hwf as ((ld & ds & -> & Hld) & Hdicts).
      simpl in *. rewrite Hld in *.
      destruct (run_rerank_query_returns self query ld ds top_n rd rq rt w)
        as (r & w' & Hrun); try done.
      eexists _, _. by rewrite (bind_ok _ _ _ _ _ Hrun).
Qed.

(** *** Load, optimize, save *)

Lemma optimize_compile_raises (m m' : Model) (w : World) (e : exn) :
  (if IPEX_OPTIMIZE then ipex_optimize m = Ok m' else m' = m) →
  PT2_COMPILE = true →
  torch_compile m' selected_backend "max-autotune" = Raise e →
  is_Exception e = true →
  _optimize m w = (Ok m', warned (compile_warning e) w).
Proof.
  unfold _optimize, selected_backend, bind, lift, ret, try_except, logger_warn, warned.
  intros Hipex -> Hcompile Hexc.
  destruct IPEX_OPTIMIZE.
  - rewrite Hipex. simpl. by rewrite Hcompile, Hexc.
  - subst m'. destruct USE_MPS; simpl; by rewrite Hcompile, Hexc.
Qed.

(** C2, as the code has it. An exception (an instance of [Exception])
    raised by the ahead-of-time compilation during load is caught and logged
    as a warning, and load completes, returning a handle on the model that
    was handed to the compiler; a compilation failure never makes load
    raise. *)
Theorem load_survives_compile_failure (model_path : string) (m m' : Model)
    (w w1 : World) (e : exn) :
  load_model model_path w = (Ok m, w1) →
  (if IPEX_OPTIMIZE then ipex_optimize m = Ok m' else m' = m) →
  PT2_COMPILE = true →
  torch_compile m' selected_backend "max-autotune" = Raise e →
  is_Exception e = true →
  _optimize m w1 = (Ok m', warned (compile_warning e) w1)
  ∧ load model_path w = (Ok (cls m'), warned (compile_warning e) w1).
Proof.
  intros Hmodel Hipex Hpt2 Hcompile Hexc.
  pose proof (optimize_compile_raises m m' w1 e Hipex Hpt2 Hcompile Hexc) as Hopt.
  split; [done|]. unfold load.
  by rewrite (bind_ok _ _ _ _ _ Hmodel), (bind_ok _ _ _ _ _ Hopt).
Qed.

(** C9. When the config record of the artifact directory lacks the
    artifacts_path key, load fails with the configuration error
    <NLP07391618E> (model config missing 'artifacts_path'); when the key
    names a subdirectory that does not exist, load fails with the
    file-system error <NLP34197772E> (file not found).  Either way load
    raises, so no handle is produced, and the world is as it was. *)
Theorem load_missing_artifacts (model_path : string) (config : ModuleConfig float)
    (w : World) :
  ModuleConfig_load model_path (fs w) = Ok config →
  (config_entries config !! _ARTIFACTS_PATH_KEY = None →
   load model_path w
   = (Raise (ValueError "<NLP07391618E>" "Model config missing 'artifacts_path'"), w))
  ∧ (∀ a : string,
       config_entries config !! _ARTIFACTS_PATH_KEY = Some (PStr a) →
       a ≠ "" →
       fs w !! os_path_join (config_model_path config) a = None →
       load model_path w
       = (Raise (FileNotFoundError "<NLP34197772E>"
                   (os_path_join (config_model_path config) a)), w)).
Proof.
  intros Hconfig. split.
  - intros Hkey. unfold load. apply bind_raise. unfold load_model.
    rewrite (bind_ok _ _ w w config) by (unfold fs_read; by rewrite Hconfig).
    by rewrite Hkey.
  - intros a Hkey Ha Hmissing. unfold load. apply bind_raise. unfold load_model.
    rewrite (bind_ok _ _ w w config) by (unfold fs_read; by rewrite Hconfig).
    rewrite Hkey. simpl default.
    rewrite (bind_ok _ _ w w true).
    2:{ unfold truthy. simpl. by rewrite bool_decide_eq_false_2. }
    simpl value_check. rewrite (bind_ok _ _ _ w () eq_refl).
    rewrite (bind_ok _ _ w w (os_path_join (config_model_path config) a) eq_refl).
    apply bind_raise. unfold dir_check. by rewrite Hmissing.
Qed.


(** *** The exact response of [run_rerank_queries] *)

Lemma truthy_in_extends (h0 h : gmap loc (obj float)) (v : val) :
  extends_by_results h0 h → truthy_in h v = truthy_in h0 v.
Proof.
  intros [Hframe Hnew]. destruct v as [| | | | |l]; try done. simpl.
  destruct (h0 !! l) as [o|] eqn:Hl0.
  - rewrite Hframe by by apply elem_of_dom. by rewrite Hl0.
  - destruct (h !! l) as [o|] eqn:Hl; [|done].
    destruct (Hnew l o Hl0 Hl) as (d & -> & Hd). by rewrite bool_decide_eq_false_2.
Qed.

Lemma is_dict_extends (h0 h : gmap loc (obj float)) (srd : val) :
  extends_by_results h0 h → is_dict h0 srd → is_dict h srd.
Proof.
  intros [Hframe _] (l & d & -> & Hl). exists l, d. split; [done|].
  rewrite Hframe; [done|]. by apply elem_of_dom.
Qed.

Lemma doc_text_extends (h0 h : gmap loc (obj float)) (srd : val) :
  extends_by_results h0 h → is_dict h0 srd → doc_text h srd = doc_text h0 srd.
Proof.
  intros Hext (l & d & -> & Hl). unfold doc_text.
  rewrite (proj1 Hext l) by by apply elem_of_dom.
  by rewrite Hl, (truthy_in_extends h0 h).
Qed.

Lemma extends_by_results_refl (h0 : gmap loc (obj float)) : extends_by_results h0 h0.
Proof. split; [done|]. intros l o Hnone Hsome. congruence. Qed.

Lemma extends_by_results_insert (h0 h : gmap loc (obj float)) (l : loc)
    (d : gmap string val) :
  extends_by_results h0 h → h0 !! l = None → d ≠ ∅ →
  extends_by_results h0 (<[l := ODict d]> h).
Proof.
  intros [Hframe Hnew] Hl Hd. split.
  - intros l' Hl'. rewrite lookup_insert_ne; [by apply Hframe|].
    intros ->. apply elem_of_dom in Hl' as [o Ho]. congruence.
  - intros l' o Hl0. destruct (decide (l = l')) as [->|Hne].
    + rewrite lookup_insert_eq. intros [= <-]. by exists d.
    + rewrite lookup_insert_ne by done. by apply Hnew.
Qed.

Lemma hit_dict_nonempty (hit : nat * float) : hit_dict hit ≠ ∅.
Proof.
  intros Heq. assert (hit_dict hit !! "score" = None) as Hs by by rewrite Heq.
  by vm_compute in Hs.
Qed.

Lemma fixed_entries_score (documents doc_texts : list val)
    (return_documents return_text : bool) (hit : nat * float) :
  fixed_entries documents doc_texts return_documents return_text hit !! "score"
  = Some (PFloat hit.2).
Proof.
  unfold fixed_entries, opt_insert, hit_dict.
  by destruct (if return_text then _ else _), (if return_documents then _ else _).
Qed.

Lemma fixed_entries_nonempty (documents doc_texts : list val)
    (return_documents return_text : bool) (hit : nat * float) :
  fixed_entries documents doc_texts return_documents return_text hit ≠ ∅.
Proof.
  intros Heq.
  pose proof (fixed_entries_score documents doc_texts return_documents return_text hit)
    as Hs.
  by rewrite Heq in Hs.
Qed.

Lemma alloc_hits_extends (h0 : gmap loc (obj float)) (hits : list (nat * float))
    (w : World) :
  extends_by_results h0 (heap w) →
  extends_by_results h0
    (heap (list_comp (λ hit, alloc (ODict (hit_dict hit))) hits w).2).
Proof.
  revert w. induction hits as [|hit hits IH]; intros w Hext; [done|].
  simpl. unfold bind at 1. unfold alloc at 1.
  set (l := fresh (dom (heap w))).
  set (w1 := with_heap (<[l := ODict (hit_dict hit)]> (heap w)) w).
  assert (extends_by_results h0 (heap w1)) as Hext1.
  { apply extends_by_results_insert; [done| |apply hit_dict_nonempty].
    destruct (h0 !! l) as [o|] eqn:Hl0; [|done].
    exfalso. apply (is_fresh (dom (heap w))). fold l.
    apply elem_of_dom. rewrite (proj1 Hext l) by by apply elem_of_dom. by eexists. }
  specialize (IH w1 Hext1). unfold bind.
  by destruct (list_comp _ hits w1) as [[xs|e] w2].
Qed.

Lemma alloc_hitss_extends (h0 : gmap loc (obj float))
    (hitss : list (list (nat * float))) (w : World) :
  extends_by_results h0 (heap w) →
  extends_by_results h0
    (heap (list_comp (list_comp (λ hit, alloc (ODict (hit_dict hit)))) hitss w).2).
Proof.
  revert w. induction hitss as [|hits hitss IH]; intros w Hext; [done|].
  simpl. unfold bind at 1.
  pose proof (alloc_hits_extends h0 hits w Hext) as Hext1.
  destruct (list_comp _ hits w) as [[xs|e] w1]; [|done].
  specialize (IH w1 Hext1). unfold bind.
  by destruct (list_comp _ hitss w1) as [[xss|e] w2].
Qed.

Lemma fixup_exact (documents : list val) (return_documents return_text : bool)
    (h0 : gmap loc (obj float)) (w : World) (l : loc) (hit : nat * float) (doc : val) :
  heap w !! l = Some (ODict (hit_dict hit)) →
  documents !! hit.1 = Some doc →
  is_dict h0 doc →
  extends_by_results h0 (heap w) →
  h0 !! l = None →
  fixup documents return_documents return_text (PRef l) w
  = (Ok (), with_heap
              (<[l := ODict (fixed_entries documents (doc_text h0 <$> documents)
                               return_documents return_text hit)]> (heap w)) w).
Proof.
  intros Hl Hdoc Hdict Hext Hl0. unfold fixup.
  rewrite (bind_ok _ _ _ _ _
             (dict_pop_ok w l _ "corpus_id" (PInt (Z.of_nat hit.1)) Hl eq_refl)).
  set (d1 := delete "corpus_id" (hit_dict hit)).
  set (w1 := with_heap (<[l := ODict d1]> (heap w)) w).
  assert (heap w1 !! l = Some (ODict d1)) as Hl1 by apply lookup_insert_eq.
  rewrite (bind_ok _ _ _ _ _ (dict_setitem_ok w1 l _ "index" _ Hl1)).
  set (d2 := <["index" := PInt (Z.of_nat hit.1)]> d1).
  set (w2 := with_heap (<[l := ODict d2]> (heap w1)) w1).
  assert (heap w2 !! l = Some (ODict d2)) as Hl2 by apply lookup_insert_eq.
  set (d3 := opt_insert "document" (if return_documents then documents !! hit.1 else None) d2).
  assert ((if return_documents
           then d <- list_getitem documents (PInt (Z.of_nat hit.1)) ;;
                dict_setitem (PRef l) "document" d
           else ret ()) w2
          = (Ok (), with_heap (<[l := ODict d3]> (heap w)) w)) as Hrun3.
  { unfold d3. destruct return_documents.
    - rewrite (bind_ok _ _ _ _ _ (list_getitem_ok _ _ _ w2 Hdoc)).
      rewrite (dict_setitem_ok w2 l _ "document" _ Hl2). rewrite Hdoc.
      unfold w2, w1, with_heap; simpl. by rewrite !insert_insert_eq.
    - unfold ret, w2, w1, with_heap; simpl. by rewrite !insert_insert_eq. }
  rewrite (bind_ok _ _ _ _ _ Hrun3).
  set (w3 := with_heap (<[l := ODict d3]> (heap w)) w).
  assert (heap w3 !! l = Some (ODict d3)) as Hl3 by apply lookup_insert_eq.
  assert (d3 ≠ ∅) as Hd3.
  { intros Heq. assert (d3 !! "index" = None) as Hi by by rewrite Heq.
    revert Hi. unfold d3, opt_insert, d2.
    by destruct (if return_documents then _ else _). }
  assert (extends_by_results h0 (heap w3)) as Hext3
    by by apply extends_by_results_insert.
  fold (fixed_entries documents (doc_text h0 <$> documents)
          return_documents return_text hit).
  unfold fixed_entries. fold d1 d2 d3.
  destruct return_text.
  - rewrite (bind_ok _ _ _ _ _ (list_getitem_ok _ _ _ w3 Hdoc)).
    rewrite (bind_ok _ _ _ _ _
               (get_text_doc_text _ _ (is_dict_extends _ _ _ Hext3 Hdict))).
    rewrite (dict_setitem_ok w3 l _ "text" _ Hl3).
    rewrite (doc_text_extends h0 (heap w3)) by done.
    rewrite list_lookup_fmap, Hdoc.
    unfold w3, with_heap; simpl. by rewrite !insert_insert_eq.
  - done.
Qed.

Lemma fixup_all_exact (documents : list val) (return_documents return_text : bool)
    (h0 : gmap loc (obj float)) (locs : list loc) (hits : list (nat * float))
    (w : World) :
  NoDup locs →
  Forall (λ l, h0 !! l = None) locs →
  Forall2 (λ l hit, heap w !! l = Some (ODict (hit_dict hit))) locs hits →
  Forall (λ hit, (hit.1 < length documents)%nat) hits →
  Forall (is_dict h0) documents →
  extends_by_results h0 (heap w) →
  ∃ h', for_each (fixup documents return_documents return_text) (refs locs) w
        = (Ok (), with_heap h' w)
        ∧ Forall2 (λ l hit,
                     h' !! l = Some (ODict (fixed_entries documents
                                              (doc_text h0 <$> documents)
                                              return_documents return_text hit)))
                  locs hits
        ∧ (∀ l, l ∉ locs → h' !! l = heap w !! l).
Proof.
  revert locs w.
  induction hits as [|hit hits IH]; intros locs w Hnd Hnew Hraw Hrange Hdocs Hext;
    inversion Hraw as [|l ? locs' ? Hl Hraw' Heq1 Heq2]; simplify_eq/=.
  - exists (heap w). rewrite with_heap_id. by repeat split.
  - apply NoDup_cons in Hnd as [Hnotin Hnd].
    apply Forall_cons in Hnew as [Hl0 Hnew].
    apply Forall_cons in Hrange as [Hhit Hrange].
    destruct (lookup_lt_is_Some_2 documents hit.1 Hhit) as [doc Hdoc].
    assert (is_dict h0 doc) as Hdict.
    { eapply Forall_forall; [exact Hdocs|]. by eapply list_elem_of_lookup_2. }
    pose proof (fixup_exact documents return_documents return_text h0 w l hit doc
                  Hl Hdoc Hdict Hext Hl0) as Hrun.
    set (d := fixed_entries documents (doc_text h0 <$> documents)
                return_documents return_text hit) in *.
    set (w1 := with_heap (<[l := ODict d]> (heap w)) w) in *.
    destruct (IH locs' w1) as (h' & Hrun' & Hfixed' & Hframe'); [done|done| |done|done| |].
    { apply Forall2_same_length_lookup. split; [by eapply Forall2_length|].
      intros i l' hit' Hi Hj. simpl.
      rewrite lookup_insert_ne.
      - exact (Forall2_lookup_lr _ _ _ _ _ _ Hraw' Hi Hj).
      - intros ->. apply Hnotin. by eapply list_elem_of_lookup_2. }
    { apply extends_by_results_insert; [done|done|apply fixed_entries_nonempty]. }
    exists h'. repeat split.
    + by rewrite (bind_ok _ _ _ _ _ Hrun).
    + constructor; [|done]. rewrite Hframe' by done. apply lookup_insert_eq.
    + intros l' Hl'. apply not_elem_of_cons in Hl' as [Hne Hl'].
      rewrite Hframe' by done. simpl. by rewrite lookup_insert_ne.
Qed.

Lemma RerankScore_of_dict_exact (documents doc_texts : list val)
    (return_documents return_text : bool) (w : World) (l : loc) (hit : nat * float) :
  heap w !! l = Some (ODict (fixed_entries documents doc_texts
                               return_documents return_text hit)) →
  RerankScore_of_dict (PRef l) w
  = (Ok (expected_score documents doc_texts return_documents return_text hit), w).
Proof.
  intros Hl. unfold RerankScore_of_dict, dict_entries, bind. rewrite Hl.
  unfold fixed_entries, expected_score, opt_insert, hit_dict, RerankScore_fields.
  destruct (if return_text then _ else _) as [t|],
           (if return_documents then _ else _) as [d|]; simpl;
    (rewrite bool_decide_eq_true_2;
     [done|rewrite ?dom_insert_L, ?dom_delete_L, ?dom_insert_L, ?dom_empty_L; set_solver]).
Qed.

Lemma list_comp_reads_fmap {A B} (body : A → M B) (f : A → B) (xs : list A) (w : World) :
  Forall (λ x, body x w = (Ok (f x), w)) xs →
  list_comp body xs w = (Ok (f <$> xs), w).
Proof.
  induction 1 as [|x xs Hx _ IH]; simpl; [done|].
  by rewrite (bind_ok _ _ _ _ _ Hx), (bind_ok _ _ _ _ _ IH).
Qed.

Lemma Forall2_eq_fmap {A B} (f : B → A) (ys : list A) (zs : list B) :
  Forall2 (λ y z, y = f z) ys zs → ys = f <$> zs.
Proof. induction 1 as [|y z ys zs -> _ ->]; by simpl. Qed.

Lemma run_rerank_queries_exact (self : TextEmbedding) (lq ld : loc) (qs ds : list val)
    (top_n : option Z) (return_documents return_queries return_text : bool)
    (w : World) :
  heap w !! lq = Some (OList qs) →
  heap w !! ld = Some (OList ds) →
  qs ≠ [] → ds ≠ [] →
  Forall (is_dict (heap w)) ds →
  Forall (λ t, within_limit self t = true) (doc_text (heap w) <$> ds) →
  Forall (λ q, within_limit self q = true) qs →
  ∃ h',
    run_rerank_queries self (PRef lq) (PRef ld) top_n
                       return_documents return_queries return_text w
    = (Ok (mkRerankPrediction
             (expected_results self qs ds (doc_text (heap w) <$> ds)
                (effective_top_n top_n ds)
                return_documents return_queries return_text)),
       encoded [EncodeBatch (doc_text (heap w) <$> ds); EncodeBatch qs] (with_heap h' w))
    ∧ extends_by_results (heap w) h'.
Proof.
  intros Hlq Hld Hqs Hds Hdicts Hdocs_in Hqs_in.
  unfold run_rerank_queries.
  rewrite (bind_ok _ _ _ _ _ (is_list_ok _ _ _ Hlq)).
  rewrite (bind_ok _ _ _ _ _ (is_list_ok _ _ _ Hld)).
  simpl type_check. rewrite (bind_ok _ _ _ w () eq_refl).
  rewrite (bind_ok _ _ _ _ _ (list_elems_ok _ _ _ Hlq)).
  rewrite (bind_ok _ _ _ _ _ (list_elems_ok _ _ _ Hld)).
  assert ((Z.of_nat (length qs) <? 1) || (Z.of_nat (length ds) <? 1) = false) as ->.
  { destruct qs, ds; try done. simpl length.
    apply orb_false_intro; apply Z.ltb_ge; lia. }
  fold (effective_top_n top_n ds).
  set (top_k := effective_top_n top_n ds).
  set (doc_texts := doc_text (heap w) <$> ds) in *.
  rewrite (bind_ok _ _ _ _ _ (doc_texts_ok _ _ Hdicts)). fold doc_texts.
  rewrite (bind_ok _ _ _ w () (guard_all_within _ _ _ Hdocs_in)).
  rewrite (bind_ok _ _ _ w () (guard_all_within _ _ _ Hqs_in)).
  unfold bind at 1. unfold encode_batch at 1.
  unfold bind at 1. unfold encode_batch at 1. simpl heap. simpl fs. simpl log.
  simpl encode_calls. rewrite <- app_assoc. simpl app.
  set (w1 := mkWorld (heap w) (fs w) (log w) _).
  unfold semantic_search, normalize_embeddings. rewrite list_comp_fmap.
  set (hitss := (λ q, top_hits q _ top_k) <$> _).
  pose proof (alloc_hitss_extends (heap w) hitss w1 (extends_by_results_refl _)) as Hext1.
  destruct (alloc_hitss_ok hitss w1) as (locss & h1 & Hrun1 & Hnd & Hfresh & Hraw & Hframe1).
  rewrite Hrun1 in Hext1. simpl in Hext1.
  rewrite (bind_ok _ _ _ _ _ Hrun1).
  set (w2 := with_heap h1 w1).
  assert (Forall (λ hit, (hit.1 < length ds)%nat) (concat hitss)) as Hrange.
  { apply Forall_concat_2. unfold hitss. apply Forall_fmap, Forall_forall.
    intros q _. simpl.
    eapply Forall_impl; [apply top_hits_in_range|]. simpl. intros hit.
    unfold doc_texts. by rewrite !length_fmap. }
  destruct (fixup_all_exact ds return_documents return_text (heap w)
              (concat locss) (concat hitss) w2)
    as (h2 & Hrun2 & Hfixed & Hframe2);
    [done| |by apply Forall2_concat_2|done|done|done|].
  { eapply Forall_impl; [exact Hfresh|]. intros l. apply not_elem_of_dom. }
  rewrite (bind_ok _ _ w2 (with_heap h2 w2) ()).
  2:{ by rewrite for_each_concat, refs_concat. }
  set (w3 := with_heap h2 w2).
  apply (Forall2_unconcat _ _ _ _ Hraw) in Hfixed. fold doc_texts in Hfixed.
  set (expected q := mkRerankQueryResult
                       (if return_queries then Some q else None)
                       (expected_score ds doc_texts return_documents return_text
                          <$> query_hits self doc_texts top_k q)).
  destruct (list_comp_reads_Forall2
              (λ qr : nat * list val,
                 query <- add_query qs return_queries qr.1 ;;
                 scores <- list_comp RerankScore_of_dict qr.2 ;;
                 ret (mkRerankQueryResult query scores))
              (λ r q, r = expected q)
              (enumerate (refs <$> locss)) qs w3) as (results & Hrun3 & Hresults).
  { pose proof (Forall2_length _ _ _ Hfixed) as Hlen.
    unfold hitss in Hlen. rewrite !length_fmap in Hlen.
    apply Forall2_same_length_lookup_2.
    { unfold enumerate. rewrite length_zip_with, length_seq, length_fmap. lia. }
    intros i [j x] q Hx Hq.
    apply enumerate_lookup_inv in Hx as [-> Hx].
    apply list_lookup_fmap_Some in Hx as (locs & -> & Hlocs).
    assert (hitss !! i = Some (query_hits self doc_texts top_k q)) as Hhits.
    { unfold hitss. by rewrite !list_lookup_fmap, Hq. }
    pose proof (Forall2_lookup_lr _ _ _ _ _ _ Hfixed Hlocs Hhits) as Hfix.
    destruct (list_comp_reads_Forall2 RerankScore_of_dict
                (λ sc hit, sc = expected_score ds doc_texts
                                  return_documents return_text hit)
                (refs locs) (query_hits self doc_texts top_k q) w3) as (scores & Hsc & Hm).
    { apply Forall2_fmap_l. eapply Forall2_impl; [exact Hfix|].
      simpl. intros l hit Hl. eexists. split; [|done].
      by apply RerankScore_of_dict_exact. }
    apply Forall2_eq_fmap in Hm. subst scores.
    exists (expected q). split; [|done]. simpl.
    assert (add_query qs return_queries i w3
            = (Ok (if return_queries then Some q else None), w3)) as Hadd.
    { unfold add_query. destruct return_queries; [|done].
      by rewrite (bind_ok _ _ _ _ _ (list_getitem_ok _ _ _ w3 Hq)). }
    by rewrite (bind_ok _ _ _ _ _ Hadd), (bind_ok _ _ _ _ _ Hsc). }
  rewrite (bind_ok _ _ _ _ _ Hrun3).
  apply Forall2_eq_fmap in Hresults. subst results.
  exists h2. split; [done|].
  (* the store: the old objects, and the fixed-up result dicts *)
  destruct Hext1 as [Hold Hnew]. split.
  - intros l Hl. rewrite Hframe2; [by apply Hold|].
    intros Hin. eapply Forall_forall in Hfresh; [|done]. done.
  - intros l o Hl0 Hl2. destruct (decide (l ∈ concat locss)) as [Hin|Hnotin].
    + apply list_elem_of_lookup in Hin as [i Hi].
      destruct (Forall2_lookup_l _ _ _ _ _ (Forall2_concat_2 _ _ _ Hfixed) Hi)
        as (hit & _ & Hh).
      rewrite Hh in Hl2. injection Hl2 as <-. eexists. split; [done|].
      apply fixed_entries_nonempty.
    + rewrite Hframe2 in Hl2 by done. by apply (Hnew l).
Qed.

(** *** Further properties of the embedding and similarity operations *)

(** X4. The three arguments that must be strings are type-checked before
    anything else happens: given a value that is not a string,
    [run_embedding] raises the type error <NLP27491611E>,
    [run_rerank_query] raises <NLP05323654E> and [save] raises
    <NLP82314992E>, each leaving the world as it was: nothing is tokenized,
    encoded, allocated or written. *)
Theorem non_string_argument_type_error (self : TextEmbedding) (v : val) (w : World) :
  is_str v = false →
  run_embedding self v w = (Raise (TypeError "<NLP27491611E>"), w)
  ∧ (∀ documents top_n return_documents return_query return_text,
       run_rerank_query self v documents top_n
                        return_documents return_query return_text w
       = (Raise (TypeError "<NLP05323654E>"), w))
  ∧ save self v w = (Raise (TypeError "<NLP82314992E>"), w).
Proof.
  intros Hstr. unfold run_embedding, run_rerank_query, save.
  rewrite Hstr. by destruct v.
Qed.

(** X5. For a string within the model's maximum sequence length,
    [run_embeddings] on the bare string (or on the one-element list) returns
    exactly one vector, and it is the vector [run_embedding] returns for
    that string. *)
Theorem run_embeddings_single_is_run_embedding (self : TextEmbedding) (s : string)
    (w : World) :
  within_limit self (PStr s) = true →
  ∃ v w1 w2,
    run_embedding self (PStr s) w = (Ok v, w1)
    ∧ run_embeddings self (OneText s) w = (Ok (mkListOfVector1D [v]), w2)
    ∧ run_embeddings self (Texts [s]) w = (Ok (mkListOfVector1D [v]), w2).
Proof.
  intros Hin.
  assert (Forall (λ s, within_limit self (PStr s) = true) [s]) as Hs by by constructor.
  eexists _, _, _. split; [by apply run_embedding_ok|].
  split; exact (run_embeddings_ok self [s] w Hs).
Qed.

(** X6. For non-empty lists of sources and candidates that are all within
    the model's maximum sequence length, [run_sentence_similarities] returns one score
    list per source, in source order, and the list of the i-th source is the
    score list [run_sentence_similarity] returns for that source against the
    same candidates. *)
Theorem run_sentence_similarities_rows (self : TextEmbedding)
    (source_sentences sentences : list string) (w : World) :
  source_sentences ≠ [] → sentences ≠ [] →
  Forall (λ s, within_limit self (PStr s) = true) source_sentences →
  Forall (λ s, within_limit self (PStr s) = true) sentences →
  ∃ rows w',
    run_sentence_similarities self source_sentences sentences w
    = (Ok (mkSentenceListScores rows), w')
    ∧ length rows = length source_sentences
    ∧ ∀ i a, source_sentences !! i = Some a →
             ∃ row w'', run_sentence_similarity self a sentences w = (Ok row, w'')
                        ∧ rows !! i = Some row.
Proof.
  intros _ _ Hsrc Hin. eexists _, _.
  split; [by apply run_sentence_similarities_ok|].
  split; [by rewrite length_fmap|].
  intros i a Hi. eexists _, _. split.
  - apply run_sentence_similarity_ok; [|done].
    apply (proj1 (Forall_forall _ _) Hsrc a). by eapply list_elem_of_lookup_2.
  - by rewrite list_lookup_fmap, Hi.
Qed.

(** *** What the guard raises is what the operation raises *)

Lemma prevent_truncation_pure (self : TextEmbedding) (text : val) :
  ∃ r, ∀ w, _prevent_truncation self text w = (r, w).
Proof.
  unfold _prevent_truncation, lift, value_check, bind.
  destruct (tokenizer (model self) text) as [ids|e]; [|by eexists].
  destruct (_ <=? _); by eexists.
Qed.

Lemma guard_pure (self : TextEmbedding) (texts : list val) :
  ∃ r, ∀ w, for_each (_prevent_truncation self) texts w = (r, w).
Proof.
  induction texts as [|t ts [r IH]]; [by eexists|].
  destruct (prevent_truncation_pure self t) as [[[]|e] Ht].
  - exists r. intros w. simpl. by rewrite (bind_ok _ _ _ _ _ (Ht w)).
  - exists (Raise e). intros w. simpl. by rewrite (bind_raise _ _ _ _ _ (Ht w)).
Qed.

Lemma guard_other_world (self : TextEmbedding) (texts : list val) (w w' : World)
    (r : result unit) :
  for_each (_prevent_truncation self) texts w = (r, w) →
  for_each (_prevent_truncation self) texts w' = (r, w').
Proof.
  destruct (guard_pure self texts) as [r' Hr']. rewrite !Hr'. by intros [= ->].
Qed.

Lemma guard_first_offender (self : TextEmbedding) (pre post : list val) (t : val)
    (w : World) (e : exn) :
  Forall (λ t, within_limit self t = true) pre →
  _prevent_truncation self t w = (Raise e, w) →
  for_each (_prevent_truncation self) (pre ++ t :: post) w = (Raise e, w).
Proof.
  intros Hpre Ht. rewrite (for_each_app _ _ _ _ _ (guard_all_within _ _ w Hpre)).
  simpl. by rewrite (bind_raise _ _ _ _ _ Ht).
Qed.

Lemma run_rerank_queries_guard_raises (self : TextEmbedding) (lq ld : loc)
    (qs ds : list val) (top_n : option Z)
    (return_documents return_queries return_text : bool) (w : World) (e : exn) :
  heap w !! lq = Some (OList qs) →
  heap w !! ld = Some (OList ds) →
  qs ≠ [] → ds ≠ [] →
  Forall (is_dict (heap w)) ds →
  for_each (_prevent_truncation self) ((doc_text (heap w) <$> ds) ++ qs) w
  = (Raise e, w) →
  run_rerank_queries self (PRef lq) (PRef ld) top_n
                     return_documents return_queries return_text w
  = (Raise e, w).
Proof.
  intros Hlq Hld Hqs Hds Hdicts Hguard. unfold run_rerank_queries.
  rewrite (bind_ok _ _ _ _ _ (is_list_ok _ _ _ Hlq)).
  rewrite (bind_ok _ _ _ _ _ (is_list_ok _ _ _ Hld)).
  simpl type_check. rewrite (bind_ok _ _ _ w () eq_refl).
  rewrite (bind_ok _ _ _ _ _ (list_elems_ok _ _ _ Hlq)).
  rewrite (bind_ok _ _ _ _ _ (list_elems_ok _ _ _ Hld)).
  assert ((Z.of_nat (length qs) <? 1) || (Z.of_nat (length ds) <? 1) = false) as ->.
  { destruct qs, ds; try done. simpl length.
    apply orb_false_intro; apply Z.ltb_ge; lia. }
  rewrite (bind_ok _ _ _ _ _ (doc_texts_ok _ _ Hdicts)).
  apply bind_raise_prefix. by rewrite <- for_each_app_bind.
Qed.

Lemma dispatch_guard_raises (self : TextEmbedding) (req : request) (w : World) (e : exn) :
  well_formed (heap w) req →
  nonempty_lists (heap w) req →
  for_each (_prevent_truncation self) (text_arguments (heap w) req) w = (Raise e, w) →
  (dispatch self req w).1 = Raise e
  ∧ encode_calls (dispatch self req w).2 = encode_calls w.
Proof.
  intros Hwf Hne Hg.
  assert (∀ A (c : M A) w', c w = (Raise e, w') → encode_calls w' = encode_calls w →
            (c w).1 = Raise e ∧ encode_calls (c w).2 = encode_calls w) as Hdone.
  { intros A c w' Hc Hcalls. by rewrite Hc. }
  destruct req as [text|[s|texts]|src sentences|srcs sentences
                  |queries documents top_n rd rq rt|query documents top_n rd rq rt];
    simpl in *.
  - apply (Hdone _ _ w); [|done]. apply bind_raise. unfold run_embedding.
    simpl type_check. rewrite (bind_ok _ _ _ w () eq_refl).
    apply bind_raise. revert Hg. unfold bind, ret.
    destruct (_prevent_truncation self (PStr text) w) as [[[]|e'] w1]; [done|].
    by intros [= -> ->].
  - apply (Hdone _ _ w); [|done]. apply bind_raise. unfold run_embeddings.
    by apply bind_raise.
  - apply (Hdone _ _ w); [|done]. apply bind_raise. unfold run_embeddings.
    rewrite (for_each_fmap PStr (_prevent_truncation self)). by apply bind_raise.
  - apply (Hdone _ _ w); [|done]. apply bind_raise. unfold run_sentence_similarity.
    rewrite (for_each_fmap PStr (_prevent_truncation self)).
    by apply bind_raise_prefix.
  - apply (Hdone _ _ w); [|done]. apply bind_raise. unfold run_sentence_similarities.
    rewrite !(for_each_fmap PStr (_prevent_truncation self)).
    apply bind_raise_prefix. by rewrite <- for_each_app_bind.
  - destruct Hwf as ((lq & qs & -> & Hlq) & (ld & ds & -> & Hld) & Hdicts).
    simpl in *. rewrite Hlq, Hld in *. destruct Hne as [Hqs Hds].
    apply (Hdone _ _ w); [|done]. apply bind_raise.
    by apply (run_rerank_queries_guard_raises self lq ld qs ds).
  - destruct Hwf as ((ld & ds & -> & Hld) & Hdicts).
    simpl in *. rewrite Hld in *.
    apply (Hdone _ _ (with_query_list (PStr query) w)); [|done].
    apply bind_raise. rewrite run_rerank_query_unfold. apply bind_raise.
    apply (run_rerank_queries_guard_raises self _ ld [PStr query] ds); simpl.
    + apply lookup_insert_eq.
    + by apply documents_query_list.
    + done.
    + done.
    + eapply Forall_impl; [exact Hdicts|]. intros d.
      apply is_dict_query_list, fresh_lookup_None.
    + rewrite doc_texts_query_list by done.
      by apply (guard_other_world self _ w).
Qed.

(** X7. When the tokenizer itself raises on a text of the request, and
    every text submitted before it is within the limit, the operation raises
    that same exception and the encoder is not called (rerank requests:
    with both lists non-empty). *)
Theorem tokenizer_error_propagates (self : TextEmbedding) (req : request) (w : World)
    (pre post : list val) (t : val) (e : exn) :
  well_formed (heap w) req →
  nonempty_lists (heap w) req →
  text_arguments (heap w) req = (pre ++ t :: post)%list →
  Forall (λ t, within_limit self t = true) pre →
  tokenizer (model self) t = Raise e →
  (dispatch self req w).1 = Raise e
  ∧ encode_calls (dispatch self req w).2 = encode_calls w.
Proof.
  intros Hwf Hne Htexts Hpre Htok.
  apply dispatch_guard_raises; [done|done|].
  rewrite Htexts. apply guard_first_offender; [done|].
  unfold _prevent_truncation, bind, lift. by rewrite Htok.
Qed.

(** X8. The validation error names the first offending text: when the
    texts submitted before [t] are within the limit and [t] has [tokens]
    tokens, more than [max_seq_length], the operation raises <NLP08391926E>
    with the message built from [tokens] and [max_seq_length], whatever
    comes after [t].  For rerank requests the document texts come before
    the queries. *)
Theorem truncation_error_names_first_offender (self : TextEmbedding) (req : request)
    (w : World) (pre post : list val) (t : val) (tokens : Z) :
  well_formed (heap w) req →
  nonempty_lists (heap w) req →
  text_arguments (heap w) req = (pre ++ t :: post)%list →
  Forall (λ t, within_limit self t = true) pre →
  token_count self t = Some tokens →
  max_seq_length (model self) < tokens →
  (dispatch self req w).1
  = Raise (ValueError "<NLP08391926E>"
             (truncation_msg tokens (max_seq_length (model self)))).
Proof.
  intros Hwf Hne Htexts Hpre Hcount Hlt.
  apply dispatch_guard_raises; [done|done|].
  rewrite Htexts. apply guard_first_offender; [done|].
  revert Hcount. unfold token_count, _prevent_truncation, bind, lift, value_check.
  destruct (tokenizer (model self) t) as [ids|e]; [|done].
  intros [= <-].
  by destruct (Z.leb_spec (Z.of_nat (length ids)) (max_seq_length (model self))); [lia|].
Qed.

(** *** The content of the rerank response *)

Lemma query_hits_elem (self : TextEmbedding) (doc_texts : list val) (top_k : Z)
    (q : val) (hit : nat * float) :
  hit ∈ query_hits self doc_texts top_k q →
  ∃ t, doc_texts !! hit.1 = Some t
       ∧ hit.2 = dot (normalize (embed (model self) q))
                     (normalize (embed (model self) t)).
Proof.
  revert hit. apply Forall_forall. unfold query_hits, top_hits.
  apply Forall_take, Forall_sort_desc, Forall_forall. intros hit Hin.
  apply list_elem_of_lookup in Hin as [i Hi].
  rewrite list_lookup_imap, !list_lookup_fmap in Hi.
  destruct (doc_texts !! i) as [t|] eqn:Ht; simplify_eq/=. by exists t.
Qed.

Lemma expected_results_lookup (self : TextEmbedding) (qs ds doc_texts : list val)
    (top_k : Z) (return_documents return_queries return_text : bool)
    (k : nat) (r : RerankQueryResult float) (q : val) :
  expected_results self qs ds doc_texts top_k
                   return_documents return_queries return_text !! k = Some r →
  qs !! k = Some q →
  r = mkRerankQueryResult
        (if return_queries then Some q else None)
        (expected_score ds doc_texts return_documents return_text
           <$> query_hits self doc_texts top_k q).
Proof.
  unfold expected_results. rewrite list_lookup_fmap. intros Hr Hq.
  rewrite Hq in Hr. by simplify_eq/=.
Qed.

Lemma expected_score_elem (self : TextEmbedding) (h : gmap loc (obj float))
    (ds : list val) (top_k : Z) (return_documents return_text : bool)
    (q : val) (sc : RerankScore float) :
  sc ∈ expected_score ds (doc_text h <$> ds) return_documents return_text
         <$> query_hits self (doc_text h <$> ds) top_k q →
  ∃ (i : nat) (d : val),
    ds !! i = Some d
    ∧ sc = mkRerankScore
             (if return_documents then Some d else None)
             (Z.of_nat i)
             (dot (normalize (embed (model self) q))
                  (normalize (embed (model self) (doc_text h d))))
             (if return_text then Some (doc_text h d) else None).
Proof.
  intros Hin. apply list_elem_of_fmap in Hin as (hit & -> & Hhit).
  apply query_hits_elem in Hhit as (t & Ht & Hs).
  rewrite list_lookup_fmap in Ht.
  destruct (ds !! hit.1) as [d|] eqn:Hd; simplify_eq/=.
  exists hit.1, d. split; [done|]. unfold expected_score.
  by rewrite Hs, list_lookup_fmap, Hd.
Qed.

(** X9. On a non-empty queries list and a non-empty documents list of
    dict records whose texts all pass the truncation guard, every score
    record of the response of [run_rerank_queries] points at a document of
    the request: its index is a position of the documents list, its document
    is the document at that position when [return_documents] is set and is
    absent otherwise, and its text is the comparison text of that document
    (the "text" entry, else "_text", else the empty string) when
    [return_text] is set and is absent otherwise. *)
Theorem run_rerank_queries_scores_point_at_documents (self : TextEmbedding)
    (lq ld : loc) (qs ds : list val) (top_n : option Z)
    (return_documents return_queries return_text : bool) (w : World) :
  heap w !! lq = Some (OList qs) →
  heap w !! ld = Some (OList ds) →
  qs ≠ [] → ds ≠ [] →
  Forall (is_dict (heap w)) ds →
  Forall (λ t, within_limit self t = true) (doc_text (heap w) <$> ds) →
  Forall (λ q, within_limit self q = true) qs →
  ∃ prediction w',
    run_rerank_queries self (PRef lq) (PRef ld) top_n
                       return_documents return_queries return_text w
    = (Ok prediction, w')
    ∧ ∀ r sc,
        r ∈ RerankPrediction_results prediction →
        sc ∈ RerankQueryResult_scores r →
        ∃ (i : nat) (d : val),
          RerankScore_index sc = Z.of_nat i
          ∧ ds !! i = Some d
          ∧ RerankScore_document sc = (if return_documents then Some d else None)
          ∧ RerankScore_text sc
            = (if return_text then Some (doc_text (heap w) d) else None).
Proof.
  intros Hlq Hld Hqs Hds Hdicts Hdocs_in Hqs_in.
  destruct (run_rerank_queries_exact self lq ld qs ds top_n
              return_documents return_queries return_text w)
    as (h' & Hrun & _); try done.
  eexists _, _. split; [exact Hrun|]. simpl. intros r sc Hr Hsc.
  apply list_elem_of_lookup in Hr as [k Hr].
  destruct (qs !! k) as [q|] eqn:Hq.
  2:{ apply lookup_lt_Some in Hr. apply lookup_ge_None in Hq.
      unfold expected_results in Hr. rewrite length_fmap in Hr. lia. }
  rewrite (expected_results_lookup _ _ _ _ _ _ _ _ _ _ _ Hr Hq) in Hsc. simpl in Hsc.
  apply expected_score_elem in Hsc as (i & d & Hd & ->).
  by exists i, d.
Qed.

(** X10. Under the same conditions the k-th result belongs to the k-th
    query: it echoes that query when [return_queries] is set and carries no
    query otherwise, and each of its scores is the dot product of the
    normalised embedding of that query with the normalised embedding of the
    comparison text of the document the score points at. *)
Theorem run_rerank_queries_score_values (self : TextEmbedding)
    (lq ld : loc) (qs ds : list val) (top_n : option Z)
    (return_documents return_queries return_text : bool) (w : World) :
  heap w !! lq = Some (OList qs) →
  heap w !! ld = Some (OList ds) →
  qs ≠ [] → ds ≠ [] →
  Forall (is_dict (heap w)) ds →
  Forall (λ t, within_limit self t = true) (doc_text (heap w) <$> ds) →
  Forall (λ q, within_limit self q = true) qs →
  ∃ prediction w',
    run_rerank_queries self (PRef lq) (PRef ld) top_n
                       return_documents return_queries return_text w
    = (Ok prediction, w')
    ∧ ∀ k r q,
        RerankPrediction_results prediction !! k = Some r →
        qs !! k = Some q →
        RerankQueryResult_query r = (if return_queries then Some q else None)
        ∧ ∀ sc, sc ∈ RerankQueryResult_scores r →
            ∃ (i : nat) (d : val),
              RerankScore_index sc = Z.of_nat i
              ∧ ds !! i = Some d
              ∧ RerankScore_score sc
                = dot (normalize (embed (model self) q))
                      (normalize (embed (model self) (doc_text (heap w) d))).
Proof.
  intros Hlq Hld Hqs Hds Hdicts Hdocs_in Hqs_in.
  destruct (run_rerank_queries_exact self lq ld qs ds top_n
              return_documents return_queries return_text w)
    as (h' & Hrun & _); try done.
  eexists _, _. split; [exact Hrun|]. simpl. intros k r q Hr Hq.
  rewrite (expected_results_lookup _ _ _ _ _ _ _ _ _ _ _ Hr Hq). simpl.
  split; [done|]. intros sc Hsc.
  apply expected_score_elem in Hsc as (i & d & Hd & ->).
  by exists i, d.
Qed.

(** X11. Under the same conditions [run_rerank_queries] calls the encoder
    exactly twice, each time on a whole batch: first on the comparison texts
    of all documents, in document order, then on all queries, in query
    order.  It writes nothing to the file system or the log. *)
Theorem run_rerank_queries_encoder_calls (self : TextEmbedding)
    (lq ld : loc) (qs ds : list val) (top_n : option Z)
    (return_documents return_queries return_text : bool) (w : World) :
  heap w !! lq = Some (OList qs) →
  heap w !! ld = Some (OList ds) →
  qs ≠ [] → ds ≠ [] →
  Forall (is_dict (heap w)) ds →
  Forall (λ t, within_limit self t = true) (doc_text (heap w) <$> ds) →
  Forall (λ q, within_limit self q = true) qs →
  ∃ prediction w',
    run_rerank_queries self (PRef lq) (PRef ld) top_n
                       return_documents return_queries return_text w
    = (Ok prediction, w')
    ∧ encode_calls w'
      = (encode_calls w ++ [EncodeBatch (doc_text (heap w) <$> ds); EncodeBatch qs])%list
    ∧ fs w' = fs w
    ∧ log w' = log w.
Proof.
  intros Hlq Hld Hqs Hds Hdicts Hdocs_in Hqs_in.
  destruct (run_rerank_queries_exact self lq ld qs ds top_n
              return_documents return_queries return_text w)
    as (h' & Hrun & _); try done.
  eexists _, _. by split; [exact Hrun|].
Qed.

(** X12. [run_rerank_query] answers as [run_rerank_queries] does for the
    one-element queries list: on a non-empty documents list of dict records,
    with the query and every document text within the limit, the result of
    [run_rerank_query] is the single result [run_rerank_queries] returns for
    a list that holds just that query. *)
Theorem run_rerank_query_is_single_query_rerank (self : TextEmbedding)
    (query : string) (lq ld : loc) (ds : list val) (top_n : option Z)
    (return_documents return_query return_text : bool) (w : World) :
  heap w !! lq = Some (OList [PStr query]) →
  heap w !! ld = Some (OList ds) →
  ds ≠ [] →
  Forall (is_dict (heap w)) ds →
  Forall (λ t, within_limit self t = true) (doc_text (heap w) <$> ds) →
  within_limit self (PStr query) = true →
  ∃ r w1 w2,
    run_rerank_query self (PStr query) (PRef ld) top_n
                     return_documents return_query return_text w
    = (Ok r, w1)
    ∧ run_rerank_queries self (PRef lq) (PRef ld) top_n
                         return_documents return_query return_text w
      = (Ok (mkRerankPrediction [r]), w2).
Proof.
  intros Hlq Hld Hds Hdicts Hdocs_in Hq_in.
  assert (Forall (λ q, within_limit self q = true) [PStr query]) as Hqs_in
    by by constructor.
  destruct (run_rerank_queries_exact self lq ld [PStr query] ds top_n
              return_documents return_query return_text w)
    as (h2 & Hrun2 & _); try done.
  destruct (run_rerank_queries_exact self (fresh (dom (heap w))) ld [PStr query] ds top_n
              return_documents return_query return_text
              (with_query_list (PStr query) w))
    as (h1 & Hrun1 & _); simpl; try done.
  { apply lookup_insert_eq. }
  { by apply documents_query_list. }
  { eapply Forall_impl; [exact Hdicts|]. intros d.
    apply is_dict_query_list, fresh_lookup_None. }
  { by rewrite doc_texts_query_list. }
  simpl in Hrun1. rewrite doc_texts_query_list in Hrun1 by done.
  eexists _, _, _. split.
  - rewrite run_rerank_query_unfold.
    rewrite (bind_ok _ _ _ _ _ Hrun1). simpl. reflexivity.
  - exact Hrun2.
Qed.

(** *** Ill-typed rerank arguments *)

Lemma is_list_false (v : val) (w : World) :
  ¬ is_list_in (heap w) v → is_list v w = (Ok false, w).
Proof.
  intros Hno. unfold is_list. destruct v as [| | | | |l]; try done.
  destruct (heap w !! l) as [[d|vs]|] eqn:Hl; try done.
  destruct Hno. by exists l, vs.
Qed.

Lemma is_list_pure (v : val) (w : World) : ∃ b, is_list v w = (Ok b, w).
Proof. by eexists. Qed.

(** X13. When the queries argument or the documents argument of
    [run_rerank_queries] is not a list, the call raises the type error
    <NLP09038249E> and leaves the world as it was. *)
Theorem run_rerank_queries_type_error (self : TextEmbedding) (queries documents : val)
    (top_n : option Z) (return_documents return_queries return_text : bool)
    (w : World) :
  ¬ is_list_in (heap w) queries ∨ ¬ is_list_in (heap w) documents →
  run_rerank_queries self queries documents top_n
                     return_documents return_queries return_text w
  = (Raise (TypeError "<NLP09038249E>"), w).
Proof.
  intros Hno. unfold run_rerank_queries.
  destruct (is_list_pure queries w) as [ql Hql].
  destruct (is_list_pure documents w) as [dl Hdl].
  rewrite (bind_ok _ _ _ _ _ Hql), (bind_ok _ _ _ _ _ Hdl).
  assert (ql && dl = false) as ->; [|done].
  destruct Hno as [Hno|Hno]; apply is_list_false in Hno.
  - rewrite Hno in Hql. injection Hql as <-. done.
  - rewrite Hno in Hdl. injection Hdl as <-. apply andb_false_r.
Qed.

Lemma list_comp_raise_at {A B} (body : A → M B) (pre post : list A) (x : A)
    (w : World) (e : exn) :
  Forall (λ p, ∃ y, body p w = (Ok y, w)) pre →
  body x w = (Raise e, w) →
  list_comp body (pre ++ x :: post) w = (Raise e, w).
Proof.
  induction 1 as [|p pre [y Hp] _ IH]; intros Hx; simpl.
  - by rewrite (bind_raise _ _ _ _ _ Hx).
  - rewrite (bind_ok _ _ _ _ _ Hp). by rewrite (bind_raise _ _ _ _ _ (IH Hx)).
Qed.

Lemma get_text_non_dict (srd : val) (w : World) :
  ¬ is_dict (heap w) srd → get_text srd w = (Raise (AttributeError "get"), w).
Proof.
  intros Hno. unfold get_text. apply bind_raise.
  unfold dict_get. apply bind_raise. unfold dict_entries.
  destruct srd as [| | | | |l]; try done.
  destruct (heap w !! l) as [[d|vs]|] eqn:Hl; try done.
  destruct Hno. by exists l, d.
Qed.

(** X14. The documents of a rerank request must be dict records: when
    the queries list is not empty and some document is not a dict (a string,
    a number, None, a list), the documents before it being dicts,
    [run_rerank_queries] raises [AttributeError] for the missing [get]
    method.  No text has been checked or encoded, and the world is as it
    was. *)
Theorem run_rerank_queries_non_dict_document (self : TextEmbedding)
    (lq ld : loc) (qs pre post : list val) (d : val) (top_n : option Z)
    (return_documents return_queries return_text : bool) (w : World) :
  heap w !! lq = Some (OList qs) →
  heap w !! ld = Some (OList (pre ++ d :: post)) →
  qs ≠ [] →
  Forall (is_dict (heap w)) pre →
  ¬ is_dict (heap w) d →
  run_rerank_queries self (PRef lq) (PRef ld) top_n
                     return_documents return_queries return_text w
  = (Raise (AttributeError "get"), w).
Proof.
  intros Hlq Hld Hqs Hpre Hd. unfold run_rerank_queries.
  rewrite (bind_ok _ _ _ _ _ (is_list_ok _ _ _ Hlq)).
  rewrite (bind_ok _ _ _ _ _ (is_list_ok _ _ _ Hld)).
  simpl type_check. rewrite (bind_ok _ _ _ w () eq_refl).
  rewrite (bind_ok _ _ _ _ _ (list_elems_ok _ _ _ Hlq)).
  rewrite (bind_ok _ _ _ _ _ (list_elems_ok _ _ _ Hld)).
  assert ((Z.of_nat (length qs) <? 1)
          || (Z.of_nat (length (pre ++ d :: post)) <? 1) = false) as ->.
  { destruct qs; [done|]. rewrite length_app. simpl length.
    apply orb_false_intro; apply Z.ltb_ge; lia. }
  apply bind_raise. apply list_comp_raise_at.
  - eapply Forall_impl; [exact Hpre|]. intros p Hp. eexists.
    by apply get_text_doc_text.
  - by apply get_text_non_dict.
Qed.

(** *** Further properties of load and save *)

Lemma mkdir_missing_lookup_Some (p k : string) (f : gmap string node) (n : node) :
  f !! k = Some n → mkdir_missing p f !! k = Some n.
Proof.
  intros Hk. unfold mkdir_missing. destruct (f !! p) eqn:Hp; [done|].
  rewrite lookup_insert_ne; [done|]. intros ->. congruence.
Qed.

Lemma foldr_mkdir_missing_lookup_Some (ps : list string) (k : string)
    (f : gmap string node) (n : node) :
  f !! k = Some n → foldr mkdir_missing f ps !! k = Some n.
Proof.
  intros Hk. induction ps as [|p ps IH]; simpl; [done|].
  by apply mkdir_missing_lookup_Some.
Qed.

Lemma makedirs_creates_target (ps : list string) (name : string) (f : gmap string node) :
  f !! name = None → foldr mkdir_missing f (ps ++ [name]) !! name = Some Dir.
Proof.
  intros Hname. rewrite foldr_app. simpl.
  apply foldr_mkdir_missing_lookup_Some. unfold mkdir_missing.
  rewrite Hname. apply lookup_insert_eq.
Qed.

Lemma os_makedirs_ok (name : string) (w : World) :
  fs w !! name = None →
  filter (λ a, is_file (fs w !! a) = true) (dir_prefixes "" name) = [] →
  os_makedirs name w
  = (Ok (), mkWorld (heap w)
                    (foldr mkdir_missing (fs w) (dir_prefixes "" name ++ [name]))
                    (log w) (encode_calls w)).
Proof. intros Hname Hfiles. unfold os_makedirs. by rewrite Hname, Hfiles. Qed.

Lemma save_prefix_ok (self : TextEmbedding) (p : string) (w : World) (k : M unit) :
  strip p ≠ "" →
  fs w !! abspath (strip p) = None →
  filter (λ a, is_file (fs w !! a) = true) (dir_prefixes "" (abspath (strip p))) = [] →
  (type_check "<NLP82314992E>" (is_str (PStr p)) ;;
   value_check "<NLP40145207E>" (negb (bool_decide (strip p = "")))
               ("model_path '" +:+ p +:+ "' is invalid") ;;
   os_makedirs (abspath (strip p)) ;;
   k) w
  = k (mkWorld (heap w)
               (foldr mkdir_missing (fs w)
                      (dir_prefixes "" (abspath (strip p)) ++ [abspath (strip p)]))
               (log w) (encode_calls w)).
Proof.
  intros Hblank Hnew Hfiles. simpl type_check.
  rewrite (bind_ok _ _ _ w () eq_refl).
  rewrite (bind_ok _ _ w w ()).
  2:{ unfold value_check. by rewrite bool_decide_eq_false_2. }
  by rewrite (bind_ok _ _ _ _ _ (os_makedirs_ok _ _ Hnew Hfiles)).
Qed.

(** X15. With no accelerator and both optimisation flags off, loading a
    saved model is bootstrapping from its artifacts directory: when the
    config record names an existing directory, [load] returns exactly what
    [bootstrap] returns for the path of that directory under the model
    path. *)
Theorem load_without_accelerator_is_bootstrap (model_path : string)
    (config : ModuleConfig float) (a : string) (w : World) :
  USE_XPU = false → USE_MPS = false → cuda_is_available = false →
  IPEX_OPTIMIZE = false → PT2_COMPILE = false →
  ModuleConfig_load model_path (fs w) = Ok config →
  config_entries config !! _ARTIFACTS_PATH_KEY = Some (PStr a) →
  a ≠ "" →
  fs w !! os_path_join (config_model_path config) a = Some Dir →
  load model_path w = bootstrap (os_path_join (config_model_path config) a) w.
Proof.
  intros Hxpu Hmps Hcuda Hipex Hpt2 Hconfig Hkey Ha Hdir.
  unfold load, bootstrap, load_model, _optimize.
  rewrite Hxpu, Hmps, Hcuda, Hipex, Hpt2.
  unfold bind, truthy, value_check, ret, dir_check, fs_read.
  rewrite Hconfig, Hkey. simpl.
  rewrite bool_decide_eq_false_2 by done. simpl. rewrite Hdir.
  by destruct (SentenceTransformer_new _ None (fs w)).
Qed.

(** X16. [load] refuses a config record whose artifacts path cannot be
    used, and leaves the world as it was: a falsy value (None, the empty
    string, zero, an empty list or dict) gives the configuration error
    <NLP07391618E>, as a missing key does; a name that resolves to a
    regular file gives [NotADirectoryError] under <NLP34197772E>. *)
Theorem load_unusable_artifacts_path (model_path : string) (config : ModuleConfig float)
    (w : World) :
  ModuleConfig_load model_path (fs w) = Ok config →
  (truthy_in (heap w) (default PNone (config_entries config !! _ARTIFACTS_PATH_KEY))
   = false →
   load model_path w
   = (Raise (ValueError "<NLP07391618E>" "Model config missing 'artifacts_path'"), w))
  ∧ (∀ (a : string) (content : string),
       config_entries config !! _ARTIFACTS_PATH_KEY = Some (PStr a) →
       a ≠ "" →
       fs w !! os_path_join (config_model_path config) a = Some (File content) →
       load model_path w
       = (Raise (NotADirectoryError "<NLP34197772E>"
                   (os_path_join (config_model_path config) a)), w)).
Proof.
  intros Hconfig. split.
  - intros Hfalsy. unfold load. apply bind_raise. unfold load_model.
    rewrite (bind_ok _ _ w w config) by (unfold fs_read; by rewrite Hconfig).
    rewrite (bind_ok _ _ w w false) by (unfold truthy; by rewrite Hfalsy).
    done.
  - intros a content Hkey Ha Hfile. unfold load. apply bind_raise. unfold load_model.
    rewrite (bind_ok _ _ w w config) by (unfold fs_read; by rewrite Hconfig).
    rewrite Hkey. simpl default.
    rewrite (bind_ok _ _ w w true).
    2:{ unfold truthy. simpl. by rewrite bool_decide_eq_false_2. }
    simpl value_check. rewrite (bind_ok _ _ _ w () eq_refl).
    rewrite (bind_ok _ _ w w (os_path_join (config_model_path config) a) eq_refl).
    apply bind_raise. unfold dir_check. by rewrite Hfile.
Qed.

(** X17. The vendor optimisation is applied outside any handler: when
    [IPEX_OPTIMIZE] is on and [ipex.optimize] raises on the model that was
    just built, [load] raises that exception, whatever its class, and
    nothing is logged. *)
Theorem load_ipex_failure_propagates (model_path : string) (m : Model)
    (w w1 : World) (e : exn) :
  IPEX_OPTIMIZE = true →
  load_model model_path w = (Ok m, w1) →
  ipex_optimize m = Raise e →
  load model_path w = (Raise e, w1).
Proof.
  intros Hipex Hmodel Hopt. unfold load.
  rewrite (bind_ok _ _ _ _ _ Hmodel). apply bind_raise.
  unfold _optimize. rewrite Hipex. apply bind_raise. apply bind_raise.
  unfold lift. by rewrite Hopt.
Qed.

(** X18. The handler around the compilation catches [Exception] only: when
    [PT2_COMPILE] is on and [torch.compile] raises something that is not
    an [Exception] (a keyboard interrupt, a system exit), [load] raises it
    and logs no warning. *)
Theorem load_compile_interrupt_propagates (model_path : string) (m m' : Model)
    (w w1 : World) (e : exn) :
  load_model model_path w = (Ok m, w1) →
  (if IPEX_OPTIMIZE then ipex_optimize m = Ok m' else m' = m) →
  PT2_COMPILE = true →
  torch_compile m' selected_backend "max-autotune" = Raise e →
  is_Exception e = false →
  load model_path w = (Raise e, w1).
Proof.
  intros Hmodel Hipex Hpt2 Hcompile Hexc. unfold load.
  rewrite (bind_ok _ _ _ _ _ Hmodel). apply bind_raise.
  revert Hcompile.
  unfold _optimize, selected_backend, bind, lift, ret, try_except.
  rewrite Hpt2. destruct IPEX_OPTIMIZE.
  - rewrite Hipex. simpl. intros Hcompile. by rewrite Hcompile, Hexc.
  - subst m'. destruct USE_MPS; simpl; intros Hcompile; by rewrite Hcompile, Hexc.
Qed.

(** X19. [save] refuses a blank path: when the path is empty or consists
    of white space only, it raises the value error <NLP40145207E>, whose
    message quotes the path as given, and creates nothing. *)
Theorem save_blank_path (self : TextEmbedding) (p : string) (w : World) :
  strip p = "" →
  save self (PStr p) w
  = (Raise (ValueError "<NLP40145207E>" ("model_path '" +:+ p +:+ "' is invalid")), w).
Proof.
  intros Hblank. unfold save. simpl type_check.
  rewrite (bind_ok _ _ _ w () eq_refl).
  apply bind_raise. unfold value_check. by rewrite bool_decide_eq_true_2.
Qed.

(** X20. Saving to a new path when the saver's config names no artifacts
    path: [save] creates the target directory, hands the model writer the
    subdirectory "artifacts" of the target, and, when the model writer
    succeeds, ends with the config writer, called on the target with the
    saver's config in which artifacts_path is "artifacts".  The outcome of
    [save] is the outcome of the config writer. *)
Theorem save_default_artifacts_path (self : TextEmbedding) (p : string) (w : World)
    (fs1 : gmap string node) :
  strip p ≠ "" →
  fs w !! abspath (strip p) = None →
  filter (λ a, is_file (fs w !! a) = true) (dir_prefixes "" (abspath (strip p))) = [] →
  ModuleSaver_config (abspath (strip p)) !! _ARTIFACTS_PATH_KEY = None →
  model_save (model self)
             (abspath (os_path_join (abspath (strip p)) "artifacts"))
             (foldr mkdir_missing (fs w)
                    (dir_prefixes "" (abspath (strip p)) ++ [abspath (strip p)]))
  = (Ok (), fs1) →
  save self (PStr p) w
  = ((ModuleConfig_save (<["artifacts_path" := PStr "artifacts"]>
                           (ModuleSaver_config (abspath (strip p))))
                        (abspath (strip p)) fs1).1,
     mkWorld (heap w)
             (ModuleConfig_save (<["artifacts_path" := PStr "artifacts"]>
                                   (ModuleSaver_config (abspath (strip p))))
                                (abspath (strip p)) fs1).2
             (log w) (encode_calls w)).
Proof.
  intros Hblank Hnew Hfiles Hcfg Hsave. unfold save.
  rewrite (save_prefix_ok self p w _ Hblank Hnew Hfiles).
  rewrite Hcfg. unfold bind, truthy, ret, fs_write. simpl.
  unfold _ARTIFACTS_PATH_DEFAULT, _ARTIFACTS_PATH_KEY in *.
  rewrite Hsave. simpl. by destruct (ModuleConfig_save _ _ fs1).
Qed.

(** X21. [save] does not clean up after a failure: when the target is new
    and the model writer raises without writing anything, [save] raises that
    exception with the target directory already created and no config
    written, so that saving to the same path again raises
    [FileExistsError]. *)
Theorem save_failure_leaves_directory (self : TextEmbedding) (p : string) (w : World)
    (e : exn) :
  strip p ≠ "" →
  fs w !! abspath (strip p) = None →
  filter (λ a, is_file (fs w !! a) = true) (dir_prefixes "" (abspath (strip p))) = [] →
  ModuleSaver_config (abspath (strip p)) !! _ARTIFACTS_PATH_KEY = None →
  (∀ f, model_save (model self)
                   (abspath (os_path_join (abspath (strip p)) "artifacts")) f
        = (Raise e, f)) →
  ∃ w1,
    save self (PStr p) w = (Raise e, w1)
    ∧ fs w1 = foldr mkdir_missing (fs w)
                    (dir_prefixes "" (abspath (strip p)) ++ [abspath (strip p)])
    ∧ fs w1 !! abspath (strip p) = Some Dir
    ∧ save self (PStr p) w1 = (Raise (FileExistsError (abspath (strip p))), w1).
Proof.
  intros Hblank Hnew Hfiles Hcfg Hsave.
  pose proof (makedirs_creates_target (dir_prefixes "" (abspath (strip p)))
                _ _ Hnew) as Hdir.
  eexists (mkWorld (heap w) _ (log w) (encode_calls w)).
  split; [|split; [reflexivity|split; [exact Hdir|]]].
  - unfold save. rewrite (save_prefix_ok self p w _ Hblank Hnew Hfiles).
    rewrite Hcfg. unfold bind, truthy, ret, fs_write. simpl.
    unfold _ARTIFACTS_PATH_DEFAULT. by rewrite Hsave.
  - set (w1 := mkWorld _ _ _ _). unfold save. simpl type_check.
    rewrite (bind_ok _ _ _ w1 () eq_refl).
    rewrite (bind_ok _ _ w1 w1 ()).
    2:{ unfold value_check. by rewrite bool_decide_eq_false_2. }
    apply bind_raise. unfold os_makedirs. simpl fs. by rewrite Hdir.
Qed.

End TextEmbedding.


(** ** Properties of the import-time flags *)

Lemma env_flag_after_import (environ : gmap string string) (name : string) :
  name ≠ tokenizers_parallelism →
  env_flag (environ_after_import environ) name = env_flag environ name.
Proof.
  intros Hne. unfold env_flag, environ_after_import.
  destruct (environ !! tokenizers_parallelism); [done|].
  by rewrite lookup_insert_ne.
Qed.

(** X1. Whatever the environment, the outcome of the ipex import and
    torch's answers about mps, the flags an import of the module produces
    are consistent: [USE_MPS] is never on together with [IPEX_OPTIMIZE],
    [USE_XPU] is on only when [IPEX_OPTIMIZE] is, and so [USE_XPU] and
    [USE_MPS] are never both on. *)
Theorem import_module_flags_consistent (environ : gmap string string)
    (import_ipex : result unit) (mps_is_built mps_is_available : bool) (r : Imported) :
  import_module environ import_ipex mps_is_built mps_is_available = Ok r →
  flag_IPEX_OPTIMIZE (imported_flags r) && flag_USE_MPS (imported_flags r) = false
  ∧ implb (flag_USE_XPU (imported_flags r)) (flag_IPEX_OPTIMIZE (imported_flags r)) = true
  ∧ flag_USE_XPU (imported_flags r) && flag_USE_MPS (imported_flags r) = false.
Proof.
  unfold import_module.
  destruct (env_flag (environ_after_import environ) "IPEX_OPTIMIZE").
  - destruct import_ipex as [[]|ie]; [|destruct (is_Exception ie)];
      intros [= <-]; simpl; try done.
    by destruct (env_flag _ "USE_XPU").
  - intros [= <-]. simpl. done.
Qed.

(** X2. When [IPEX_OPTIMIZE] is on in the environment and the import of
    intel_extension_for_pytorch raises an [Exception], importing the module
    does not fail: it logs one warning, turns [IPEX_OPTIMIZE] and [USE_XPU]
    off, and reads [USE_MPS] as it does without ipex. *)
Theorem import_module_survives_ipex_import_failure (environ : gmap string string)
    (ie : exn) (mps_is_built mps_is_available : bool) :
  env_flag environ "IPEX_OPTIMIZE" = true →
  is_Exception ie = true →
  import_module environ (Raise ie) mps_is_built mps_is_available
  = Ok (mkImported (environ_after_import environ)
          (mkFlags false false
             (env_flag environ "USE_MPS" && mps_is_built && mps_is_available)
             (env_flag environ "PT2_COMPILE"))
          [ipex_import_warning ie]).
Proof.
  intros Hipex Hexc. unfold import_module.
  rewrite !env_flag_after_import by done.
  by rewrite Hipex, Hexc.
Qed.

(** X3. Importing the module sets [TOKENIZERS_PARALLELISM] to "true" when
    the environment has no value for it, keeps the value it has otherwise,
    and changes no other variable. *)
Theorem import_module_environ (environ : gmap string string)
    (import_ipex : result unit) (mps_is_built mps_is_available : bool) (r : Imported) :
  import_module environ import_ipex mps_is_built mps_is_available = Ok r →
  imported_environ r !! tokenizers_parallelism
  = Some (default "true" (environ !! tokenizers_parallelism))
  ∧ ∀ name, name ≠ tokenizers_parallelism →
            imported_environ r !! name = environ !! name.
Proof.
  unfold import_module.
  intros Hr.
  assert (imported_environ r = environ_after_import environ) as ->.
  { destruct (env_flag (environ_after_import environ) "IPEX_OPTIMIZE");
      [destruct import_ipex as [[]|ie]; [|destruct (is_Exception ie)]|];
      by simplify_eq/=. }
  unfold environ_after_import.
  destruct (environ !! tokenizers_parallelism) eqn:Htp; simpl.
  - by rewrite Htp.
  - rewrite lookup_insert_eq. split; [done|].
    intros name Hne. by rewrite lookup_insert_ne.
Qed.

(** ** The properties on the sample instance *)

(** The record at 3, {"text": "abc"}, yields "abc". *)
Lemma get_text_fallback_witness :
  get_text (L := Sample.base) (PRef 3%positive) Sample.world
  = (Ok (PStr "abc"), Sample.world).
Proof.
  exact (proj1 (proj2 (get_text_fallback (L := Sample.base) Sample.world 3%positive
                         {["text" := PStr "abc"]} eq_refl))
               "abc" eq_refl ltac:(discriminate)).
Defined.

(** Two short texts give two vectors. *)
Lemma run_embeddings_order_witness :
  ∃ vectors w',
    run_embeddings Sample.self (Texts ["ab"; "a"]) Sample.world
    = (Ok (mkListOfVector1D vectors), w')
    ∧ length vectors = 2%nat.
Proof.
  destruct (run_embeddings_order Sample.self ["ab"; "a"] Sample.world)
    as [(vectors & w' & Hrun & Hlen & _) _]; [repeat constructor|].
  by exists vectors, w'.
Defined.

(** One source against two candidates gives two scores. *)
Lemma run_sentence_similarity_scores_witness :
  ∃ scores w',
    run_sentence_similarity Sample.self "ab" ["abc"; "a"] Sample.world
    = (Ok (mkSentenceScores scores), w')
    ∧ length scores = 2%nat.
Proof.
  destruct (run_sentence_similarity_scores Sample.self "ab" ["abc"; "a"] Sample.world)
    as (scores & w' & Hrun & Hlen & _); [reflexivity|repeat constructor|].
  by exists scores, w'.
Defined.

(** The first document record is untouched by a rerank of the sample
    documents. *)
Lemma run_rerank_queries_inputs_unmodified_witness :
  heap (run_rerank_queries Sample.self (PRef 6%positive) (PRef 2%positive) None
          true true true Sample.world).2 !! 3%positive
  = heap Sample.world !! 3%positive.
Proof.
  apply (run_rerank_queries_inputs_unmodified Sample.self).
  apply elem_of_dom. eexists. vm_compute. reflexivity.
Defined.

(** The sample queries against the empty documents list. *)
Lemma rerank_empty_input_witness :
  run_rerank_queries Sample.self (PRef 1%positive) (PRef 5%positive) None
                     true true true Sample.world
  = (Ok (mkRerankPrediction []), Sample.world).
Proof.
  exact (proj1 (rerank_empty_input Sample.self 1%positive 5%positive
                  [PStr "ab"; PStr "abcdefgh"] [] None true true true Sample.world
                  eq_refl eq_refl (or_intror eq_refl))).
Defined.

(** Two queries against the two sample documents with [top_n = 1]: the
    sample scores are integers, so any two are comparable. *)
Lemma run_rerank_queries_top_n_witness :
  ∃ results w',
    run_rerank_queries Sample.self (PRef 6%positive) (PRef 2%positive) (Some 1)
                       true true true Sample.world
    = (Ok (mkRerankPrediction results), w')
    ∧ length results = 2%nat
    ∧ Forall (λ r, non_increasing (L := Sample.base)
                     (RerankScore_score <$> RerankQueryResult_scores r)) results.
Proof.
  destruct (run_rerank_queries_top_n Sample.self 6%positive 2%positive
              [PStr "ab"; PStr "a"] [PRef 3%positive; PRef 4%positive] (Some 1)
              true true true Sample.world)
    as (results & w' & Hrun & Hlen & _ & Hsorted).
  - reflexivity.
  - reflexivity.
  - discriminate.
  - discriminate.
  - repeat constructor; eexists _, _; (split; [reflexivity|vm_compute; reflexivity]).
  - repeat constructor.
  - repeat constructor.
  - exists results, w'. split; [exact Hrun|]. split; [exact Hlen|].
    apply Hsorted. intros q t t' _ _ _.
    set (x := score_of Sample.self q t). set (y := score_of Sample.self q t').
    change ((x <=? y) = true ∨ (y <=? x) = true).
    destruct (Z.leb_spec x y) as [Hxy|Hxy]; [by left|right].
    apply Z.leb_le. change (y ≤ x). change (y < x) in Hxy. lia.
Defined.

(** The query "abcdefgh" has eight tokens and the model accepts four: the
    rerank request is rejected. *)
Lemma truncation_guard_witness :
  rejected (dispatch Sample.self
              (RerankQueries (PRef 1%positive) (PRef 2%positive) None true true true))
           Sample.world.
Proof.
  apply (truncation_guard Sample.self
           (RerankQueries (PRef 1%positive) (PRef 2%positive) None true true true)
           Sample.world).
  - split; [by eexists _, _|]. split; [by eexists _, _|].
    repeat constructor; eexists _, _; (split; [reflexivity|vm_compute; reflexivity]).
  - split; discriminate.
  - repeat constructor.
  - do 3 apply Exists_cons_tl. apply Exists_cons_hd. reflexivity.
Defined.

(** With [PT2_COMPILE] on and a compiler that raises, load of [/ok] returns
    the handle and logs the warning. *)
Lemma load_survives_compile_failure_witness :
  load (L := Sample.libraries false true false) "/ok" Sample.world
  = (Ok (mkTextEmbedding (L := Sample.libraries false true false) tt),
     warned (L := Sample.libraries false true false)
       (compile_warning (RuntimeError "torch.compile")) Sample.world).
Proof.
  refine (proj2 (load_survives_compile_failure (L := Sample.libraries false true false)
                   "/ok" tt tt Sample.world Sample.world (RuntimeError "torch.compile")
                   _ eq_refl eq_refl eq_refl eq_refl)).
  vm_compute. reflexivity.
Defined.

(** [/none] has a config record without the key, [/m] names artifacts that
    are not there. *)
Lemma load_missing_artifacts_witness :
  load (L := Sample.base) "/none" Sample.world
  = (Raise (ValueError "<NLP07391618E>" "Model config missing 'artifacts_path'"),
     Sample.world)
  ∧ load (L := Sample.base) "/m" Sample.world
    = (Raise (FileNotFoundError "<NLP34197772E>" "/m/artifacts"), Sample.world).
Proof.
  split.
  - refine (proj1 (load_missing_artifacts (L := Sample.base) "/none"
                     (mkModuleConfig "/none" ∅) Sample.world _) eq_refl).
    vm_compute. reflexivity.
  - refine (proj2 (load_missing_artifacts (L := Sample.base) "/m"
                     (mkModuleConfig "/m" {["artifacts_path" := PStr "artifacts"]})
                     Sample.world _) "artifacts" eq_refl _ _).
    + vm_compute. reflexivity.
    + discriminate.
    + vm_compute. reflexivity.
Defined.



(** C1 as stated fails here: the query "abcdefgh" exceeds the limit, and
    with an empty documents list [run_rerank_queries] returns the empty
    result instead of raising. *)
Lemma truncation_guard_counterexample :
  exceeds_limit Sample.self (PStr "abcdefgh") = true
  ∧ list_of (L := Sample.base) (heap Sample.world) (PRef 1%positive) = [PStr "ab"; PStr "abcdefgh"]
  ∧ run_rerank_queries Sample.self (PRef 1%positive) (PRef 5%positive) None
                       true true true Sample.world
    = (Ok (mkRerankPrediction []), Sample.world).
Proof. repeat split; vm_compute; reflexivity. Qed.

(** C2 as stated fails here: with [IPEX_OPTIMIZE] on, the exception
    [ipex.optimize] raises is not caught and load raises it. *)
Lemma load_ipex_failure_counterexample :
  @ipex_optimize (Sample.libraries true false false) tt
  = Raise (RuntimeError "ipex.optimize")
  ∧ (load (L := Sample.libraries true false false) "/ok" Sample.world).1
    = Raise (RuntimeError "ipex.optimize").
Proof. split; vm_compute; reflexivity. Qed.

(** C3 as stated fails here.  With [top_n = 0] each query gets a score
    for both documents, and 2 is not at most [top_n].  With the eight-token
    query at 1 the call raises and returns no result.  With scores that are
    NaN the two scores of a result are not in non-increasing order. *)
Lemma run_rerank_queries_top_n_counterexample :
  (∃ r rs,
     (run_rerank_queries Sample.self (PRef 6%positive) (PRef 2%positive) (Some 0)
                         true true true Sample.world).1
     = Ok (mkRerankPrediction (r :: rs))
     ∧ length (RerankQueryResult_scores r) = 2%nat)
  ∧ (run_rerank_queries Sample.self (PRef 1%positive) (PRef 2%positive) None
                        true true true Sample.world).1
    = Raise (ValueError "<NLP08391926E>" (truncation_msg 8 4))
  ∧ (∃ r rs,
       (run_rerank_queries Sample.nan_self (PRef 1%positive) (PRef 2%positive) None
                           true true true Sample.nan_world).1
       = Ok (mkRerankPrediction (r :: rs))
       ∧ RerankScore_score <$> RerankQueryResult_scores r = [None; None]
       ∧ ¬ non_increasing (L := Sample.nan_scores) [None; None]).
Proof.
  split; [|split].
  - eexists _, _. split; [vm_compute; reflexivity|reflexivity].
  - vm_compute. reflexivity.
  - eexists _, _. split; [vm_compute; reflexivity|]. split; [reflexivity|].
    intros Hsorted. inversion Hsorted as [|x l _ Hhd]; subst.
    inversion Hhd as [|y l' Hleb]; subst. discriminate Hleb.
Qed.

(** *** The import-time flags on the sample environment *)

(** Ipex asked for and imported: xpu is used, mps is not. *)
Lemma import_module_flags_consistent_witness :
  ∃ r, import_module Sample.environ (Ok ()) true true = Ok r
       ∧ imported_flags r = mkFlags true true false false
       ∧ flag_IPEX_OPTIMIZE (imported_flags r) && flag_USE_MPS (imported_flags r) = false
       ∧ implb (flag_USE_XPU (imported_flags r)) (flag_IPEX_OPTIMIZE (imported_flags r))
         = true
       ∧ flag_USE_XPU (imported_flags r) && flag_USE_MPS (imported_flags r) = false.
Proof.
  exists (mkImported (environ_after_import Sample.environ)
            (mkFlags true true false false) []).
  split; [vm_compute; reflexivity|]. split; [reflexivity|].
  apply (import_module_flags_consistent Sample.environ (Ok ()) true true).
  vm_compute. reflexivity.
Defined.

(** Ipex asked for but not installed: the import goes on with mps. *)
Lemma import_module_survives_ipex_import_failure_witness :
  import_module Sample.environ
                (Raise (RuntimeError "No module named 'intel_extension_for_pytorch'"))
                true true
  = Ok (mkImported (environ_after_import Sample.environ)
          (mkFlags false false (env_flag Sample.environ "USE_MPS" && true && true)
                   (env_flag Sample.environ "PT2_COMPILE"))
          [ipex_import_warning
             (RuntimeError "No module named 'intel_extension_for_pytorch'")]).
Proof.
  apply (import_module_survives_ipex_import_failure Sample.environ
           (RuntimeError "No module named 'intel_extension_for_pytorch'") true true).
  - vm_compute. reflexivity.
  - reflexivity.
Defined.

(** The sample environment has no [TOKENIZERS_PARALLELISM]; its
    [USE_XPU] stays as it is. *)
Lemma import_module_environ_witness :
  ∃ r, import_module Sample.environ (Ok ()) true true = Ok r
       ∧ imported_environ r !! tokenizers_parallelism = Some "true"
       ∧ imported_environ r !! "USE_XPU" = Some "1".
Proof.
  exists (mkImported (environ_after_import Sample.environ)
            (mkFlags true true false false) []).
  split; [vm_compute; reflexivity|].
  destruct (import_module_environ Sample.environ (Ok ()) true true
              (mkImported (environ_after_import Sample.environ)
                 (mkFlags true true false false) []))
    as [Hset Hkept]; [vm_compute; reflexivity|].
  split; [exact Hset|]. rewrite Hkept; [reflexivity|discriminate].
Defined.

(** *** The further properties on the sample instance *)

(** A number where a string is expected. *)
Lemma non_string_argument_type_error_witness :
  run_embedding Sample.self (PInt 5) Sample.world
  = (Raise (TypeError "<NLP27491611E>"), Sample.world)
  ∧ save Sample.self (PInt 5) Sample.world
    = (Raise (TypeError "<NLP82314992E>"), Sample.world).
Proof.
  destruct (non_string_argument_type_error Sample.self (PInt 5) Sample.world eq_refl)
    as (Hembedding & _ & Hsave).
  by split.
Defined.

Lemma run_embeddings_single_is_run_embedding_witness :
  ∃ v w1 w2,
    run_embedding Sample.self (PStr "ab") Sample.world = (Ok v, w1)
    ∧ run_embeddings Sample.self (OneText "ab") Sample.world
      = (Ok (mkListOfVector1D [v]), w2)
    ∧ run_embeddings Sample.self (Texts ["ab"]) Sample.world
      = (Ok (mkListOfVector1D [v]), w2).
Proof.
  exact (run_embeddings_single_is_run_embedding Sample.self "ab" Sample.world eq_refl).
Defined.

(** Two sources against two candidates give two rows. *)
Lemma run_sentence_similarities_rows_witness :
  ∃ rows w',
    run_sentence_similarities Sample.self ["ab"; "a"] ["abc"; "a"] Sample.world
    = (Ok (mkSentenceListScores rows), w')
    ∧ length rows = 2%nat.
Proof.
  destruct (run_sentence_similarities_rows Sample.self ["ab"; "a"] ["abc"; "a"]
              Sample.world)
    as (rows & w' & Hrun & Hlen & _).
  - discriminate.
  - discriminate.
  - repeat constructor.
  - repeat constructor.
  - by exists rows, w'.
Defined.

(** The sample tokenizer refuses the number that ends the queries list
    at 9. *)
Lemma tokenizer_error_propagates_witness :
  (dispatch Sample.self
     (RerankQueries (PRef 9%positive) (PRef 2%positive) None true true true)
     Sample.world_more).1
  = Raise (ValueError "" "text input must be of type str").
Proof.
  refine (proj1 (tokenizer_error_propagates Sample.self
                   (RerankQueries (PRef 9%positive) (PRef 2%positive) None
                                  true true true)
                   Sample.world_more
                   [PStr "abc"; PStr "a"; PStr "ab"] [] (PInt 5)
                   (ValueError "" "text input must be of type str")
                   _ _ _ _ eq_refl)).
  - split; [by eexists _, _|]. split; [by eexists _, _|].
    repeat constructor; eexists _, _; (split; [reflexivity|vm_compute; reflexivity]).
  - split; discriminate.
  - vm_compute. reflexivity.
  - repeat constructor.
Defined.

(** The query "abcdefgh" has eight tokens, the model accepts four. *)
Lemma truncation_error_names_first_offender_witness :
  (dispatch Sample.self
     (RerankQueries (PRef 1%positive) (PRef 2%positive) None true true true)
     Sample.world).1
  = Raise (ValueError "<NLP08391926E>" (truncation_msg 8 4)).
Proof.
  refine (truncation_error_names_first_offender Sample.self
            (RerankQueries (PRef 1%positive) (PRef 2%positive) None true true true)
            Sample.world
            [PStr "abc"; PStr "a"; PStr "ab"] [] (PStr "abcdefgh") 8
            _ _ _ _ eq_refl _).
  - split; [by eexists _, _|]. split; [by eexists _, _|].
    repeat constructor; eexists _, _; (split; [reflexivity|vm_compute; reflexivity]).
  - split; discriminate.
  - vm_compute. reflexivity.
  - repeat constructor.
  - simpl. lia.
Defined.

(** Every score of a rerank of the sample documents points at one of
    them. *)
Lemma run_rerank_queries_scores_point_at_documents_witness :
  ∃ prediction w',
    run_rerank_queries Sample.self (PRef 6%positive) (PRef 2%positive) None
                       true true true Sample.world
    = (Ok prediction, w')
    ∧ ∀ r sc,
        r ∈ RerankPrediction_results prediction →
        sc ∈ RerankQueryResult_scores r →
        ∃ (i : nat) (d : pyval Z),
          RerankScore_index sc = Z.of_nat i
          ∧ [PRef 3%positive; PRef 4%positive] !! i = Some d
          ∧ RerankScore_document sc = Some d
          ∧ RerankScore_text sc
            = Some (doc_text (L := Sample.base) (heap Sample.world) d).
Proof.
  apply (run_rerank_queries_scores_point_at_documents Sample.self 6%positive 2%positive
           [PStr "ab"; PStr "a"] [PRef 3%positive; PRef 4%positive] None
           true true true Sample.world).
  - reflexivity.
  - reflexivity.
  - discriminate.
  - discriminate.
  - repeat constructor; eexists _, _; (split; [reflexivity|vm_compute; reflexivity]).
  - repeat constructor.
  - repeat constructor.
Defined.

(** The first result of a rerank of the sample documents echoes the first
    query, "ab". *)
Lemma run_rerank_queries_score_values_witness :
  ∃ prediction w',
    run_rerank_queries Sample.self (PRef 6%positive) (PRef 2%positive) None
                       true true true Sample.world
    = (Ok prediction, w')
    ∧ ∀ r, RerankPrediction_results prediction !! 0%nat = Some r →
           RerankQueryResult_query r = Some (PStr "ab").
Proof.
  destruct (run_rerank_queries_score_values Sample.self 6%positive 2%positive
              [PStr "ab"; PStr "a"] [PRef 3%positive; PRef 4%positive] None
              true true true Sample.world)
    as (prediction & w' & Hrun & Hresults).
  - reflexivity.
  - reflexivity.
  - discriminate.
  - discriminate.
  - repeat constructor; eexists _, _; (split; [reflexivity|vm_compute; reflexivity]).
  - repeat constructor.
  - repeat constructor.
  - exists prediction, w'. split; [exact Hrun|].
    intros r Hr. exact (proj1 (Hresults 0%nat r (PStr "ab") Hr eq_refl)).
Defined.

(** The two encoder calls of a rerank of the sample documents. *)
Lemma run_rerank_queries_encoder_calls_witness :
  ∃ prediction w',
    run_rerank_queries Sample.self (PRef 6%positive) (PRef 2%positive) None
                       true true true Sample.world
    = (Ok prediction, w')
    ∧ encode_calls w'
      = [EncodeBatch [PStr "abc"; PStr "a"]; EncodeBatch [PStr "ab"; PStr "a"]].
Proof.
  destruct (run_rerank_queries_encoder_calls Sample.self 6%positive 2%positive
              [PStr "ab"; PStr "a"] [PRef 3%positive; PRef 4%positive] None
              true true true Sample.world)
    as (prediction & w' & Hrun & Hcalls & _).
  - reflexivity.
  - reflexivity.
  - discriminate.
  - discriminate.
  - repeat constructor; eexists _, _; (split; [reflexivity|vm_compute; reflexivity]).
  - repeat constructor.
  - repeat constructor.
  - exists prediction, w'. split; [exact Hrun|]. rewrite Hcalls.
    vm_compute. reflexivity.
Defined.

(** The query "ab" alone, and the list at 7 that holds just "ab". *)
Lemma run_rerank_query_is_single_query_rerank_witness :
  ∃ r w1 w2,
    run_rerank_query Sample.self (PStr "ab") (PRef 2%positive) None
                     true true true Sample.world_more
    = (Ok r, w1)
    ∧ run_rerank_queries Sample.self (PRef 7%positive) (PRef 2%positive) None
                         true true true Sample.world_more
      = (Ok (mkRerankPrediction [r]), w2).
Proof.
  apply (run_rerank_query_is_single_query_rerank Sample.self "ab" 7%positive 2%positive
           [PRef 3%positive; PRef 4%positive] None true true true Sample.world_more).
  - reflexivity.
  - reflexivity.
  - discriminate.
  - repeat constructor; eexists _, _; (split; [reflexivity|vm_compute; reflexivity]).
  - repeat constructor.
  - reflexivity.
Defined.

(** A string where the queries list is expected. *)
Lemma run_rerank_queries_type_error_witness :
  run_rerank_queries Sample.self (PStr "ab") (PRef 2%positive) None
                     true true true Sample.world
  = (Raise (TypeError "<NLP09038249E>"), Sample.world).
Proof.
  apply (run_rerank_queries_type_error Sample.self (PStr "ab") (PRef 2%positive) None
           true true true Sample.world).
  left. intros (l & vs & Href & _). discriminate Href.
Defined.

(** The documents list at 8 holds a record and then a string. *)
Lemma run_rerank_queries_non_dict_document_witness :
  run_rerank_queries Sample.self (PRef 6%positive) (PRef 8%positive) None
                     true true true Sample.world_more
  = (Raise (AttributeError "get"), Sample.world_more).
Proof.
  apply (run_rerank_queries_non_dict_document Sample.self 6%positive 8%positive
           [PStr "ab"; PStr "a"] [PRef 3%positive] [] (PStr "abc") None
           true true true Sample.world_more).
  - reflexivity.
  - reflexivity.
  - discriminate.
  - repeat constructor; eexists _, _; (split; [reflexivity|vm_compute; reflexivity]).
  - intros (l & d & Href & _). discriminate Href.
Defined.

(** Loading the complete model directory [/ok]. *)
Lemma load_without_accelerator_is_bootstrap_witness :
  load (L := Sample.base) "/ok" Sample.world
  = bootstrap (L := Sample.base) "/ok/artifacts" Sample.world.
Proof.
  refine (load_without_accelerator_is_bootstrap (L := Sample.base) "/ok"
            (mkModuleConfig "/ok" {["artifacts_path" := PStr "artifacts"]})
            "artifacts" Sample.world eq_refl eq_refl eq_refl eq_refl eq_refl _ eq_refl _ _).
  - vm_compute. reflexivity.
  - discriminate.
  - vm_compute. reflexivity.
Defined.

(** [/file] names artifacts that are a regular file. *)
Lemma load_unusable_artifacts_path_witness :
  load (L := Sample.base) "/file" Sample.world_more
  = (Raise (NotADirectoryError "<NLP34197772E>" "/file/artifacts"), Sample.world_more).
Proof.
  refine (proj2 (load_unusable_artifacts_path (L := Sample.base) "/file"
                   (mkModuleConfig "/file" {["artifacts_path" := PStr "artifacts"]})
                   Sample.world_more _) "artifacts" "weights" eq_refl _ _).
  - vm_compute. reflexivity.
  - discriminate.
  - vm_compute. reflexivity.
Defined.

(** With [IPEX_OPTIMIZE] on and an [ipex.optimize] that raises. *)
Lemma load_ipex_failure_propagates_witness :
  load (L := Sample.libraries true false false) "/ok" Sample.world
  = (Raise (RuntimeError "ipex.optimize"), Sample.world).
Proof.
  refine (load_ipex_failure_propagates (L := Sample.libraries true false false)
            "/ok" tt Sample.world Sample.world (RuntimeError "ipex.optimize")
            eq_refl _ eq_refl).
  vm_compute. reflexivity.
Defined.

(** With [PT2_COMPILE] on and a compiler that is interrupted. *)
Lemma load_compile_interrupt_propagates_witness :
  load (L := Sample.faulty) "/ok" Sample.world = (Raise KeyboardInterrupt, Sample.world).
Proof.
  refine (load_compile_interrupt_propagates (L := Sample.faulty)
            "/ok" tt tt Sample.world Sample.world KeyboardInterrupt
            _ eq_refl eq_refl eq_refl eq_refl).
  vm_compute. reflexivity.
Defined.

(** A path made of a space, a no-break space (U+00A0) and an ideographic
    space (U+3000). *)
Lemma save_blank_path_witness :
  save Sample.self (PStr (" " +:+ utf8_encode 0xA0 +:+ utf8_encode 0x3000)) Sample.world
  = (Raise (ValueError "<NLP40145207E>"
              ("model_path '" +:+ (" " +:+ utf8_encode 0xA0 +:+ utf8_encode 0x3000)
               +:+ "' is invalid")),
     Sample.world).
Proof.
  apply (save_blank_path Sample.self (" " +:+ utf8_encode 0xA0 +:+ utf8_encode 0x3000)
           Sample.world).
  vm_compute. reflexivity.
Defined.

(** Saving to [/new] padded with a space and a no-break space (U+00A0):
    the weights go to [/new/artifacts], the config to [/new/config.yml]. *)
Lemma save_default_artifacts_path_witness :
  (save Sample.self (PStr (" /new" +:+ utf8_encode 0xA0)) Sample.world).1 = Ok ()
  ∧ fs (save Sample.self (PStr (" /new" +:+ utf8_encode 0xA0)) Sample.world).2
      !! "/new/artifacts" = Some Dir
  ∧ fs (save Sample.self (PStr (" /new" +:+ utf8_encode 0xA0)) Sample.world).2
      !! "/new/config.yml" = Some (File "artifacts").
Proof.
  rewrite (save_default_artifacts_path Sample.self (" /new" +:+ utf8_encode 0xA0)
             Sample.world
             (<["/new/artifacts" := Dir]> (<["/new" := Dir]> (fs Sample.world)))).
  - repeat split; vm_compute; reflexivity.
  - vm_compute. discriminate.
  - vm_compute. reflexivity.
  - vm_compute. reflexivity.
  - vm_compute. reflexivity.
  - vm_compute. reflexivity.
Defined.

(** Saving to the new path [/new] with a model writer that fails. *)
Lemma save_failure_leaves_directory_witness :
  ∃ w1,
    save (@mkTextEmbedding Sample.faulty tt) (PStr "/new") Sample.world
    = (Raise (RuntimeError "model.save"), w1)
    ∧ fs w1 !! "/new" = Some Dir
    ∧ save (@mkTextEmbedding Sample.faulty tt) (PStr "/new") w1
      = (Raise (FileExistsError "/new"), w1).
Proof.
  destruct (save_failure_leaves_directory (@mkTextEmbedding Sample.faulty tt)
              "/new" Sample.world (RuntimeError "model.save"))
    as (w1 & Hsave & _ & Hdir & Hagain).
  - discriminate.
  - vm_compute. reflexivity.
  - vm_compute. reflexivity.
  - vm_compute. reflexivity.
  - reflexivity.
  - by exists w1.
Defined.
